(** * n8n-mcp: node search, ranking and minimal validation

    A shallow embedding of the search and validation handlers of the
    n8n-mcp server:

    - [src/mcp/handlers/search-handlers.ts]  (searchNodes, searchNodesFTS,
      searchNodesLIKE, searchNodesFuzzy, the two relevance scorers,
      calculateFuzzyScore, getEditDistance, rankSearchResults);
    - [src/handlers/node-search-handler.ts]  (class NodeSearchHandler);
    - the node handlers (getNodeInfo, searchNodeProperties,
      validateNodeMinimal, validateNodeConfig);
    - the workflow handler validateWorkflow;
    - the validate_node and search_templates cases of
      ToolExecutionHandler.executeTool, and validateToolParams;
    - getNode with handleInfoMode and handleVersionMode;
    - validateWorkflowConnections and validateWorkflowExpressions;
    - the utility handlers listNodes and getOutputDescriptions;
    - getDisabledTools and parseSQLStatements of the server class.

    Conventions.  A JavaScript string is a [string]: a sequence of
    characters, each character being a code unit in the range
    U+0000..U+00FF.  A JavaScript object used as a dictionary is a
    [gmap string _] holding its own members; it is a plain object, and
    the members it inherits are those of [Object.prototype].  Counts
    (lengths, limits, edit distances) are [nat]; fuzzy scores, which the
    source computes with divisions, are exact rationals [Q].
    Collaborators whose code lives outside these files (the database, the
    node repository, the property-visibility evaluator, the configuration
    and workflow validators, the regular-expression engine, the collation
    order, the engine's [Array.prototype.sort]) are the members of the
    classes [DatabaseAdapter], [NodeRepository], [Services], [Runtime] and
    [ArraySort].  Calls to the logger and to telemetry have no bearing on
    the values returned and are left out. *)

From Stdlib Require Import String Ascii QArith Qminmax Lqa.
From Stdlib Require OrderedTypeEx.
From stdpp Require Import base list strings gmap pretty sorting.

#[local] Open Scope nat_scope.


(** ** Outcomes of fallible code *)

(** A call either returns a value or throws an [Error] carrying a message
    ([error.message]). *)
Inductive outcome (A : Type) : Type :=
| Returns (a : A)
| Throws (message : string).
Arguments Returns {A} a.
Arguments Throws {A} message.

Definition obind {A B : Type} (x : outcome A) (k : A → outcome B) : outcome B :=
  match x with
  | Returns a => k a
  | Throws msg => Throws msg
  end.

Definition omap {A B : Type} (f : A → B) (x : outcome A) : outcome B :=
  obind x (λ a, Returns (f a)).

(** [try { body } catch (error) { handler(error.message) }] *)
Definition try_catch {A : Type} (body : outcome A) (handler : string → outcome A)
    : outcome A :=
  match body with
  | Returns a => Returns a
  | Throws msg => handler msg
  end.

Definition returns {A : Type} (x : outcome A) : Prop := ∃ a, x = Returns a.

#[export] Instance outcome_ret : MRet outcome := @Returns.
#[export] Instance outcome_bind : MBind outcome := λ A B k x, obind x k.
#[export] Instance outcome_fmap : FMap outcome := λ A B f x, omap f x.

(** ** JavaScript strings *)

Module JS.

Definition code (c : ascii) : nat := nat_of_ascii c.

(** White space as matched by [\s] and removed by [trim()]: TAB, LF, VT,
    FF, CR, SPACE and NO-BREAK SPACE. *)
Definition isWhiteSpace (c : ascii) : bool :=
  let n := code c in
  ((9 <=? n) && (n <=? 13)) || (n =? 32) || (n =? 160).

(** Word characters as matched by [\w]. *)
Definition isWordChar (c : ascii) : bool :=
  let n := code c in
  ((48 <=? n) && (n <=? 57)) || ((65 <=? n) && (n <=? 90))
  || (n =? 95) || ((97 <=? n) && (n <=? 122)).

(** Lower case of one character: the letters A-Z and the accented
    capitals U+00C0..U+00DE (the multiplication sign apart) move up by
    32. *)
Definition toLowerChar (c : ascii) : ascii :=
  let n := code c in
  if ((65 <=? n) && (n <=? 90))
     || ((192 <=? n) && (n <=? 222) && negb (n =? 215))
  then ascii_of_nat (n + 32) else c.

(** [s.toLowerCase()] *)
Fixpoint toLowerCase (s : string) : string :=
  match s with
  | EmptyString => EmptyString
  | String c s' => String (toLowerChar c) (toLowerCase s')
  end.

(** [s.startsWith(p)] *)
Fixpoint startsWith (s p : string) : bool :=
  match p, s with
  | EmptyString, _ => true
  | String _ _, EmptyString => false
  | String a p', String b s' => bool_decide (a = b) && startsWith s' p'
  end.

(** [s.includes(sub)] *)
Fixpoint includes (s sub : string) : bool :=
  startsWith s sub ||
  match s with
  | EmptyString => false
  | String _ s' => includes s' sub
  end.

(** [s.slice(n)] *)
Fixpoint drop (n : nat) (s : string) : string :=
  match n, s with
  | S n', String _ s' => drop n' s'
  | _, _ => s
  end.

(** [s.endsWith(p)] *)
Definition endsWith (s p : string) : bool :=
  (String.length p <=? String.length s)
  && bool_decide (drop (String.length s - String.length p) s = p).

(** Drops leading white space. *)
Fixpoint trimStart (s : string) : string :=
  match s with
  | String c s' => if isWhiteSpace c then trimStart s' else s
  | EmptyString => EmptyString
  end.

(** Drops trailing white space: the result of a suffix is kept unless it
    is empty and the current character is white space. *)
Fixpoint trimEnd (s : string) : string :=
  match s with
  | EmptyString => EmptyString
  | String c s' =>
      match trimEnd s' with
      | EmptyString => if isWhiteSpace c then EmptyString else String c EmptyString
      | t => String c t
      end
  end.

(** [s.trim()] *)
Definition trim (s : string) : string := trimEnd (trimStart s).

(** [s.split(/\s+/)]: the pieces between maximal runs of white space,
    with an empty first (last) piece when [s] starts (ends) with white
    space, and [[""]] for the empty string.  [in_sep] tells that the scan
    is inside a run of white space; [cur] is the piece being read. *)
Fixpoint split_go (in_sep : bool) (cur : string) (s : string) : list string :=
  match s with
  | EmptyString => [cur]
  | String c s' =>
      if isWhiteSpace c
      then if in_sep then split_go true cur s'
           else cur :: split_go true EmptyString s'
      else split_go false (cur +:+ String c EmptyString) s'
  end.

Definition split_ws (s : string) : list string := split_go false EmptyString s.

(** [s.split(/\s+/).filter(w => w.length > 0)] *)
Definition words (s : string) : list string :=
  filter (λ w, 0 < String.length w) (split_ws s).

(** [l.join(sep)] *)
Fixpoint join (sep : string) (l : list string) : string :=
  match l with
  | [] => EmptyString
  | [w] => w
  | w :: l' => w +:+ sep +:+ join sep l'
  end.

(** [s.replace(/^p/, '')] for a literal prefix [p]. *)
Definition stripPrefix (p s : string) : string :=
  if startsWith s p then drop (String.length p) s else s.

(** [s.replace(/pat/g, rep)] for a literal, non-empty pattern: [skip]
    counts the characters of a match still to be passed over. *)
Fixpoint replaceAll_go (pat rep : string) (skip : nat) (s : string) : string :=
  match s with
  | EmptyString => EmptyString
  | String c s' =>
      match skip with
      | S k => replaceAll_go pat rep k s'
      | 0 =>
          if startsWith s pat
          then rep +:+ replaceAll_go pat rep (String.length pat - 1) s'
          else String c (replaceAll_go pat rep 0 s')
      end
  end.

Definition replaceAll (pat rep s : string) : string := replaceAll_go pat rep 0 s.

(** [s.replace(/[<>]/g, '')] *)
Fixpoint removeAngles (s : string) : string :=
  match s with
  | EmptyString => EmptyString
  | String c s' =>
      if bool_decide (c = "<"%char) || bool_decide (c = ">"%char)
      then removeAngles s' else String c (removeAngles s')
  end.

(** [s.slice(0, -1)] *)
Fixpoint dropLast (s : string) : string :=
  match s with
  | EmptyString => EmptyString
  | String c EmptyString => EmptyString
  | String c s' => String c (dropLast s')
  end.

(** [s.slice(1, -1)] *)
Definition slice_1_m1 (s : string) : string := dropLast (drop 1 s).

(** [l.slice(0, limit)] for a count [limit]. *)
Definition slice0 {A : Type} (limit : nat) (l : list A) : list A := take limit l.

(** [a || b] on strings: the empty string is falsy. *)
Definition or_else (a b : string) : string :=
  match a with EmptyString => b | _ => a end.

End JS.

(** ** Arrays *)

Module JSArray.
Section Array.
Context {A : Type}.

(** The stable sorted arrangement of a list: [a] is placed before [b]
    when [cmp a b < 0], after it when [cmp a b > 0], and elements that
    compare equal keep their order.  It is computed by insertion from the
    right. *)
Fixpoint insert (cmp : A → A → Z) (x : A) (l : list A) : list A :=
  match l with
  | [] => [x]
  | y :: l' => if (cmp x y <=? 0)%Z then x :: y :: l' else y :: insert cmp x l'
  end.

Definition stableSort (cmp : A → A → Z) (l : list A) : list A :=
  foldr (insert cmp) [] l.

(** A consistent comparator for a set [S] of values, in the words of
    ECMAScript: [cmp a a] is zero, [cmp a b = 0] is symmetric, and each of
    [cmp a b = 0], [cmp a b < 0] and [cmp a b > 0] is transitive. *)
Definition consistentFor (S : A → Prop) (cmp : A → A → Z) : Prop :=
  (∀ a, S a → cmp a a = 0%Z)
  ∧ (∀ a b, S a → S b → cmp a b = 0%Z → cmp b a = 0%Z)
  ∧ (∀ a b c, S a → S b → S c →
       cmp a b = 0%Z → cmp b c = 0%Z → cmp a c = 0%Z)
  ∧ (∀ a b c, S a → S b → S c →
       (cmp a b < 0)%Z → (cmp b c < 0)%Z → (cmp a c < 0)%Z)
  ∧ (∀ a b c, S a → S b → S c →
       (0 < cmp a b)%Z → (0 < cmp b c)%Z → (0 < cmp a c)%Z).

(** A consistent comparator for the elements of an array. *)
Definition consistent (cmp : A → A → Z) (l : list A) : Prop :=
  consistentFor (λ a, a ∈ l) cmp.

(** [l.map(f)] where [f] may throw: the first exception escapes. *)
Fixpoint mapM {B : Type} (f : A → outcome B) (l : list A) : outcome (list B) :=
  match l with
  | [] => Returns []
  | x :: l' => y ← f x; ys ← mapM f l'; Returns (y :: ys)
  end.
End Array.

(** The sign of [x - y], the only part of a comparator's result that
    sorting looks at. *)
Definition sign_sub (x y : Q) : Z :=
  match (x ?= y)%Q with
  | Lt => (-1)%Z
  | Eq => 0%Z
  | Gt => 1%Z
  end.
End JSArray.

(** [Array.prototype.sort(cmp)] is the engine's.  Its result always holds
    the elements of the array.  For a comparator that is consistent for
    them, ECMAScript fixes the result: the stable sorted arrangement.  For
    any other comparator the order is left to the engine. *)
Class ArraySort := {
  sort : ∀ {A : Type}, (A → A → Z) → list A → list A;
  sort_permutation :
    ∀ (A : Type) (cmp : A → A → Z) (l : list A), sort cmp l ≡ₚ l;
  sort_consistent :
    ∀ (A : Type) (cmp : A → A → Z) (l : list A),
      JSArray.consistent cmp l → sort cmp l = JSArray.stableSort cmp l;
}.

(** ** The collaborators *)

(** [SearchOptions] and [NodeRow] of [src/mcp/handlers/types.ts]. *)
Inductive SearchMode := OR | AND | FUZZY.
Inductive SearchSource := SourceAll | SourceCore | SourceCommunity | SourceVerified.

#[export] Instance SearchMode_eq_dec : EqDecision SearchMode.
Proof. solve_decision. Defined.
#[export] Instance SearchSource_eq_dec : EqDecision SearchSource.
Proof. solve_decision. Defined.

Record SearchOptions := {
  opt_mode : option SearchMode;
  opt_includeExamples : bool;
  opt_source : option SearchSource;
}.

(** A row of the [nodes] table, with the columns the handlers read. *)
Record NodeRow := {
  node_type : string;
  package_name : string;
  display_name : string;
  description : option string;
  category : option string;
  is_community : Z;
  is_verified : Z;
  author_name : option string;
  npm_downloads : option Z;
}.

(** A row of the index query: the node row and the index-native [rank]. *)
Record FtsRow := {
  fts_node : NodeRow;
  fts_rank : Q;
}.

(** A row of [template_node_configs]. *)
Record ExampleRow := {
  parameters_json : string;
  template_name : string;
  template_views : Z;
}.

(** The SQL statements the search handlers run against [DatabaseAdapter],
    one operation per statement; each may throw. *)
Class DatabaseAdapter := {
  (** [SELECT name FROM sqlite_master WHERE type='table' AND name='nodes_fts'] *)
  ftsExists : bool;
  (** [... WHERE nodes_fts MATCH ? <sourceFilter> ORDER BY ... LIMIT ?],
      bound to the index query, the cleaned query and the limit. *)
  ftsMatch : string → string → SearchSource → nat → outcome (list FtsRow);
  (** [SELECT * FROM nodes WHERE (node_type LIKE ? OR display_name LIKE ?
      OR description LIKE ?) <sourceFilter> LIMIT ?], bound to [%phrase%]. *)
  likePhrase : string → SearchSource → nat → outcome (list NodeRow);
  (** [SELECT DISTINCT * FROM nodes WHERE (<one LIKE triple per word,
      joined by OR>) <sourceFilter> LIMIT ?] *)
  likeWords : list string → SearchSource → nat → outcome (list NodeRow);
  (** The ordered LIKE statement of [NodeSearchHandler.searchNodesLIKE],
      bound to the cleaned query and the limit. *)
  likeOrdered : string → nat → outcome (list NodeRow);
  (** [SELECT * FROM nodes] *)
  selectAllNodes : outcome (list NodeRow);
  (** [SELECT parameters_json, template_name, template_views FROM
      template_node_configs WHERE node_type = ? ORDER BY rank LIMIT 2] *)
  templateExamples : string → outcome (list ExampleRow);
}.

(** Library and runtime functions used by the handlers. *)
Class Runtime := {
  arraySort :: ArraySort;
  Json : Type;
  (** [JSON.parse] *)
  json_parse : string → outcome Json;
  (** [new RegExp(`\\b${q}\\b`, 'i').test(name)]; building the expression
      throws a [SyntaxError] when [q] is not a valid pattern. *)
  wordBoundaryTest : string → string → outcome bool;
  (** [a.localeCompare(b)] *)
  localeCompare : string → string → Z;
  (** [getWorkflowNodeType(packageName, nodeType)] of [utils/node-utils] *)
  getWorkflowNodeType : option string → string → string;
  (** [getNodeTypeAlternatives(nodeType)] of [utils/node-utils] *)
  getNodeTypeAlternatives : string → list string;
  (** [NodeTypeNormalizer.normalizeToFullForm(nodeType)] *)
  normalizeToFullForm : string → string;
}.

(** ** JSON values, node records and the validators' interfaces *)

#[local] Set Warnings "-register-all".

(** A JavaScript value as it arrives in tool arguments and configs. *)
Inductive JsValue :=
| JUndefined
| JNull
| JBool (b : bool)
| JNum (q : Q)
| JStr (s : string)
| JArr (items : list JsValue)
| JObj (members : gmap string JsValue).

(** [typeof v === 'object'] (true of [null], arrays and objects) *)
Definition typeofObject (v : JsValue) : bool :=
  match v with
  | JNull | JArr _ | JObj _ => true
  | _ => false
  end.

(** [v === null] *)
Definition isNull (v : JsValue) : bool :=
  match v with
  | JNull => true
  | _ => false
  end.

(** Truthiness: [undefined], [null], [false], [0] and [""] are falsy. *)
Definition truthy (v : JsValue) : bool :=
  match v with
  | JUndefined | JNull => false
  | JBool b => b
  | JNum q => negb (Qeq_bool q 0)
  | JStr s => negb (bool_decide (s = ""))
  | JArr _ | JObj _ => true
  end.

(** [a || b] *)
Definition jsOr (a b : JsValue) : JsValue := if truthy a then a else b.

(** [v.key] for a member name that is not an array index. *)
Definition member (v : JsValue) (key : string) : JsValue :=
  match v with
  | JObj m => default JUndefined (m !! key)
  | _ => JUndefined
  end.

(** The members every plain object inherits from [Object.prototype]; the
    objects that reach the handlers are plain objects. *)
Definition objectPrototypeMembers : list string :=
  [ "constructor"; "hasOwnProperty"; "isPrototypeOf"; "propertyIsEnumerable";
    "toLocaleString"; "toString"; "valueOf"; "__proto__";
    "__defineGetter__"; "__defineSetter__";
    "__lookupGetter__"; "__lookupSetter__" ].

(** [key in o]: [key] names an own member of [o] or an inherited one. *)
Definition hasProperty (o : gmap string JsValue) (key : string) : bool :=
  bool_decide (is_Some (o !! key)) || bool_decide (key ∈ objectPrototypeMembers).

(** [o[key] === undefined || o[key] === null].  An inherited member is a
    function, or the prototype object itself for [__proto__], and so is
    neither. *)
Definition nullishAt (o : gmap string JsValue) (key : string) : bool :=
  match o !! key with
  | Some JUndefined | Some JNull => true
  | Some _ => false
  | None => negb (bool_decide (key ∈ objectPrototypeMembers))
  end.

(** [DisplayOptions] and [NodeProperty] of [types/common-types]. *)
Record DisplayOptions := {
  show : option (gmap string JsValue);
  hide : option (gmap string JsValue);
}.

Record NodeProperty := {
  p_name : string;
  p_displayName : string;
  p_type : string;
  p_default : JsValue;
  p_required : bool;
  p_description : option string;
  p_options : JsValue;
  p_displayOptions : option DisplayOptions;
}.

(** A node as [NodeRepository.getNode] returns it. *)
Record RepoNode := {
  n_nodeType : string;
  n_displayName : string;
  n_description : option string;
  n_category : option string;
  n_package : option string;
  n_properties : option (list NodeProperty);
  n_version : JsValue;
  n_isAITool : option bool;
  n_isToolVariant : bool;
  n_hasToolVariant : bool;
  n_toolVariantOf : option string;
  n_outputNames : option (list string);
}.

(** [NodeRepository]: the lookup the handlers use. *)
Class NodeRepository := {
  getNode : string → option RepoNode;
}.

(** A finding and the result of [EnhancedConfigValidator.validateWithMode]. *)
Record ValidationFinding := {
  f_type : string;
  f_property : string;
  f_message : string;
  f_fix : option string;
}.

Record ValidationResult := {
  v_valid : bool;
  v_errors : list ValidationFinding;
  v_warnings : list ValidationFinding;
  v_suggestions : list string;
}.

Inductive ValidationMode := ModeFull | ModeOperation | ModeMinimal.
Inductive ValidationProfile := ProfileMinimal | ProfileRuntime | ProfileAiFriendly | ProfileStrict.

(** One issue and the result of [WorkflowValidator.validateWorkflow]. *)
Record WorkflowIssue := {
  i_nodeName : option string;
  i_message : string;
  i_details : JsValue;
  i_type : option string;
}.

Record WorkflowStatistics := {
  totalNodes : nat;
  enabledNodes : nat;
  triggerNodes : nat;
  validConnections : nat;
  invalidConnections : nat;
  expressionsValidated : nat;
}.

Record WorkflowValidationResult := {
  w_valid : bool;
  w_errors : list WorkflowIssue;
  w_warnings : list WorkflowIssue;
  w_suggestions : list string;
  w_statistics : WorkflowStatistics;
}.

(** A match returned by [PropertyFilter.searchProperties]. *)
Record PropertyMatch := {
  m_property : NodeProperty;
  m_path : option string;
  m_showWhen : JsValue;
}.

(** The services the handlers call: [ConfigValidator],
    [EnhancedConfigValidator], [WorkflowValidator], [PropertyFilter] and
    [getWorkflowExampleString]. *)
Class Services := {
  isPropertyVisible : NodeProperty → gmap string JsValue → bool;
  validateWithMode :
    string → gmap string JsValue → list NodeProperty →
    ValidationMode → ValidationProfile → ValidationResult;
  validateWorkflowService : JsValue → JsValue → outcome WorkflowValidationResult;
  searchProperties : list NodeProperty → string → nat → list PropertyMatch;
  getWorkflowExampleString : string;
}.
(** ** Levenshtein distance: [getEditDistance] *)

Module EditDistance.

(** The table [dp : number[][]], with its reads [dp[i][j]] and its writes
    [dp[i][j] = v]. *)
Abbreviation table := (list (list nat)).

Section Table.
Context {A : Type} `{EqDecision A}.

Definition get (dp : table) (i j : nat) : nat :=
  default 0 (dp !! i ≫= (.!! j)).

Definition set (dp : table) (i j v : nat) : table :=
  alter (<[j := v]>) i dp.

(** [Array(m + 1).fill(null).map(() => Array(n + 1).fill(0))] *)
Definition init_table (m n : nat) : table :=
  replicate (S m) (replicate (S n) 0).

(** [for (let i = 0; i <= m; i++) dp[i][0] = i;] *)
Definition fill_col0 (m : nat) (dp : table) : table :=
  foldl (λ dp i, set dp i 0 i) dp (seq 0 (S m)).

(** [for (let j = 0; j <= n; j++) dp[0][j] = j;] *)
Definition fill_row0 (n : nat) (dp : table) : table :=
  foldl (λ dp j, set dp 0 j j) dp (seq 0 (S n)).

Definition min3 (a b c : nat) : nat := (a `min` b) `min` c.

(** The body of the inner loop: the value stored in [dp[i][j]]. *)
Definition cell (s1 s2 : list A) (dp : table) (i j : nat) : nat :=
  if decide (s1 !! (i - 1) = s2 !! (j - 1))
  then get dp (i - 1) (j - 1)
  else 1 + min3 (get dp (i - 1) j) (get dp i (j - 1)) (get dp (i - 1) (j - 1)).

Definition fill_line (s1 s2 : list A) (n : nat) (dp : table) (i : nat) : table :=
  foldl (λ dp j, set dp i j (cell s1 s2 dp i j)) dp (seq 1 n).

Definition fill_inner (s1 s2 : list A) (m n : nat) (dp : table) : table :=
  foldl (fill_line s1 s2 n) dp (seq 1 m).

Definition distance (s1 s2 : list A) : nat :=
  let m := length s1 in
  let n := length s2 in
  let dp := init_table m n in
  let dp := fill_col0 m dp in
  let dp := fill_row0 n dp in
  let dp := fill_inner s1 s2 m n dp in
  get dp m n.

(** *** Reference definitions *)

(** The recurrence the table follows, on prefix lengths. *)
Fixpoint prefix_dist (s1 s2 : list A) (i j : nat) {struct i} : nat :=
  match i with
  | 0 => j
  | S i' =>
      (fix row (j : nat) : nat :=
         match j with
         | 0 => S i'
         | S j' =>
             if decide (s1 !! i' = s2 !! j')
             then prefix_dist s1 s2 i' j'
             else 1 + min3 (prefix_dist s1 s2 i' (S j')) (row j')
                           (prefix_dist s1 s2 i' j')
         end) j
  end.

(** The textbook Levenshtein recursion on the strings themselves. *)
Definition subst_cost (a b : A) : nat := if decide (a = b) then 0 else 1.

Fixpoint lev (s t : list A) {struct s} : nat :=
  match s with
  | [] => length t
  | a :: s' =>
      (fix lev_row (t : list A) : nat :=
         match t with
         | [] => S (length s')
         | b :: t' =>
             min3 (S (lev s' t)) (S (lev_row t')) (subst_cost a b + lev s' t')
         end) t
  end.

(** One single-character edit, anywhere in the string. *)
Inductive edit1 : list A → list A → Prop :=
| edit_insert (l r : list A) (a : A) : edit1 (l ++ r) (l ++ a :: r)
| edit_delete (l r : list A) (a : A) : edit1 (l ++ a :: r) (l ++ r)
| edit_subst (l r : list A) (a b : A) :
    a ≠ b → edit1 (l ++ a :: r) (l ++ b :: r).

(** [edits n s t]: [s] is transformed into [t] by [n] single-character
    edits. *)
Inductive edits : nat → list A → list A → Prop :=
| edits_refl (s : list A) : edits 0 s s
| edits_step (n : nat) (s u t : list A) :
    edit1 s u → edits n u t → edits (S n) s t.

End Table.

(** [getEditDistance(s1: string, s2: string): number] *)
Definition getEditDistance (s1 s2 : string) : nat :=
  distance (list_ascii_of_string s1) (list_ascii_of_string s2).

End EditDistance.


(** ** [src/mcp/handlers/search-handlers.ts] *)

Module SearchHandlers.
Import JS JSArray.

Section Handlers.
Context `{DatabaseAdapter} `{Runtime}.

(** An element of [nodeResult.examples]. *)
Record NodeExample := {
  configuration : Json;
  template : string;
  views : Z;
}.

(** An element of the [results] array; optional members are [None] when
    the object does not carry them. *)
Record NodeResult := {
  nodeType : string;
  workflowNodeType : string;
  displayName : string;
  r_description : option string;
  r_category : option string;
  package : string;
  relevance : option string;
  isCommunity : option bool;
  isVerified : option bool;
  authorName : option string;
  npmDownloads : option Z;
  examples : option (list NodeExample);
}.

(** The object returned by a search. *)
Record SearchResult := {
  query : string;
  results : list NodeResult;
  totalCount : nat;
  mode : option SearchMode;
}.

Definition emptyResult (q : string) (m : option SearchMode) : SearchResult :=
  {| query := q; results := []; totalCount := 0; mode := m |}.

(** [options?.source || 'all'] *)
Definition sourceValue (options : option SearchOptions) : SearchSource :=
  default SourceAll (options ≫= opt_source).

Definition includeExamples (options : option SearchOptions) : bool :=
  default false (opt_includeExamples <$> options).

Definition HTTP_REQUEST : string := "nodes-base.httpRequest".
Definition WEBHOOK : string := "nodes-base.webhook".

(** [type_lower.replace(/^nodes-base\./, '').replace(/^nodes-langchain\./, '')] *)
Definition typeWithoutPrefix (node : NodeRow) : string :=
  stripPrefix "nodes-langchain."
    (stripPrefix "nodes-base." (toLowerCase (node_type node))).

(** [node.description?.toLowerCase().includes(q)] taken as a condition *)
Definition descriptionIncludes (node : NodeRow) (q : string) : bool :=
  match description node with
  | Some d => includes (toLowerCase d) q
  | None => false
  end.

Definition eqs (a b : string) : bool := bool_decide (a = b).

(** [calculateRelevance]: the coarse label. *)
Definition calculateRelevance (node : NodeRow) (q : string) : string :=
  let lowerQuery := toLowerCase q in
  if includes (toLowerCase (node_type node)) lowerQuery then "high"
  else if includes (toLowerCase (display_name node)) lowerQuery then "high"
  else if descriptionIncludes node lowerQuery then "medium"
  else "low".

(** The rules shared by both scorers after the pinned boosts:
    starts-with, whole word, contains, type contains, description. *)
Definition genericScore (node : NodeRow) (query_lower : string) : outcome nat :=
  let name_lower := toLowerCase (display_name node) in
  if startsWith name_lower query_lower then Returns 800
  else
    whole ← wordBoundaryTest query_lower (display_name node);
    if whole : bool then Returns 700
    else if includes name_lower query_lower then Returns 600
    else if includes (typeWithoutPrefix node) query_lower then Returns 500
    else if descriptionIncludes node query_lower then Returns 400
    else Returns 0.

(** [calculateRelevanceScore], the scorer of the indexed strategy. *)
Definition calculateRelevanceScore (node : NodeRow) (q : string) : outcome nat :=
  let query_lower := toLowerCase q in
  let name_lower := toLowerCase (display_name node) in
  if eqs name_lower query_lower then Returns 1000
  else if eqs (typeWithoutPrefix node) query_lower then Returns 950
  else if eqs query_lower "webhook" && eqs (node_type node) WEBHOOK then Returns 900
  else if (eqs query_lower "http" || eqs query_lower "http request"
           || eqs query_lower "http call") && eqs (node_type node) HTTP_REQUEST
       then Returns 900
  else if includes query_lower "http" && includes query_lower "call"
          && eqs (node_type node) HTTP_REQUEST then Returns 890
  else if includes query_lower "http" && eqs (node_type node) HTTP_REQUEST
       then Returns 850
  else if includes query_lower "webhook" && eqs (node_type node) WEBHOOK
       then Returns 850
  else genericScore node query_lower.

(** The scorer written inline in [rankSearchResults]: first the
    [if]/[else if] chain ... *)
Definition rankBaseScore (node : NodeRow) (query_lower : string) : outcome nat :=
  let name_lower := toLowerCase (display_name node) in
  if eqs name_lower query_lower then Returns 1000
  else if eqs (typeWithoutPrefix node) query_lower then Returns 950
  else if eqs query_lower "webhook" && eqs (node_type node) WEBHOOK then Returns 900
  else if (eqs query_lower "http" || eqs query_lower "http request"
           || eqs query_lower "http call") && eqs (node_type node) HTTP_REQUEST
       then Returns 900
  else if includes query_lower "webhook" && eqs (node_type node) WEBHOOK
       then Returns 850
  else if includes query_lower "http" && eqs (node_type node) HTTP_REQUEST
       then Returns 850
  else genericScore node query_lower.

(** ... then the multi-word block. *)
Definition rankScore (node : NodeRow) (query_lower : string) : outcome nat :=
  score ← rankBaseScore node query_lower;
  let name_lower := toLowerCase (display_name node) in
  let ws := words query_lower in
  if bool_decide (1 < length ws) then
    let allWordsInName := forallb (λ w, includes name_lower w) ws in
    let allWordsInDesc := forallb (λ w, descriptionIncludes node w) ws in
    let score := if allWordsInName then score + 200
                 else if allWordsInDesc then score + 100
                 else score in
    if eqs query_lower "http call" && eqs name_lower "http request"
    then Returns 920
    else Returns score
  else Returns score.

(** The comparator of [rankSearchResults]. *)
Definition rankCompare (a b : NodeRow * nat) : Z :=
  if bool_decide (a.2 ≠ b.2) then Z.of_nat b.2 - Z.of_nat a.2
  else localeCompare (display_name a.1) (display_name b.1).

Definition rankSearchResults (nodes : list NodeRow) (q : string) (limit : nat)
    : outcome (list NodeRow) :=
  let query_lower := toLowerCase q in
  scoredNodes ← mapM (λ node, score ← rankScore node query_lower;
                              Returns (node, score)) nodes;
  Returns (fst <$> slice0 limit (sort rankCompare scoredNodes)).

(** *** The fuzzy strategy *)

(** [Math.min] over distances, [None] standing for [Infinity]. *)
Definition minDistance (best : option nat) (d : nat) : option nat :=
  match best with
  | None => Some d
  | Some m => if bool_decide (d < m) then Some d else Some m
  end.

(** The loop computing [minWordDistance]. *)
Definition minWordDistance (queryLower : string) (nameWords : list string)
    : option nat :=
  foldl (λ best word, minDistance best (EditDistance.getEditDistance queryLower word))
        None nameWords.

(** The loop looking for the first word at distance [d]; [matchedLen]
    keeps its initial value when there is none. *)
Fixpoint firstWordAt (queryLower : string) (d : nat) (nameWords : list string)
    (matchedLen : nat) : nat :=
  match nameWords with
  | [] => matchedLen
  | word :: rest =>
      if bool_decide (EditDistance.getEditDistance queryLower word = d)
      then String.length queryLower `max` String.length word
      else firstWordAt queryLower d rest matchedLen
  end.

Definition nat_min3 (a b : nat) (c : option nat) : nat :=
  match c with
  | Some c => (a `min` b) `min` c
  | None => a `min` b
  end.

Definition Qnat (n : nat) : Q := inject_Z (Z.of_nat n).

(** [calculateFuzzyScore]; the arithmetic on doubles is exact rational
    arithmetic here, and the query is non-empty at every call. *)
Definition calculateFuzzyScore (node : NodeRow) (q : string) : Q :=
  let queryLower := toLowerCase q in
  let displayNameLower := toLowerCase (display_name node) in
  let nodeTypeClean := typeWithoutPrefix node in
  if eqs displayNameLower queryLower || eqs nodeTypeClean queryLower
  then 1000%Q
  else
    let nameDistance := EditDistance.getEditDistance queryLower displayNameLower in
    let typeDistance := EditDistance.getEditDistance queryLower nodeTypeClean in
    let nameWords := split_ws displayNameLower in
    let minWord := minWordDistance queryLower nameWords in
    let bestDistance := nat_min3 nameDistance typeDistance minWord in
    let matchedLen :=
      if bool_decide (minWord = Some bestDistance)
      then firstWordAt queryLower bestDistance nameWords (String.length queryLower)
      else if bool_decide (typeDistance = bestDistance)
      then String.length queryLower `max` String.length nodeTypeClean
      else String.length queryLower `max` String.length displayNameLower in
    let similarity := (1 - Qnat bestDistance / Qnat matchedLen)%Q in
    if includes displayNameLower queryLower || includes nodeTypeClean queryLower
    then (800 + similarity * 100)%Q
    else if startsWith displayNameLower queryLower
            || startsWith nodeTypeClean queryLower
            || existsb (λ w, startsWith w queryLower) nameWords
    then (700 + similarity * 100)%Q
    else if bool_decide (bestDistance ≤ 2)
    then (500 + Qnat (2 - bestDistance) * 100 + similarity * 50)%Q
    else if bool_decide (bestDistance ≤ 3) && bool_decide (4 ≤ String.length queryLower)
    then (400 + Qnat (3 - bestDistance) * 50 + similarity * 50)%Q
    else (similarity * 300)%Q.

(** The similarity floor of [searchNodesFuzzy]. *)
Definition FUZZY_FLOOR : Q := 200%Q.

(** [(a, b) => b.score - a.score] *)
Definition fuzzyCompare (a b : NodeRow * Q) : Z := sign_sub b.2 a.2.

(** [nodeResult] as built by the fuzzy strategy: no relevance label and
    no community members. *)
Definition plainResult (node : NodeRow) : NodeResult :=
  {| nodeType := node_type node;
     workflowNodeType := getWorkflowNodeType (Some (package_name node)) (node_type node);
     displayName := display_name node;
     r_description := description node;
     r_category := category node;
     package := package_name node;
     relevance := None;
     isCommunity := None; isVerified := None;
     authorName := None; npmDownloads := None;
     examples := None |}.

Definition fuzzyMatches (candidateNodes : list NodeRow) (q : string) (limit : nat)
    : list NodeRow :=
  let scoredNodes := (λ node, (node, calculateFuzzyScore node q)) <$> candidateNodes in
  fst <$> slice0 limit
            (sort fuzzyCompare
               (filter (λ item, Qle_bool FUZZY_FLOOR item.2 = true) scoredNodes)).

Definition searchNodesFuzzy (q : string) (limit : nat) : outcome SearchResult :=
  let ws := words (toLowerCase q) in
  if bool_decide (length ws = 0) then Returns (emptyResult q (Some FUZZY))
  else
    candidateNodes ← selectAllNodes;
    let matchingNodes := fuzzyMatches candidateNodes q limit in
    Returns {| query := q;
               mode := Some FUZZY;
               results := plainResult <$> matchingNodes;
               totalCount := length matchingNodes |}.

(** *** Building the result objects *)

Definition truthyString (s : option string) : option string :=
  match s with
  | Some EmptyString | None => None
  | Some s => Some s
  end.

Definition truthyNumber (n : option Z) : option Z :=
  match n with
  | Some 0%Z | None => None
  | Some n => Some n
  end.

(** [nodeResult] as built by the indexed and substring strategies: the
    community members are present when [is_community === 1]. *)
Definition nodeResultOf (node : NodeRow) (label : option string) : NodeResult :=
  let community := bool_decide (is_community node = 1%Z) in
  {| nodeType := node_type node;
     workflowNodeType := getWorkflowNodeType (Some (package_name node)) (node_type node);
     displayName := display_name node;
     r_description := description node;
     r_category := category node;
     package := package_name node;
     relevance := label;
     isCommunity := if community then Some true else None;
     isVerified := if community
                   then Some (bool_decide (is_verified node = 1%Z)) else None;
     authorName := if community then truthyString (author_name node) else None;
     npmDownloads := if community then truthyNumber (npm_downloads node) else None;
     examples := None |}.

Definition setExamples (r : NodeResult) (exs : list NodeExample) : NodeResult :=
  {| nodeType := nodeType r; workflowNodeType := workflowNodeType r;
     displayName := displayName r; r_description := r_description r;
     r_category := r_category r; package := package r;
     relevance := relevance r; isCommunity := isCommunity r;
     isVerified := isVerified r; authorName := authorName r;
     npmDownloads := npmDownloads r; examples := Some exs |}.

(** The body of the loops that attach examples to one result. *)
Definition withExamples (r : NodeResult) : outcome NodeResult :=
  rows ← templateExamples (workflowNodeType r);
  if bool_decide (0 < length rows) then
    exs ← mapM (λ ex, cfg ← json_parse (parameters_json ex);
                      Returns {| configuration := cfg;
                                 template := template_name ex;
                                 views := template_views ex |}) rows;
    Returns (setExamples r exs)
  else Returns r.

(** In [searchNodesFTS] one [try] encloses the whole loop: the first
    exception ends it and the results reached so far keep their
    examples. *)
Fixpoint addExamplesUntilError (rs : list NodeResult) : list NodeResult :=
  match rs with
  | [] => []
  | r :: rest =>
      match withExamples r with
      | Returns r' => r' :: addExamplesUntilError rest
      | Throws _ => r :: rest
      end
  end.

(** In [searchNodesLIKE] each iteration has its own [try]. *)
Definition addExamplesEach (rs : list NodeResult) : list NodeResult :=
  (λ r, match withExamples r with Returns r' => r' | Throws _ => r end) <$> rs.

(** *** The substring strategy *)

(** The one-character string made of a double quote. *)
Definition DQUOTE : string := String (ascii_of_nat 34) EmptyString.

Definition quoted (s : string) : bool :=
  startsWith s DQUOTE && endsWith s DQUOTE.

Definition likeResult (q : string) (options : option SearchOptions)
    (rankedNodes : list NodeRow) : SearchResult :=
  let rs := (λ node, nodeResultOf node None) <$> rankedNodes in
  {| query := q;
     results := if includeExamples options then addExamplesEach rs else rs;
     totalCount := length rankedNodes;
     mode := None |}.

Definition searchNodesLIKE (q : string) (limit : nat)
    (options : option SearchOptions) : outcome SearchResult :=
  if quoted q then
    let exactPhrase := slice_1_m1 q in
    nodes ← likePhrase exactPhrase (sourceValue options) (limit * 3);
    rankedNodes ← rankSearchResults nodes exactPhrase limit;
    Returns (likeResult q options rankedNodes)
  else
    let ws := words (toLowerCase q) in
    if bool_decide (length ws = 0) then Returns (emptyResult q None)
    else
      nodes ← likeWords ws (sourceValue options) (limit * 3);
      rankedNodes ← rankSearchResults nodes q limit;
      Returns (likeResult q options rankedNodes).

(** *** The indexed strategy *)

(** The index query built from the trimmed query. *)
Definition buildFtsQuery (cleanedQuery : string) (m : SearchMode) : string :=
  if quoted cleanedQuery then cleanedQuery
  else
    let ws := words cleanedQuery in
    match m with
    | AND => join " AND " ws
    | _ => join " OR " ws
    end.

(** The comparator of [searchNodesFTS]. *)
Definition ftsCompare (cleanedQuery : string) (a b : FtsRow * nat) : Z :=
  if eqs (toLowerCase (display_name (fts_node a.1))) (toLowerCase cleanedQuery)
  then (-1)%Z
  else if eqs (toLowerCase (display_name (fts_node b.1))) (toLowerCase cleanedQuery)
  then 1%Z
  else if bool_decide (a.2 ≠ b.2) then Z.of_nat b.2 - Z.of_nat a.2
  else sign_sub (fts_rank a.1) (fts_rank b.1).

(** The [try] block of [searchNodesFTS].  [None] stands for the
    [return searchNodesLIKE(...)] of the guard on the HTTP Request node:
    the promise is returned without being awaited, so that call runs
    outside the [try]. *)
Definition ftsAttempt (q cleanedQuery : string) (limit : nat) (m : SearchMode)
    (options : option SearchOptions) : outcome (option SearchResult) :=
  let ftsQuery := buildFtsQuery cleanedQuery m in
  nodes ← ftsMatch ftsQuery cleanedQuery (sourceValue options) limit;
  scored ← mapM (λ node, relevanceScore ← calculateRelevanceScore (fts_node node) cleanedQuery;
                         Returns (node, relevanceScore)) nodes;
  let scoredNodes := sort (ftsCompare cleanedQuery) scored in
  let hasHttpRequest :=
    existsb (λ n, eqs (node_type (fts_node n.1)) HTTP_REQUEST) scoredNodes in
  if includes (toLowerCase cleanedQuery) "http" && negb hasHttpRequest
  then Returns None
  else
    let rs := (λ n, nodeResultOf (fts_node n.1)
                      (Some (calculateRelevance (fts_node n.1) cleanedQuery)))
              <$> scoredNodes in
    Returns (Some
      {| query := q;
         results := if includeExamples options then addExamplesUntilError rs else rs;
         totalCount := length scoredNodes;
         mode := if bool_decide (m ≠ OR) then Some m else None |}).

Definition setMode (r : SearchResult) (m : SearchMode) : SearchResult :=
  {| query := query r; results := results r; totalCount := totalCount r;
     mode := Some m |}.

Definition searchNodesFTS (q : string) (limit : nat) (m : SearchMode)
    (options : option SearchOptions) : outcome SearchResult :=
  let cleanedQuery := trim q in
  if eqs cleanedQuery "" then Returns (emptyResult q None)
  else if bool_decide (m = FUZZY) then searchNodesFuzzy cleanedQuery limit
  else
    match ftsAttempt q cleanedQuery limit m options with
    | Returns (Some result) => Returns result
    | Returns None => searchNodesLIKE q limit options
    | Throws message =>
        if includes message "syntax error" || includes message "fts5"
        then likeResult ← searchNodesLIKE q limit options;
             Returns (setMode likeResult m)
        else searchNodesLIKE q limit options
    end.

(** *** [searchNodes], the entry point *)

Definition normalizeQuery (q : string) : string :=
  if includes q "n8n-nodes-base." || includes q "@n8n/n8n-nodes-langchain."
  then replaceAll "@n8n/n8n-nodes-langchain." "nodes-langchain."
         (replaceAll "n8n-nodes-base." "nodes-base." q)
  else q.

Definition searchNodes (q : string) (limit : nat)
    (options : option SearchOptions) : outcome SearchResult :=
  let normalizedQuery := normalizeQuery q in
  let searchMode := default OR (options ≫= opt_mode) in
  if ftsExists
  then searchNodesFTS normalizedQuery limit searchMode options
  else searchNodesLIKE normalizedQuery limit options.
End Handlers.
End SearchHandlers.

(** ** The relevance rules, as a table

    The scorers in the words of the specification: an ordered list of
    rules, the first rule that applies giving the base score. *)

Module RelevanceRules.
Import JS SearchHandlers.

Section Rules.
Context `{Runtime}.



Definition nameLower (node : NodeRow) : string := toLowerCase (display_name node).












End Rules.
End RelevanceRules.

(** ** The node handlers ([mcp/handlers/node-handlers]) *)

Module NodeHandlers.
Import JS.

Section Handlers.
Context `{NodeRepository} `{Services} `{Runtime}.

(** The lookup every handler starts with: the normalized type, then the
    original one when normalization changed it, then the alternatives
    in order. *)
Fixpoint firstFound (alternatives : list string) : option RepoNode :=
  match alternatives with
  | [] => None
  | alt :: rest =>
      match getNode alt with
      | Some found => Some found
      | None => firstFound rest
      end
  end.

Definition resolveNode (nodeType : string) : option RepoNode :=
  let normalizedType := normalizeToFullForm nodeType in
  let node := getNode normalizedType in
  let node :=
    match node with
    | None => if bool_decide (normalizedType ≠ nodeType) then getNode nodeType else None
    | Some _ => node
    end in
  match node with
  | None => firstFound (getNodeTypeAlternatives normalizedType)
  | Some _ => node
  end.

(** [throw new Error(`Node ${nodeType} not found`)] *)
Definition notFound (nodeType : string) : string :=
  "Node " +:+ nodeType +:+ " not found".

Definition lookup (nodeType : string) : outcome RepoNode :=
  match resolveNode nodeType with
  | Some node => Returns node
  | None => Throws (notFound nodeType)
  end.

(** *** [validateNodeMinimal] *)

Record MinimalResult := {
  min_nodeType : string;
  min_displayName : string;
  min_valid : bool;
  missingRequiredFields : list string;
}.

(** [{ '@version': node.version || 1, ...(config || {}) }]: the members
    of [config] are written after ['@version'] and win over it. *)
Definition configWithVersion (node : RepoNode) (config : gmap string JsValue)
    : gmap string JsValue :=
  config ∪ {[ "@version" := jsOr (n_version node) (JNum 1) ]}.

(** One iteration of the loop over the properties. *)
Definition checkRequired (working config : gmap string JsValue)
    (missingFields : list string) (prop : NodeProperty) : list string :=
  if negb (p_required prop) then missingFields
  else if bool_decide (is_Some (p_displayOptions prop))
          && negb (isPropertyVisible prop working)
  then missingFields
  else if negb (hasProperty config (p_name prop))
  then missingFields ++ [or_else (p_displayName prop) (p_name prop)]
  else missingFields.

Definition missingFieldsOf (node : RepoNode) (config : gmap string JsValue)
    : list string :=
  let properties := default [] (n_properties node) in
  foldl (checkRequired (configWithVersion node config) config) [] properties.

Definition validateNodeMinimal (nodeType : string) (config : gmap string JsValue)
    : outcome MinimalResult :=
  node ← lookup nodeType;
  let missingFields := missingFieldsOf node config in
  Returns {| min_nodeType := n_nodeType node;
             min_displayName := n_displayName node;
             min_valid := bool_decide (length missingFields = 0);
             missingRequiredFields := missingFields |}.

(** *** [validateNodeConfig] *)

Record Summary := {
  hasErrors : bool;
  errorCount : nat;
  warningCount : nat;
  suggestionCount : nat;
}.

Record ConfigResult := {
  cfg_nodeType : string;
  cfg_workflowNodeType : string;
  cfg_displayName : string;
  cfg_validation : ValidationResult;
  cfg_summary : Summary;
}.

Definition validateNodeConfig (nodeType : string) (config : gmap string JsValue)
    (mode : ValidationMode) (profile : ValidationProfile) : outcome ConfigResult :=
  node ← lookup nodeType;
  let properties := default [] (n_properties node) in
  let validationResult :=
    validateWithMode (n_nodeType node) (configWithVersion node config)
                     properties mode profile in
  Returns {| cfg_nodeType := n_nodeType node;
             cfg_workflowNodeType :=
               getWorkflowNodeType (n_package node) (n_nodeType node);
             cfg_displayName := n_displayName node;
             cfg_validation := validationResult;
             cfg_summary :=
               {| hasErrors := negb (v_valid validationResult);
                  errorCount := length (v_errors validationResult);
                  warningCount := length (v_warnings validationResult);
                  suggestionCount := length (v_suggestions validationResult) |} |}.

(** *** [searchNodeProperties] *)

Record PropertyHit := {
  hit_name : string;
  hit_displayName : string;
  hit_type : string;
  hit_description : option string;
  hit_path : string;
  hit_required : bool;
  hit_default : JsValue;
  hit_options : JsValue;
  hit_showWhen : JsValue;
}.

Record PropertySearchResult := {
  ps_nodeType : string;
  ps_query : string;
  ps_matches : list PropertyHit;
  ps_totalMatches : nat;
  ps_searchedIn : string;
}.

Definition hitOf (m : PropertyMatch) : PropertyHit :=
  let p := m_property m in
  {| hit_name := p_name p;
     hit_displayName := p_displayName p;
     hit_type := p_type p;
     hit_description := p_description p;
     hit_path := or_else (default "" (m_path m)) (p_name p);
     hit_required := p_required p;
     hit_default := p_default p;
     hit_options := p_options p;
     hit_showWhen := m_showWhen m |}.

Definition searchNodeProperties (nodeType query : string) (maxResults : nat)
    : outcome PropertySearchResult :=
  node ← lookup nodeType;
  let allProperties := default [] (n_properties node) in
  let matches := searchProperties allProperties query maxResults in
  Returns {| ps_nodeType := n_nodeType node;
             ps_query := query;
             ps_matches := hitOf <$> matches;
             ps_totalMatches := length matches;
             ps_searchedIn := pretty (length allProperties) +:+ " properties" |}.

(** *** [getNodeInfo] and the helpers of [utility-handlers] it calls *)

Definition DQUOTE : string := String (ascii_of_nat 34) EmptyString.

Definition showNat (n : nat) : string := pretty n.

Record OutputDescription := {
  od_description : string;
  connectionGuidance : string;
}.

(** [getOutputDescriptions(nodeType, outputName, index)] *)
Definition getOutputDescriptions (nodeType outputName : string) (index : nat)
    : OutputDescription :=
  let eqs a b := bool_decide (a = b :> string) in
  let fallthrough :=
    if eqs nodeType "nodes-base.switch" then
      {| od_description :=
           "Output " +:+ showNat index +:+ ": "
           +:+ or_else outputName ("Route " +:+ showNat index);
         connectionGuidance :=
           "Connect to nodes for the " +:+ DQUOTE
           +:+ or_else outputName ("route " +:+ showNat index)
           +:+ DQUOTE +:+ " case" |}
    else
      {| od_description := or_else outputName ("Output " +:+ showNat index);
         connectionGuidance := "Connect to downstream nodes" |} in
  if eqs nodeType "nodes-base.splitInBatches" then
    if eqs outputName "done" && bool_decide (index = 0) then
      {| od_description := "Final processed data after all iterations complete";
         connectionGuidance :=
           "Connect to nodes that should run AFTER the loop completes" |}
    else if eqs outputName "loop" && bool_decide (index = 1) then
      {| od_description := "Current batch data for this iteration";
         connectionGuidance :=
           "Connect to nodes that process items INSIDE the loop (and connect their output back to this node)" |}
    else fallthrough
  else if eqs nodeType "nodes-base.if" then
    if eqs outputName "true" && bool_decide (index = 0) then
      {| od_description := "Items that match the condition";
         connectionGuidance := "Connect to nodes that handle the TRUE case" |}
    else if eqs outputName "false" && bool_decide (index = 1) then
      {| od_description := "Items that do not match the condition";
         connectionGuidance := "Connect to nodes that handle the FALSE case" |}
    else fallthrough
  else fallthrough.

Definition useCaseMap : list (string * list string) :=
  [ ("nodes-base.slack",
     ["Send notifications about task completion"; "Post updates to channels";
      "Send direct messages"; "Create alerts and reminders"]);
    ("nodes-base.googleSheets",
     ["Read data for analysis"; "Log results and outputs";
      "Update spreadsheet records"; "Create reports"]);
    ("nodes-base.gmail",
     ["Send email notifications"; "Read and process emails";
      "Send reports and summaries"; "Handle email-based workflows"]);
    ("nodes-base.httpRequest",
     ["Call external APIs"; "Fetch data from web services";
      "Send webhooks"; "Integrate with any REST API"]);
    ("nodes-base.postgres",
     ["Query database for information"; "Store analysis results";
      "Update records based on AI decisions"; "Generate reports from data"]);
    ("nodes-base.webhook",
     ["Receive external triggers"; "Create callback endpoints";
      "Handle incoming data"; "Integrate with external systems"]) ].

(** [getCommonAIToolUseCases(nodeType)] *)
Definition getCommonAIToolUseCases (nodeType : string) : list string :=
  match List.find (λ entry, includes nodeType entry.1) useCaseMap with
  | Some entry => entry.2
  | None => ["Perform automated actions"; "Integrate with external services";
             "Process and transform data"; "Extend AI agent capabilities"]
  end.

Record ToolVariantGuidance := {
  tv_isToolVariant : bool;
  tv_toolVariantOf : option string;
  tv_hasToolVariant : bool;
  tv_toolVariantNodeType : option string;
  tv_guidance : string;
}.

(** [buildToolVariantGuidance(node)] *)
Definition buildToolVariantGuidance (node : RepoNode) : option ToolVariantGuidance :=
  let isToolVariant := n_isToolVariant node in
  let hasToolVariant := n_hasToolVariant node in
  if negb isToolVariant && negb hasToolVariant then None
  else if isToolVariant then
    Some {| tv_isToolVariant := true;
            tv_toolVariantOf := n_toolVariantOf node;
            tv_hasToolVariant := false;
            tv_toolVariantNodeType := None;
            tv_guidance :=
              "This is the Tool variant for AI Agent integration. Use this node type when connecting to AI Agents. The base node is: "
              +:+ default "undefined" (n_toolVariantOf node) |}
  else if hasToolVariant && negb (bool_decide (n_nodeType node = "")) then
    let toolVariantNodeType := n_nodeType node +:+ "Tool" in
    Some {| tv_isToolVariant := false;
            tv_toolVariantOf := None;
            tv_hasToolVariant := true;
            tv_toolVariantNodeType := Some toolVariantNodeType;
            tv_guidance :=
              "To use this node with AI Agents, use the Tool variant: "
              +:+ toolVariantNodeType
              +:+ ". The Tool variant has an additional 'toolDescription' property and outputs 'ai_tool' instead of 'main'." |}
  else None.

Record AiToolCapabilities := {
  canBeUsedAsTool : bool;
  hasUsableAsToolProperty : bool;
  requiresEnvironmentVariable : bool;
  toolConnectionType : string;
  commonToolUseCases : list string;
  environmentRequirement : option string;
}.

Record NodeOutput := {
  out_index : nat;
  out_name : string;
  out_description : string;
  out_connectionGuidance : string;
}.

(** The object [{ ...node, workflowNodeType, aiToolCapabilities, outputs,
    toolVariantInfo }]. *)
Record NodeInfo := {
  info_node : RepoNode;
  info_workflowNodeType : string;
  aiToolCapabilities : AiToolCapabilities;
  outputs : option (list NodeOutput);
  toolVariantInfo : option ToolVariantGuidance;
}.

Definition getNodeInfo (nodeType : string) : outcome NodeInfo :=
  node ← lookup nodeType;
  let isAITool := default false (n_isAITool node) in
  let notBase := negb (bool_decide (n_package node = Some "n8n-nodes-base")) in
  let capabilities :=
    {| canBeUsedAsTool := true;
       hasUsableAsToolProperty := isAITool;
       requiresEnvironmentVariable := negb isAITool && notBase;
       toolConnectionType := "ai_tool";
       commonToolUseCases := getCommonAIToolUseCases (n_nodeType node);
       environmentRequirement :=
         match n_package node with
         | Some pkg =>
             if negb (bool_decide (pkg = "")) && notBase
             then Some "N8N_COMMUNITY_PACKAGES_ALLOW_TOOL_USAGE=true" else None
         | None => None
         end |} in
  let outs :=
    match n_outputNames node with
    | Some (name :: names) =>
        Some (imap (λ index name,
                let d := getOutputDescriptions (n_nodeType node) name index in
                {| out_index := index; out_name := name;
                   out_description := od_description d;
                   out_connectionGuidance := connectionGuidance d |})
                (name :: names))
    | _ => None
    end in
  Returns {| info_node := node;
             info_workflowNodeType :=
               getWorkflowNodeType (Some (default "n8n-nodes-base" (n_package node)))
                                   (n_nodeType node);
             aiToolCapabilities := capabilities;
             outputs := outs;
             toolVariantInfo := buildToolVariantGuidance node |}.
End Handlers.
End NodeHandlers.

(** ** [src/handlers/node-search-handler.ts]: class [NodeSearchHandler] *)

Module NodeSearchHandler.
Import JS JSArray.

(** The [options] argument of [searchNodes]; [mode] and [source] are plain
    strings here. *)
Record Options := {
  o_mode : option string;
  o_includeExamples : bool;
  o_source : option string;
}.

Record NodeResult := {
  nodeType : string;
  workflowNodeType : string;
  displayName : string;
  r_description : option string;
  r_category : option string;
  package : string;
  relevance : Q;
  isCommunity : option bool;
  isVerified : option bool;
  authorName : option string;
  npmDownloads : option Z;
}.

Record SearchResult := {
  query : string;
  results : list NodeResult;
  totalCount : nat;
  mode : option string;
  fallback : bool;
}.

Section Handler.
Context `{DatabaseAdapter} `{Runtime} `{NodeRepository} `{Services}.

Definition eqs (a b : string) : bool := bool_decide (a = b).

(** [calculateRelevance].  It reads [node.displayName], a member the
    rows of the [nodes] table do not have ([display_name] is the column),
    so [nameLower] is the empty string. *)
Definition calculateRelevance (node : NodeRow) (q : string) : Q :=
  if eqs q "" then 1%Q
  else
    let queryLower := toLowerCase q in
    let nameLower := toLowerCase "" in
    let typeLower := toLowerCase (node_type node) in
    let descLower := toLowerCase (default "" (description node)) in
    let score := 0%Q in
    let score := if eqs nameLower queryLower then (score + 10)%Q else score in
    let score := if startsWith nameLower queryLower then (score + 5)%Q else score in
    let score := if includes nameLower queryLower then (score + 3)%Q else score in
    let score := if includes typeLower queryLower then (score + 2)%Q else score in
    let score := if includes descLower queryLower then (score + 1)%Q else score in
    Qmin (score / 10) 1.

Definition calculateRelevanceScore (node : NodeRow) (q : string) : Q :=
  calculateRelevance node q.

(** The index query of [NodeSearchHandler.searchNodesFTS]. *)
Definition buildFtsQuery (ftsQuery : string) (m : string) : string :=
  let terms := (λ term, term +:+ "*") <$> split_ws ftsQuery in
  if eqs m "AND" then join " AND " terms else join " OR " terms.

Definition sourceOf (options : option Options) : SearchSource :=
  match options ≫= o_source with
  | Some s => if eqs s "core" then SourceCore
              else if eqs s "community" then SourceCommunity
              else if eqs s "verified" then SourceVerified
              else SourceAll
  | None => SourceAll
  end.

Definition exactFirst (q : string) (a b : NodeRow) (otherwise : Z) : Z :=
  if eqs (toLowerCase (display_name a)) (toLowerCase q) then (-1)%Z
  else if eqs (toLowerCase (display_name b)) (toLowerCase q) then 1%Z
  else otherwise.

Definition ftsCompare (ftsQuery : string) (a b : FtsRow * Q) : Z :=
  exactFirst ftsQuery (fts_node a.1) (fts_node b.1)
    (if negb (Qeq_bool a.2 b.2) then sign_sub b.2 a.2
     else sign_sub (fts_rank a.1) (fts_rank b.1)).

Definition likeCompare (cleanedQuery : string) (a b : NodeRow * Q) : Z :=
  exactFirst cleanedQuery a.1 b.1 (sign_sub b.2 a.2).

Definition truthyString (s : option string) : option string :=
  match s with
  | Some EmptyString | None => None
  | Some s => Some s
  end.

Definition truthyNumber (n : option Z) : option Z :=
  match n with
  | Some 0%Z | None => None
  | Some n => Some n
  end.

Definition plainResult (node : NodeRow) (q : string) : NodeResult :=
  {| nodeType := node_type node;
     workflowNodeType := getWorkflowNodeType (Some (package_name node)) (node_type node);
     displayName := display_name node;
     r_description := description node;
     r_category := category node;
     package := package_name node;
     relevance := calculateRelevance node q;
     isCommunity := None; isVerified := None;
     authorName := None; npmDownloads := None |}.

Definition communityResult (node : NodeRow) (q : string) : NodeResult :=
  let community := bool_decide (is_community node = 1%Z) in
  {| nodeType := node_type node;
     workflowNodeType := getWorkflowNodeType (Some (package_name node)) (node_type node);
     displayName := display_name node;
     r_description := description node;
     r_category := category node;
     package := package_name node;
     relevance := calculateRelevance node q;
     isCommunity := if community then Some true else None;
     isVerified := if community
                   then Some (bool_decide (is_verified node = 1%Z)) else None;
     authorName := if community then truthyString (author_name node) else None;
     npmDownloads := if community then truthyNumber (npm_downloads node) else None |}.

(** [searchNodesLIKE(query, limit)] *)
Definition searchNodesLIKE (q : string) (limit : nat) : outcome SearchResult :=
  let cleanedQuery := removeAngles (trim q) in
  nodes ← likeOrdered cleanedQuery limit;
  let scored := (λ node, (node, calculateRelevanceScore node cleanedQuery)) <$> nodes in
  let scoredNodes := sort (likeCompare cleanedQuery) scored in
  Returns {| query := q;
             results := (λ n, plainResult n.1 cleanedQuery) <$> scoredNodes;
             totalCount := length scoredNodes;
             mode := None;
             fallback := true |}.

(** [searchNodesFTS(ftsQuery, limit, mode, options)]: the parameter
    [ftsQuery] is the cleaned user query and the local variable [query]
    is the index query built from it. *)
Definition searchNodesFTS (ftsQuery : string) (limit : nat) (m : string)
    (options : option Options) : outcome SearchResult :=
  let q := buildFtsQuery ftsQuery m in
  nodes ← ftsMatch q ftsQuery (sourceOf options) limit;
  let scored := (λ node, (node, calculateRelevanceScore (fts_node node) ftsQuery))
                <$> nodes in
  let scoredNodes := sort (ftsCompare ftsQuery) scored in
  let hasHttpRequest :=
    existsb (λ n, eqs (node_type (fts_node n.1)) "nodes-base.httpRequest")
            scoredNodes in
  if includes (toLowerCase ftsQuery) "http" && negb hasHttpRequest
  then searchNodesLIKE q limit
  else
    Returns {| query := q;
               results := (λ n, communityResult (fts_node n.1) ftsQuery) <$> scoredNodes;
               totalCount := length scoredNodes;
               mode := if eqs m "OR" then None else Some m;
               fallback := false |}.

(** [searchNodes(query, limit, options)]; an absent or empty query
    string is [None] or [""]. *)
Definition searchNodes (q : option string) (limit : nat)
    (options : option Options) : outcome SearchResult :=
  match q with
  | None => Throws "Search query is required"
  | Some q =>
      if eqs (trim q) "" then Throws "Search query is required"
      else
        let m := or_else (default "" (options ≫= o_mode)) "OR" in
        let cleanedQuery := removeAngles (trim q) in
        try_catch (searchNodesFTS cleanedQuery limit m options)
                  (λ _, searchNodesLIKE q limit)
  end.

(** [searchNodeProperties(nodeType, query, maxResults)]: the same lookup
    and the same answer as the handler function of that name. *)
Definition searchNodeProperties (nodeType q : string) (maxResults : nat)
    : outcome NodeHandlers.PropertySearchResult :=
  node ← NodeHandlers.lookup nodeType;
  let allProperties := default [] (n_properties node) in
  let matches := searchProperties allProperties q maxResults in
  Returns {| NodeHandlers.ps_nodeType := n_nodeType node;
             NodeHandlers.ps_query := q;
             NodeHandlers.ps_matches := NodeHandlers.hitOf <$> matches;
             NodeHandlers.ps_totalMatches := length matches;
             NodeHandlers.ps_searchedIn := pretty (length allProperties) +:+ " properties" |}.
End Handler.
End NodeSearchHandler.

(** ** The [validate_node] case of [ToolExecutionHandler.executeTool] *)

Module ToolExecution.
Import JS.

(** What [executeTool] does for [validate_node]: it answers by itself, or
    it hands the arguments to one of the validation handlers. *)
Record InvalidConfigMinimal := {
  icm_nodeType : JsValue;
  icm_displayName : string;
  icm_valid : bool;
  icm_missingRequiredFields : list string;
}.

Record InvalidConfigSummary := {
  ics_hasErrors : bool;
  ics_errorCount : nat;
  ics_warningCount : nat;
  ics_suggestionCount : nat;
}.

Record InvalidConfigFull := {
  icf_nodeType : JsValue;
  icf_workflowNodeType : JsValue;
  icf_displayName : string;
  icf_valid : bool;
  icf_errors : list ValidationFinding;
  icf_warnings : list ValidationFinding;
  icf_suggestions : list string;
  icf_summary : InvalidConfigSummary;
}.

Inductive Dispatch :=
| AnswerMinimal (r : InvalidConfigMinimal)
| AnswerFull (r : InvalidConfigFull)
| CallValidateNodeMinimal (nodeType config : JsValue)
| CallValidateNodeConfig (nodeType config : JsValue) (mode : string) (profile : JsValue).

(** Whether a dispatch reaches the configuration validator. *)
Definition invokesValidator (d : Dispatch) : bool :=
  match d with
  | CallValidateNodeMinimal _ _ | CallValidateNodeConfig _ _ _ _ => true
  | _ => false
  end.

Definition DQUOTE : string := String (ascii_of_nat 34) EmptyString.
Definition quote (s : string) : string := DQUOTE +:+ s +:+ DQUOTE.

(** The texts of the two answers.  Their leading pictographs lie outside
    the character range of this model and are left out. *)
Definition OBJECT_FORMAT : string :=
  "{ " +:+ quote "resource" +:+ ": " +:+ quote "..." +:+ ", "
  +:+ quote "operation" +:+ ": " +:+ quote "..." +:+ " }".

Definition minimalMessages : list string :=
  [ "Invalid config format - expected object";
    "RECOVERY: Use format " +:+ OBJECT_FORMAT +:+ " or {} for empty config" ].

Definition fullSuggestions : list string :=
  [ "RECOVERY: Invalid config detected. Fix with:";
    "   - Ensure config is an object: " +:+ OBJECT_FORMAT;
    "   - Use get_node to see required fields for this node type";
    "   - Check if the node type is correct before configuring it" ].

Definition configFormatError : ValidationFinding :=
  {| f_type := "config";
     f_property := "config";
     f_message := "Invalid config format - expected object";
     f_fix := Some "Provide config as an object with node properties" |}.

Section Execute.
(** [validateToolParamsCallback], when the handler was given one: it
    returns or throws. *)
Variable validateToolParamsCallback :
  option (string → gmap string JsValue → list string → outcome unit).

(** [validateToolParams(name, args, required)] *)
Fixpoint checkRequiredParams (name : string) (args : gmap string JsValue)
    (required : list string) : outcome unit :=
  match required with
  | [] => Returns ()
  | param :: rest =>
      if negb (hasProperty args param) || nullishAt args param
      then Throws ("Missing required parameter '" +:+ param
                   +:+ "' for tool '" +:+ name +:+ "'")
      else checkRequiredParams name args rest
  end.

Definition validateToolParams (name : string) (args : gmap string JsValue)
    (required : list string) : outcome unit :=
  match validateToolParamsCallback with
  | Some callback => callback name args required
  | None => Returns ()
  end ≫= λ _, checkRequiredParams name args required.

(** [args.mode || 'full'] compared with ['minimal'] *)
Definition isMinimalMode (args : gmap string JsValue) : bool :=
  match jsOr (default JUndefined (args !! "mode")) (JStr "full") with
  | JStr m => bool_decide (m = "minimal")
  | _ => false
  end.

(** [executeTool('validate_node', args)] for an [args] object. *)
Definition executeValidateNode (args : gmap string JsValue) : outcome Dispatch :=
  _ ← validateToolParams "validate_node" args ["nodeType"; "config"];
  let nodeType := default JUndefined (args !! "nodeType") in
  let config := default JUndefined (args !! "config") in
  if negb (typeofObject config) || isNull config then
    if isMinimalMode args then
      Returns (AnswerMinimal
        {| icm_nodeType := jsOr nodeType (JStr "unknown");
           icm_displayName := "Unknown Node";
           icm_valid := false;
           icm_missingRequiredFields := minimalMessages |})
    else
      Returns (AnswerFull
        {| icf_nodeType := jsOr nodeType (JStr "unknown");
           icf_workflowNodeType := jsOr nodeType (JStr "unknown");
           icf_displayName := "Unknown Node";
           icf_valid := false;
           icf_errors := [configFormatError];
           icf_warnings := [];
           icf_suggestions := fullSuggestions;
           icf_summary := {| ics_hasErrors := true; ics_errorCount := 1;
                             ics_warningCount := 0; ics_suggestionCount := 3 |} |})
  else if isMinimalMode args then
    Returns (CallValidateNodeMinimal nodeType config)
  else
    Returns (CallValidateNodeConfig nodeType config "operation"
               (default JUndefined (args !! "profile"))).
End Execute.
End ToolExecution.

(** ** [validateWorkflow] ([mcp/handlers/workflow-handlers]) *)

Module WorkflowHandlers.

Record ResponseIssue := {
  ri_node : string;
  ri_message : string;
  ri_details : JsValue;
}.

Record ResponseSummary := {
  rs_statistics : option WorkflowStatistics;
  rs_errorCount : option nat;
  rs_warningCount : option nat;
}.

(** The object [validateWorkflow] resolves to; members a given return
    statement does not write are [None]. *)
Record Response := {
  valid : bool;
  errors : option (list ResponseIssue);
  warnings : option (list ResponseIssue);
  suggestions : option (list string);
  summary : option ResponseSummary;
  error : option string;
  tip : option string;
}.

Section Handler.
Context `{Services}.

Definition shapeError (message details : string) : Response :=
  {| valid := false;
     errors := Some [ {| ri_node := "workflow"; ri_message := message;
                         ri_details := JStr details |} ];
     warnings := None; suggestions := None;
     summary := Some {| rs_statistics := None; rs_errorCount := Some 1;
                        rs_warningCount := None |};
     error := None; tip := None |}.

Definition issueOf (e : WorkflowIssue) : ResponseIssue :=
  {| ri_node := JS.or_else (default "" (i_nodeName e)) "workflow";
     ri_message := i_message e;
     ri_details := i_details e |}.

Definition validateWorkflow (workflow options : JsValue) : Response :=
  if negb (truthy workflow) || negb (typeofObject workflow) then
    shapeError "Workflow must be an object with nodes and connections"
               ("Expected format: " +:+ getWorkflowExampleString)
  else if negb (truthy (member workflow "nodes"))
          || negb (match member workflow "nodes" with JArr _ => true | _ => false end)
  then
    shapeError "Workflow must have a nodes array"
               ("Expected: workflow.nodes = [array of node objects]. "
                +:+ getWorkflowExampleString)
  else if negb (truthy (member workflow "connections"))
          || negb (typeofObject (member workflow "connections"))
  then
    shapeError "Workflow must have a connections object"
               ("Expected: workflow.connections = {} (can be empty object). "
                +:+ getWorkflowExampleString)
  else
    match validateWorkflowService workflow options with
    | Returns result =>
        {| valid := w_valid result;
           summary := Some {| rs_statistics := Some (w_statistics result);
                              rs_errorCount := Some (length (w_errors result));
                              rs_warningCount := Some (length (w_warnings result)) |};
           errors := Some (issueOf <$> w_errors result);
           warnings := Some (issueOf <$> w_warnings result);
           suggestions := if bool_decide (0 < length (w_suggestions result))
                          then Some (w_suggestions result) else None;
           error := None; tip := None |}
    | Throws message =>
        {| valid := false;
           error := Some message;
           tip := Some "Ensure the workflow JSON includes nodes array and connections object";
           errors := None; warnings := None; suggestions := None;
           summary := None |}
    end.
End Handler.
End WorkflowHandlers.


(** ** The visibility evaluator *)

Module ConfigValidatorModel.

(** [a === b] on JSON values: objects and arrays are never identical to a
    literal of the schema. *)
Definition strictEquals (a b : JsValue) : bool :=
  match a, b with
  | JUndefined, JUndefined | JNull, JNull => true
  | JBool x, JBool y => bool_decide (x = y)
  | JNum x, JNum y => Qeq_bool x y
  | JStr x, JStr y => bool_decide (x = y)
  | _, _ => false
  end.

(** A condition on key [k] with value-or-list [v]: [config[k]] equals [v]
    or is a member of the list [v]; a missing [config[k]] satisfies no
    condition. *)
Definition conditionHolds (config : gmap string JsValue) (k : string) (v : JsValue)
    : bool :=
  match config !! k with
  | None => false
  | Some actual =>
      match v with
      | JArr accepted => existsb (strictEquals actual) accepted
      | _ => strictEquals actual v
      end
  end.

(** Modelled from the spec: [ConfigValidator.isPropertyVisible], whose
    file ([services/config-validator]) is not among the sources.  Section
    4.1: without [displayOptions] a property is visible; any satisfied
    [hide] condition hides it; otherwise it is visible iff every [show]
    condition is satisfied.  Comparator objects are not covered. *)
Definition isVisible (prop : NodeProperty) (config : gmap string JsValue) : bool :=
  match p_displayOptions prop with
  | None => true
  | Some d =>
      let anyOf (conds : option (gmap string JsValue)) :=
        existsb (λ kv, conditionHolds config kv.1 kv.2)
                (map_to_list (default ∅ conds)) in
      let allOf (conds : option (gmap string JsValue)) :=
        forallb (λ kv, conditionHolds config kv.1 kv.2)
                (map_to_list (default ∅ conds)) in
      negb (anyOf (hide d)) && allOf (show d)
  end.
End ConfigValidatorModel.
(** ** Concrete collaborators

    Small instances of the interfaces above, used to run the handlers on
    concrete inputs. *)

Module Fixtures.
Import JS.

Definition row (type display desc : string) : NodeRow :=
  {| node_type := type; package_name := "n8n-nodes-base";
     display_name := display; description := Some desc;
     category := Some "transform";
     is_community := 0; is_verified := 0;
     author_name := None; npm_downloads := None |}.

Definition httpRequestRow : NodeRow :=
  row "nodes-base.httpRequest" "HTTP Request"
      "Makes an HTTP request and returns the response data".

Definition webhookRow : NodeRow :=
  row "nodes-base.webhook" "Webhook"
      "Starts the workflow when a webhook is called".

Definition slackRow : NodeRow :=
  row "nodes-base.slack" "Slack" "Consume Slack API".

Definition sheetsRow : NodeRow :=
  row "nodes-base.googleSheets" "Google Sheets"
      "Read, update and write data to Google Sheets".

Definition sampleNodes : list NodeRow :=
  [slackRow; webhookRow; httpRequestRow; sheetsRow].

(** A [LIKE '%pat%'] predicate over the three searched columns, matching
    without regard to letter case. *)
Definition rowLike (pat : string) (r : NodeRow) : bool :=
  let p := toLowerCase pat in
  includes (toLowerCase (node_type r)) p
  || includes (toLowerCase (display_name r)) p
  || match description r with
     | Some d => includes (toLowerCase d) p
     | None => false
     end.

Definition sourceAccepts (src : SearchSource) (r : NodeRow) : bool :=
  match src with
  | SourceAll => true
  | SourceCore => bool_decide (is_community r = 0%Z)
  | SourceCommunity => bool_decide (is_community r = 1%Z)
  | SourceVerified =>
      bool_decide (is_community r = 1%Z) && bool_decide (is_verified r = 1%Z)
  end.

(** A store holding [nodes], whose full-text index answers [index]. *)
Definition tableDb (hasIndex : bool) (nodes : list NodeRow)
    (index : string → outcome (list FtsRow)) : DatabaseAdapter :=
  {| ftsExists := hasIndex;
     ftsMatch := λ ftsQuery _ src limit,
       rows ← index ftsQuery;
       Returns (take limit (filter (λ r, sourceAccepts src (fts_node r) = true) rows));
     likePhrase := λ phrase src limit,
       Returns (take limit
         (filter (λ r, rowLike phrase r && sourceAccepts src r = true) nodes));
     likeWords := λ ws src limit,
       Returns (take limit
         (filter (λ r, existsb (λ w, rowLike w r) ws && sourceAccepts src r = true)
                 nodes));
     likeOrdered := λ pat limit,
       Returns (take limit (filter (λ r, rowLike pat r = true) nodes));
     selectAllNodes := Returns nodes;
     templateExamples := λ _, Returns [] |}.

(** An index that finds the webhook node only. *)
Definition webhookOnlyIndex (_ : string) : outcome (list FtsRow) :=
  Returns [ {| fts_node := webhookRow; fts_rank := (-1)%Q |} ].

Definition sampleDb : DatabaseAdapter := tableDb true sampleNodes webhookOnlyIndex.

(** [\bq\b] with the [i] flag for a query [q] taken literally: some
    occurrence of [q] in [s], compared without regard to letter case, has a
    word boundary at both ends.  [prev] is the character before the
    current position. *)
Definition boundary (before after : option ascii) : bool :=
  xorb (default false (isWordChar <$> before))
       (default false (isWordChar <$> after)).

Definition firstChar (s : string) : option ascii :=
  match s with
  | String c _ => Some c
  | EmptyString => None
  end.

Fixpoint lastChar (prev : option ascii) (s : string) : option ascii :=
  match s with
  | String c s' => lastChar (Some c) s'
  | EmptyString => prev
  end.

Fixpoint wordMatch (q : string) (prev : option ascii) (s : string) : bool :=
  (startsWith (toLowerCase s) (toLowerCase q)
   && boundary prev (firstChar (q +:+ drop (String.length q) s))
   && boundary (lastChar prev q) (firstChar (drop (String.length q) s)))
  || match s with
     | String c s' => wordMatch q (Some c) s'
     | EmptyString => false
     end.

(** Code-unit order as the collation. *)
Definition codeUnitCompare (a b : string) : Z :=
  match String.compare a b with
  | Lt => (-1)%Z
  | Eq => 0%Z
  | Gt => 1%Z
  end.

(** An engine that sorts by insertion whatever the comparator. *)
Definition insertionSort : ArraySort.
Proof.
  refine {| sort := @JSArray.stableSort |}.
  - intros A cmp l. induction l as [|x l IH]; [done|].
    etrans; [|apply Permutation_skip, IH].
    change (JSArray.stableSort cmp (x :: l))
      with (JSArray.insert cmp x (JSArray.stableSort cmp l)).
    generalize (JSArray.stableSort cmp l). intros sorted.
    induction sorted as [|y sorted IHs]; simpl; [done|].
    destruct (cmp x y <=? 0)%Z; [done|].
    by rewrite IHs, Permutation_swap.
  - done.
Defined.

Definition sampleRuntime : Runtime :=
  {| arraySort := insertionSort;
     Json := string;
     json_parse := λ s, Returns s;
     wordBoundaryTest := λ q s, Returns (wordMatch q None s);
     localeCompare := codeUnitCompare;
     getWorkflowNodeType := λ pkg type,
       match pkg with
       | Some "n8n-nodes-base" => replaceAll "nodes-base." "n8n-nodes-base." type
       | _ => type
       end;
     getNodeTypeAlternatives := λ type, [toLowerCase type];
     normalizeToFullForm := λ type,
       if startsWith type "n8n-nodes-base."
       then replaceAll "n8n-nodes-base." "nodes-base." type else type |}.

(** A node with two versions of its [url] field: the property is shown
    only for version 2. *)
Definition urlProperty : NodeProperty :=
  {| p_name := "url"; p_displayName := "URL"; p_type := "string";
     p_default := JStr ""; p_required := true;
     p_description := Some "The URL to make the request to";
     p_options := JUndefined;
     p_displayOptions :=
       Some {| show := Some {[ "@version" := JArr [JNum 2] ]}; hide := None |} |}.

Definition methodProperty : NodeProperty :=
  {| p_name := "method"; p_displayName := "Method"; p_type := "options";
     p_default := JStr "GET"; p_required := true;
     p_description := None; p_options := JUndefined;
     p_displayOptions :=
       Some {| show := Some {[ "resource" := JArr [JStr "http"] ]}; hide := None |} |}.

Definition httpRequestNode : RepoNode :=
  {| n_nodeType := "nodes-base.httpRequest"; n_displayName := "HTTP Request";
     n_description := Some "Makes an HTTP request and returns the response data";
     n_category := Some "output"; n_package := Some "n8n-nodes-base";
     n_properties := Some [urlProperty; methodProperty];
     n_version := JNum 2;
     n_isAITool := Some false; n_isToolVariant := false;
     n_hasToolVariant := false; n_toolVariantOf := None;
     n_outputNames := None |}.

Definition sampleRepository : NodeRepository :=
  {| getNode := λ type,
       if bool_decide (type = "nodes-base.httpRequest")
       then Some httpRequestNode else None |}.

Definition noNodesIssue : WorkflowIssue :=
  {| i_nodeName := None; i_message := "Workflow has no nodes";
     i_details := JUndefined; i_type := Some "error" |}.

(** A workflow validator that reports an empty workflow, accepts the
    others, and throws when [options] is a string. *)
Definition sampleWorkflowValidator (workflow options : JsValue)
    : outcome WorkflowValidationResult :=
  let stats n := {| totalNodes := n; enabledNodes := n; triggerNodes := 0;
                    validConnections := 0; invalidConnections := 0;
                    expressionsValidated := 0 |} in
  match options, member workflow "nodes" with
  | JStr _, _ =>
      Throws "Cannot use 'in' operator to search for 'validateNodes' in a string"
  | _, JArr [] =>
      Returns {| w_valid := false; w_errors := [noNodesIssue]; w_warnings := [];
                 w_suggestions := []; w_statistics := stats 0 |}
  | _, JArr nodes =>
      Returns {| w_valid := true; w_errors := []; w_warnings := [];
                 w_suggestions := ["Consider adding error handling"];
                 w_statistics := stats (length nodes) |}
  | _, _ => Throws "workflow.nodes is not iterable"
  end.

Definition sampleServices : Services :=
  {| isPropertyVisible := ConfigValidatorModel.isVisible;
     validateWithMode := λ _ _ _ _ _,
       {| v_valid := true; v_errors := []; v_warnings := []; v_suggestions := [] |};
     validateWorkflowService := sampleWorkflowValidator;
     searchProperties := λ properties q maxResults,
       take maxResults
         ((λ p, {| m_property := p; m_path := None; m_showWhen := JUndefined |})
          <$> filter (λ p, includes (toLowerCase (p_name p)) (toLowerCase q) = true)
                     properties);
     getWorkflowExampleString := "{ nodes: [...], connections: {...} }" |}.

(** A workflow with one node and no connections. *)
Definition sampleWorkflow : JsValue :=
  JObj {[ "nodes" := JArr [JObj {[ "name" := JStr "Start" ]}];
          "connections" := JObj ∅ ]}.
End Fixtures.
(** ** Notions used in the statements *)

Module Properties.
Import JS JSArray.

(** *** Tables *)

Section Tables.
Context {A : Type} `{EqDecision A}.

(** A table of [m + 1] rows of [n + 1] cells. *)
Definition rect (m n : nat) (dp : EditDistance.table) : Prop :=
  length dp = S m ∧ ∀ i row, dp !! i = Some row → length row = S n.

(** Cells already holding their final value when the loops of
    [getEditDistance] are at row [i], column [j]. *)
Definition filled (s1 s2 : list A) (m n i j : nat) (dp : EditDistance.table) : Prop :=
  rect m n dp ∧
  ∀ a b, a ≤ m → b ≤ n → a = 0 ∨ b = 0 ∨ a < i ∨ (a = i ∧ b < j) →
         EditDistance.get dp a b = EditDistance.prefix_dist s1 s2 a b.
End Tables.

(** *** Comparators *)

(** [a] may stand before [b]. *)
Definition notAfter {A : Type} (cmp : A → A → Z) (a b : A) : Prop := (cmp a b ≤ 0)%Z.

(** *** Strings *)

(** A string made of white space only. *)
Fixpoint blank (s : string) : bool :=
  match s with
  | EmptyString => true
  | String c s' => isWhiteSpace c && blank s'
  end.

(** The terms of a query in the spec's words: the maximal runs of
    characters that are not white space, in order.  [cur] is the run being
    read. *)
Fixpoint terms_go (cur : string) (s : string) : list string :=
  match s with
  | EmptyString => if bool_decide (cur = "") then [] else [cur]
  | String c s' =>
      if isWhiteSpace c
      then if bool_decide (cur = "") then terms_go "" s' else cur :: terms_go "" s'
      else terms_go (cur +:+ String c EmptyString) s'
  end.

Definition terms (s : string) : list string := terms_go "" s.

Definition hasWhiteSpace (s : string) : bool :=
  existsb isWhiteSpace (list_ascii_of_string s).

(** [t] is [s] without the prefix [prefix]: the prefix is taken off a
    string that starts with it, and any other string is left as it is. *)
Definition withoutPrefix (prefix s t : string) : Prop :=
  s = prefix +:+ t ∨ (s = t ∧ ∀ rest, s ≠ prefix +:+ rest).

(** [t] is the lower-cased node type [type] without its package prefix:
    a leading [nodes-base.] is taken off, and then a leading
    [nodes-langchain.]. *)
Definition prefixStripped (type t : string) : Prop :=
  ∃ rest, withoutPrefix "nodes-base." type rest
          ∧ withoutPrefix "nodes-langchain." rest t.

(** *** Search *)

(** The order of the fuzzy results: higher scores first. *)
Definition fuzzyOrder (q : string) (a b : NodeRow) : Z :=
  sign_sub (SearchHandlers.calculateFuzzyScore b q)
           (SearchHandlers.calculateFuzzyScore a q).

(** The same store with another answer to [SELECT * FROM nodes], the one
    statement only the fuzzy strategy runs. *)
Definition withAllNodes `{DatabaseAdapter} (answer : outcome (list NodeRow))
    : DatabaseAdapter :=
  {| ftsExists := ftsExists;
     ftsMatch := ftsMatch;
     likePhrase := likePhrase;
     likeWords := likeWords;
     likeOrdered := likeOrdered;
     selectAllNodes := answer;
     templateExamples := templateExamples |}.

(** [options?.mode || 'OR'] *)
Definition requestedMode (options : option SearchOptions) : SearchMode :=
  default OR (options ≫= opt_mode).

(** *** Lookup and validation *)

Section Validation.
Context `{NodeRepository} `{Services} `{Runtime}.

(** Every identifier the handlers try for [nodeType] is unknown to the
    repository. *)
Definition allLookupsMiss (nodeType : string) : Prop :=
  getNode (normalizeToFullForm nodeType) = None
  ∧ getNode nodeType = None
  ∧ ∀ alt, alt ∈ getNodeTypeAlternatives (normalizeToFullForm nodeType) →
           getNode alt = None.

(** The two validators behind the handlers keep [valid] equal to "no
    errors", as their contract says. *)
Definition validatorsConsistent : Prop :=
  (∀ nodeType config properties mode profile,
     v_valid (validateWithMode nodeType config properties mode profile) = true
     ↔ v_errors (validateWithMode nodeType config properties mode profile) = [])
  ∧ (∀ workflow options result,
       validateWorkflowService workflow options = Returns result →
       (w_valid result = true ↔ w_errors result = [])).

(** A property counts as visible when it has no [displayOptions] or the
    visibility evaluator says so. *)
Definition visibleUnder (working : gmap string JsValue) (prop : NodeProperty) : bool :=
  match p_displayOptions prop with
  | None => true
  | Some _ => isPropertyVisible prop working
  end.

(** The properties minimal validation reports: required, visible under
    the working config, and not in the caller's config: the name is
    neither a key of the config nor one of the members every object
    inherits. *)
Definition reportedMissing (working config : gmap string JsValue)
    (prop : NodeProperty) : bool :=
  p_required prop && visibleUnder working prop
  && bool_decide (config !! p_name prop = None)
  && bool_decide (p_name prop ∉ objectPrototypeMembers).

(** The name a reported property goes by. *)
Definition fieldLabel (prop : NodeProperty) : string :=
  or_else (p_displayName prop) (p_name prop).
End Validation.

(** *** The tool layer *)

(** The callback, when there is one, accepts the arguments. *)
Definition callbackAccepts
    (callback : option (string → gmap string JsValue → list string → outcome unit))
    (args : gmap string JsValue) : Prop :=
  ∀ cb, callback = Some cb →
        cb "validate_node" args ["nodeType"; "config"] = Returns ().

(** A required parameter is present: neither missing, [undefined] nor
    [null]. *)
Definition present (v : JsValue) : Prop := v ≠ JUndefined ∧ v ≠ JNull.
End Properties.

(** ** The tool layer: [search_templates] and [get_node]
       ([ToolExecutionHandler.executeTool]) *)

Module ToolRouting.
Import JS.

(** *** Numbers *)

(** A JavaScript number: a finite value, an infinity or [NaN]. *)
Inductive JsNumber :=
| NaN
| PosInfinity
| NegInfinity
| Finite (q : Q).

(** The conversions the language leaves to parsing: [Number(v)] for a
    string, an array or an object. *)
Class Conversions := {
  parseNumber : JsValue → JsNumber;
}.

Section Numbers.
Context `{Conversions}.

(** [Number(v)] *)
Definition toNumber (v : JsValue) : JsNumber :=
  match v with
  | JUndefined => NaN
  | JNull => Finite 0
  | JBool b => Finite (if b then 1 else 0)
  | JNum q => Finite q
  | JStr _ | JArr _ | JObj _ => parseNumber v
  end.

(** [a || b] on numbers: [NaN] and zero are falsy. *)
Definition numberOr (a b : JsNumber) : JsNumber :=
  match a with
  | NaN => b
  | Finite q => if Qeq_bool q 0 then b else a
  | _ => a
  end.

(** [Math.max(a, b)] and [Math.min(a, b)] *)
Definition mathMax (a b : JsNumber) : JsNumber :=
  match a, b with
  | NaN, _ | _, NaN => NaN
  | PosInfinity, _ | _, PosInfinity => PosInfinity
  | NegInfinity, x | x, NegInfinity => x
  | Finite x, Finite y => Finite (Qmax x y)
  end.

Definition mathMin (a b : JsNumber) : JsNumber :=
  match a, b with
  | NaN, _ | _, NaN => NaN
  | NegInfinity, _ | _, NegInfinity => NegInfinity
  | PosInfinity, x | x, PosInfinity => x
  | Finite x, Finite y => Finite (Qmin x y)
  end.

(** *** [case 'search_templates'] *)

(** The [filters] object handed to [searchTemplatesByMetadata]. *)
Record MetadataFilters := {
  mf_category : JsValue;
  mf_complexity : JsValue;
  mf_maxSetupMinutes : option JsNumber;
  mf_minSetupMinutes : option JsNumber;
  mf_requiredService : JsValue;
  mf_targetAudience : JsValue;
}.

(** The template handler [executeTool] calls, with its arguments. *)
Inductive TemplateCall :=
| CallListNodeTemplates (nodeTypes : list JsValue) (limit offset : JsNumber)
| CallGetTemplatesForTask (task : JsValue) (limit offset : JsNumber)
| CallSearchTemplatesByMetadata (filters : MetadataFilters) (limit offset : JsNumber)
| CallSearchTemplates (query : JsValue) (limit offset : JsNumber) (fields : JsValue).

Definition callLimit (c : TemplateCall) : JsNumber :=
  match c with
  | CallListNodeTemplates _ limit _ | CallGetTemplatesForTask _ limit _
  | CallSearchTemplatesByMetadata _ limit _ | CallSearchTemplates _ limit _ _ => limit
  end.

Definition callOffset (c : TemplateCall) : JsNumber :=
  match c with
  | CallListNodeTemplates _ _ offset | CallGetTemplatesForTask _ _ offset
  | CallSearchTemplatesByMetadata _ _ offset | CallSearchTemplates _ _ offset _ => offset
  end.

(** [args.key] *)
Definition arg (args : gmap string JsValue) (key : string) : JsValue :=
  default JUndefined (args !! key).

(** [args.key ? Number(args.key) : undefined] *)
Definition optionalNumber (args : gmap string JsValue) (key : string)
    : option JsNumber :=
  if truthy (arg args key) then Some (toNumber (arg args key)) else None.

(** [executeTool('search_templates', args)] for an [args] object. *)
Definition executeSearchTemplates (args : gmap string JsValue) : outcome TemplateCall :=
  let searchMode := jsOr (arg args "searchMode") (JStr "keyword") in
  let searchLimit :=
    mathMin (mathMax (numberOr (toNumber (arg args "limit")) (Finite 20)) (Finite 1))
            (Finite 100) in
  let searchOffset :=
    mathMax (numberOr (toNumber (arg args "offset")) (Finite 0)) (Finite 0) in
  let modeIs (name : string) :=
    match searchMode with
    | JStr m => bool_decide (m = name)
    | _ => false
    end in
  if modeIs "by_nodes" then
    match arg args "nodeTypes" with
    | JArr (nodeType :: nodeTypes) =>
        Returns (CallListNodeTemplates (nodeType :: nodeTypes) searchLimit searchOffset)
    | _ => Throws "nodeTypes array is required for searchMode=by_nodes"
    end
  else if modeIs "by_task" then
    if negb (truthy (arg args "task"))
    then Throws "task is required for searchMode=by_task"
    else Returns (CallGetTemplatesForTask (arg args "task") searchLimit searchOffset)
  else if modeIs "by_metadata" then
    Returns (CallSearchTemplatesByMetadata
               {| mf_category := arg args "category";
                  mf_complexity := arg args "complexity";
                  mf_maxSetupMinutes := optionalNumber args "maxSetupMinutes";
                  mf_minSetupMinutes := optionalNumber args "minSetupMinutes";
                  mf_requiredService := arg args "requiredService";
                  mf_targetAudience := arg args "targetAudience" |}
               searchLimit searchOffset)
  else
    if negb (truthy (arg args "query"))
    then Throws "query is required for searchMode=keyword"
    else Returns (CallSearchTemplates (arg args "query") searchLimit searchOffset
                                      (arg args "fields")).
End Numbers.

(** A number between two bounds. *)
Definition between (lo hi : Q) (n : JsNumber) : Prop :=
  match n with
  | Finite q => (lo <= q)%Q ∧ (q <= hi)%Q
  | _ => False
  end.

(** A number that is zero or more, possibly infinite. *)
Definition nonNegative (n : JsNumber) : Prop :=
  match n with
  | Finite q => (0 <= q)%Q
  | PosInfinity => True
  | _ => False
  end.

(** A required parameter is there: it is a key of the arguments whose
    value is neither [undefined] nor [null], or, not being a key, it is one
    of the members every object inherits. *)
Definition isPresent (args : gmap string JsValue) (param : string) : bool :=
  match args !! param with
  | Some JUndefined | Some JNull => false
  | Some _ => true
  | None => bool_decide (param ∈ objectPrototypeMembers)
  end.

(** The text of the error for a missing parameter. *)
Definition missingParameter (param name : string) : string :=
  "Missing required parameter '" +:+ param +:+ "' for tool '" +:+ name +:+ "'".

(** A conversion that reads nothing: every string, array and object is
    [NaN]. *)
Definition noParsing : Conversions := {| parseNumber := λ _, NaN |}.
End ToolRouting.

(** ** [getNode] and its two modes ([mcp/handlers/node-handlers]) *)

Module NodeRouting.
Import JS.

Definition DQUOTE : string := String (ascii_of_nat 34) EmptyString.

Definition validDetailLevels : list string := ["minimal"; "standard"; "full"].
Definition validModes : list string :=
  ["info"; "versions"; "compare"; "breaking"; "migrations"].

(** [!version] for an optional string: [undefined] and [""] are falsy. *)
Definition falsy (version : option string) : bool :=
  match version with
  | None | Some EmptyString => true
  | Some _ => false
  end.

(** The answer at detail level [minimal]: the members [nodeType],
    [displayName], [description], [category], [package], [isAITool],
    [isTrigger] and [isWebhook] are those of the node found. *)
Record NodeMinimalInfo := {
  mi_node : RepoNode;
  mi_workflowNodeType : string;
  mi_toolVariantInfo : option NodeHandlers.ToolVariantGuidance;
}.

(** What [getNode] does once its arguments are accepted: it answers at
    detail level [minimal] by itself, or it goes on with the handlers of
    the other detail levels and of the version modes. *)
Inductive NodeCall :=
| AnswerMinimal (info : NodeMinimalInfo)
| CallStandard (nodeType : string) (includeTypeInfo includeExamples : option bool)
| CallFull (nodeType : string) (includeTypeInfo : option bool)
| CallVersionHistory (nodeType : string)
| CallCompareVersions (nodeType fromVersion : string) (toVersion : option string)
| CallBreakingChanges (nodeType fromVersion : string) (toVersion : option string)
| CallMigrations (nodeType fromVersion toVersion : string).

(** The texts of the errors. *)
Definition invalidDetail (detail : string) : string :=
  "get_node: Invalid detail level " +:+ DQUOTE +:+ detail +:+ DQUOTE
  +:+ ". Valid options: " +:+ join ", " validDetailLevels.

Definition invalidMode (mode : string) : string :=
  "get_node: Invalid mode " +:+ DQUOTE +:+ mode +:+ DQUOTE
  +:+ ". Valid options: " +:+ join ", " validModes.

Definition fromVersionRequired (mode nodeType : string) : string :=
  "get_node: fromVersion is required for " +:+ mode +:+ " mode (nodeType: "
  +:+ nodeType +:+ ")".

Definition bothVersionsRequired (nodeType : string) : string :=
  "get_node: Both fromVersion and toVersion are required for migrations mode (nodeType: "
  +:+ nodeType +:+ ")".

Section Handlers.
Context `{NodeRepository} `{Services} `{Runtime}.

Definition eqs (a b : string) : bool := bool_decide (a = b).

(** [handleInfoMode(nodeType, detail, includeTypeInfo, includeExamples)] *)
Definition handleInfoMode (nodeType detail : string)
    (includeTypeInfo includeExamples : option bool) : outcome NodeCall :=
  if eqs detail "minimal" then
    let node :=
      match getNode nodeType with
      | Some node => Some node
      | None => NodeHandlers.firstFound (getNodeTypeAlternatives nodeType)
      end in
    match node with
    | None => Throws (NodeHandlers.notFound nodeType)
    | Some node =>
        Returns (AnswerMinimal
          {| mi_node := node;
             mi_workflowNodeType :=
               getWorkflowNodeType (Some (default "n8n-nodes-base" (n_package node)))
                                   (n_nodeType node);
             mi_toolVariantInfo := NodeHandlers.buildToolVariantGuidance node |})
    end
  else if eqs detail "standard" then
    Returns (CallStandard nodeType includeTypeInfo includeExamples)
  else if eqs detail "full" then
    Returns (CallFull nodeType includeTypeInfo)
  else Throws ("Unknown detail level: " +:+ detail).

(** [handleVersionMode(nodeType, mode, fromVersion, toVersion)] *)
Definition handleVersionMode (nodeType mode : string)
    (fromVersion toVersion : option string) : outcome NodeCall :=
  if eqs mode "versions" then Returns (CallVersionHistory nodeType)
  else if eqs mode "compare" then
    if falsy fromVersion then Throws (fromVersionRequired "compare" nodeType)
    else Returns (CallCompareVersions nodeType (default "" fromVersion) toVersion)
  else if eqs mode "breaking" then
    if falsy fromVersion then Throws (fromVersionRequired "breaking" nodeType)
    else Returns (CallBreakingChanges nodeType (default "" fromVersion) toVersion)
  else if eqs mode "migrations" then
    if falsy fromVersion || falsy toVersion
    then Throws (bothVersionsRequired nodeType)
    else Returns (CallMigrations nodeType (default "" fromVersion) (default "" toVersion))
  else Throws ("get_node: Unknown mode: " +:+ mode +:+ " (nodeType: "
               +:+ nodeType +:+ ")").

(** Neither the normalized identifier nor any of its alternatives is
    known to the repository. *)
Definition unknownNode (normalizedType : string) : Prop :=
  getNode normalizedType = None
  ∧ ∀ alt, alt ∈ getNodeTypeAlternatives normalizedType → getNode alt = None.

(** [getNode(nodeType, detail, mode, includeTypeInfo, includeExamples,
    fromVersion, toVersion)] *)
Definition getNode (nodeType detail mode : string)
    (includeTypeInfo includeExamples : option bool)
    (fromVersion toVersion : option string) : outcome NodeCall :=
  if negb (bool_decide (detail ∈ validDetailLevels)) then Throws (invalidDetail detail)
  else if negb (bool_decide (mode ∈ validModes)) then Throws (invalidMode mode)
  else
    let normalizedType := normalizeToFullForm nodeType in
    if negb (eqs mode "info")
    then handleVersionMode normalizedType mode fromVersion toVersion
    else handleInfoMode normalizedType detail includeTypeInfo includeExamples.

End Handlers.
End NodeRouting.

(** ** [validateWorkflowConnections] and [validateWorkflowExpressions]
       ([mcp/handlers/workflow-handlers]) *)

Module WorkflowChecks.
Import JS.

(** An element of the [errors] and [warnings] arrays of the two
    answers. *)
Record BriefIssue := {
  bi_node : string;
  bi_message : string;
}.

(** The [statistics] member: the counters a given answer copies. *)
Record BriefStatistics := {
  bs_totalNodes : nat;
  bs_triggerNodes : option nat;
  bs_validConnections : option nat;
  bs_invalidConnections : option nat;
  bs_expressionsValidated : option nat;
}.

(** The object the two functions resolve to; members a given return
    statement does not write are [None]. *)
Record Response := {
  valid : bool;
  statistics : option BriefStatistics;
  errors : option (list BriefIssue);
  warnings : option (list BriefIssue);
  tips : option (list string);
  error : option string;
}.

Definition briefIssue (e : WorkflowIssue) : BriefIssue :=
  {| bi_node := or_else (default "" (i_nodeName e)) "workflow";
     bi_message := i_message e |}.

(** [l.length > 0 ? l : <member not written>] *)
Definition whenNonEmpty {A : Type} (l : list A) : option (list A) :=
  match l with
  | [] => None
  | _ => Some l
  end.

(** The options of the two partial validations. *)
Definition connectionsOnly : JsValue :=
  JObj {[ "validateNodes" := JBool false;
          "validateConnections" := JBool true;
          "validateExpressions" := JBool false ]}.

Definition expressionsOnly : JsValue :=
  JObj {[ "validateNodes" := JBool false;
          "validateConnections" := JBool false;
          "validateExpressions" := JBool true ]}.

(** The filters on the messages. *)
Definition connectionError (e : WorkflowIssue) : bool :=
  includes (i_message e) "connection" || includes (i_message e) "cycle"
  || includes (i_message e) "orphaned".

Definition connectionWarning (w : WorkflowIssue) : bool :=
  includes (i_message w) "connection" || includes (i_message w) "orphaned"
  || includes (i_message w) "trigger".

Definition expressionIssue (e : WorkflowIssue) : bool :=
  includes (i_message e) "Expression" || includes (i_message e) "$"
  || includes (i_message e) "{{".

Definition expressionTips : list string :=
  [ "Use {{ }} to wrap expressions";
    "Reference data with $json.propertyName";
    "Reference other nodes with $node[" +:+ String (ascii_of_nat 34) "Node Name"
      +:+ String (ascii_of_nat 34) "].json";
    "Use $input.item for input data in loops" ].

Section Handlers.
Context `{Services}.

(** [validateWorkflowConnections(workflow)] *)
Definition validateWorkflowConnections (workflow : JsValue) : Response :=
  match validateWorkflowService workflow connectionsOnly with
  | Returns result =>
      let connectionErrors := filter (λ e, connectionError e = true) (w_errors result) in
      let connectionWarnings :=
        filter (λ w, connectionWarning w = true) (w_warnings result) in
      {| valid := bool_decide (length (w_errors result) = 0);
         statistics :=
           Some {| bs_totalNodes := totalNodes (w_statistics result);
                   bs_triggerNodes := Some (triggerNodes (w_statistics result));
                   bs_validConnections := Some (validConnections (w_statistics result));
                   bs_invalidConnections :=
                     Some (invalidConnections (w_statistics result));
                   bs_expressionsValidated := None |};
         errors := whenNonEmpty (briefIssue <$> connectionErrors);
         warnings := whenNonEmpty (briefIssue <$> connectionWarnings);
         tips := None;
         error := None |}
  | Throws message =>
      {| valid := false; error := Some message;
         statistics := None; errors := None; warnings := None; tips := None |}
  end.

(** [validateWorkflowExpressions(workflow)] *)
Definition validateWorkflowExpressions (workflow : JsValue) : Response :=
  match validateWorkflowService workflow expressionsOnly with
  | Returns result =>
      let expressionErrors := filter (λ e, expressionIssue e = true) (w_errors result) in
      let expressionWarnings :=
        filter (λ w, expressionIssue w = true) (w_warnings result) in
      {| valid := bool_decide (length (w_errors result) = 0);
         statistics :=
           Some {| bs_totalNodes := totalNodes (w_statistics result);
                   bs_triggerNodes := None;
                   bs_validConnections := None;
                   bs_invalidConnections := None;
                   bs_expressionsValidated :=
                     Some (expressionsValidated (w_statistics result)) |};
         errors := whenNonEmpty (briefIssue <$> expressionErrors);
         warnings := whenNonEmpty (briefIssue <$> expressionWarnings);
         tips := if bool_decide (0 < length expressionErrors)
                    || bool_decide (0 < length expressionWarnings)
                 then Some expressionTips else None;
         error := None |}
  | Throws message =>
      {| valid := false; error := Some message;
         statistics := None; errors := None; warnings := None; tips := None |}
  end.
End Handlers.

(** A workflow [validateWorkflow] hands to the workflow validator: an
    object whose [nodes] member is an array and whose [connections] member
    is an object or an array. *)
Definition wellShaped (workflow : JsValue) : bool :=
  match workflow with
  | JObj members =>
      match members !! "nodes", members !! "connections" with
      | Some (JArr _), Some (JArr _ | JObj _) => true
      | _, _ => false
      end
  | _ => false
  end.
End WorkflowChecks.

(** ** More of JavaScript's strings *)

Module JSText.
Import JS.

(** [s.split(sep)] for a one-character separator: the pieces between the
    separators, [[""]] for the empty string.  [cur] is the piece being
    read. *)
Fixpoint splitOn_go (sep : ascii) (cur : string) (s : string) : list string :=
  match s with
  | EmptyString => [cur]
  | String c s' =>
      if bool_decide (c = sep)
      then cur :: splitOn_go sep EmptyString s'
      else splitOn_go sep (cur +:+ String c EmptyString) s'
  end.

Definition splitOn (sep : ascii) (s : string) : list string :=
  splitOn_go sep EmptyString s.

(** [s.substring(0, n)] *)
Fixpoint substring0 (n : nat) (s : string) : string :=
  match n, s with
  | S n', String c s' => String c (substring0 n' s')
  | _, _ => EmptyString
  end.

(** [s.replace(pat, rep)] for a non-empty string [pat]: the first
    occurrence only. *)
Fixpoint replaceFirst (pat rep : string) (s : string) : string :=
  if startsWith s pat then rep +:+ drop (String.length pat) s
  else match s with
       | EmptyString => EmptyString
       | String c s' => String c (replaceFirst pat rep s')
       end.

(** The number of occurrences of a character. *)
Fixpoint countChar (c : ascii) (s : string) : nat :=
  match s with
  | EmptyString => 0
  | String d s' => (if bool_decide (d = c) then 1 else 0) + countChar c s'
  end.

(** A string that [trim()] leaves as it is: it neither starts nor ends
    with white space. *)
Definition trimmed (s : string) : Prop := trim s = s.
End JSText.

(** ** [listNodes] ([mcp/handlers/utility-handlers]) *)

Module UtilityHandlers.
Import JS JSText.

(** A row of the [nodes] table with the further columns [listNodes]
    reads. *)
Record ListedRow := {
  lr_row : NodeRow;
  development_style : option string;
  is_ai_tool : Z;
  is_trigger : Z;
  is_versioned : Z;
}.

(** An element of the [nodes] array of the answer. *)
Record ListedNode := {
  ln_nodeType : string;
  ln_displayName : string;
  ln_description : option string;
  ln_category : option string;
  ln_package : string;
  ln_developmentStyle : option string;
  ln_isAITool : bool;
  ln_isTrigger : bool;
  ln_isVersioned : bool;
}.

Record NodeList := {
  nodes : list ListedNode;
  totalCount : nat;
}.

(** What the handler needs from outside: the statement runner
    [db.prepare(query).all(...params)], and [String(v)] for a value that
    is not a string. *)
Class StatementRunner := {
  prepareAll : string → list JsValue → outcome (list ListedRow);
  stringOf : JsValue → string;
}.

Section Handlers.
Context `{StatementRunner}.

(** [String(v)] *)
Definition toString (v : JsValue) : string :=
  match v with
  | JStr s => s
  | _ => stringOf v
  end.

Definition filter_ (filters : gmap string JsValue) (key : string) : JsValue :=
  default JUndefined (filters !! key).

(** The statement text and its parameters, as [listNodes] builds them
    clause by clause. *)
Definition listNodesStatement (filters : gmap string JsValue)
    : string * list JsValue :=
  let query := "SELECT * FROM nodes WHERE 1=1" in
  let params : list JsValue := [] in
  let '(query, params) :=
    if truthy (filter_ filters "package") then
      let packageName := toString (filter_ filters "package") in
      let packageVariants :=
        [ packageName; "@n8n/" +:+ packageName; replaceFirst "@n8n/" "" packageName ] in
      (query +:+ " AND package_name IN ("
         +:+ join "," ((λ _, "?") <$> packageVariants) +:+ ")",
       params ++ (JStr <$> packageVariants))
    else (query, params) in
  let '(query, params) :=
    if truthy (filter_ filters "category")
    then (query +:+ " AND category = ?", params ++ [filter_ filters "category"])
    else (query, params) in
  let '(query, params) :=
    if truthy (filter_ filters "developmentStyle")
    then (query +:+ " AND development_style = ?",
          params ++ [filter_ filters "developmentStyle"])
    else (query, params) in
  let '(query, params) :=
    match filter_ filters "isAITool" with
    | JUndefined => (query, params)
    | isAITool =>
        (query +:+ " AND is_ai_tool = ?",
         params ++ [JNum (if truthy isAITool then 1 else 0)])
    end in
  let query := query +:+ " ORDER BY display_name" in
  if truthy (filter_ filters "limit")
  then (query +:+ " LIMIT ?", params ++ [filter_ filters "limit"])
  else (query, params).

Definition listedNode (node : ListedRow) : ListedNode :=
  {| ln_nodeType := node_type (lr_row node);
     ln_displayName := display_name (lr_row node);
     ln_description := description (lr_row node);
     ln_category := category (lr_row node);
     ln_package := package_name (lr_row node);
     ln_developmentStyle := development_style node;
     ln_isAITool := bool_decide (is_ai_tool node = 1%Z);
     ln_isTrigger := bool_decide (is_trigger node = 1%Z);
     ln_isVersioned := bool_decide (is_versioned node = 1%Z) |}.

(** [listNodes(db, filters)] *)
Definition listNodes (filters : gmap string JsValue) : outcome NodeList :=
  let '(query, params) := listNodesStatement filters in
  rows ← prepareAll query params;
  Returns {| nodes := listedNode <$> rows; totalCount := length rows |}.
End Handlers.

(** Which clauses a filter object switches on. *)
Definition clauses (filters : gmap string JsValue) : list bool :=
  let value key := default JUndefined (filters !! key) in
  [ truthy (value "package"); truthy (value "category");
    truthy (value "developmentStyle");
    match value "isAITool" with JUndefined => false | _ => true end;
    truthy (value "limit") ].
End UtilityHandlers.

(** ** [getDisabledTools] (class [N8NDocumentationMCPServer]) *)

Module ServerSetup.
Import JS JSText.

(** The longest value of [DISABLED_TOOLS] read in full: 10000
    characters. *)
Definition MAX_ENV_LENGTH : nat := 100 * 100.

(** [getDisabledTools()]: [env] is [process.env.DISABLED_TOOLS], the
    state is the field [disabledToolsCache] ([None] for [null]); the call
    returns the set and leaves the field set to it. *)
Definition getDisabledTools (env : option string)
    (disabledToolsCache : option (gset string))
    : gset string * option (gset string) :=
  match disabledToolsCache with
  | Some cached => (cached, Some cached)
  | None =>
      let disabledToolsEnv := or_else (default "" env) "" in
      if bool_decide (disabledToolsEnv = "") then (∅, Some ∅)
      else
        let disabledToolsEnv :=
          if bool_decide (MAX_ENV_LENGTH < String.length disabledToolsEnv)
          then substring0 MAX_ENV_LENGTH disabledToolsEnv
          else disabledToolsEnv in
        let tools :=
          filter (λ t, t ≠ "") (trim <$> splitOn "," disabledToolsEnv) in
        let tools :=
          if bool_decide (200 < length tools) then take 200 tools else tools in
        (list_to_set tools, Some (list_to_set tools))
  end.

(** *** [parseSQLStatements] *)

(** Upper case of one character: the letters a-z and the accented small
    letters U+00E0..U+00FE (the division sign apart) move down by 32.  The
    three characters whose capitals are not a single character of this
    range (U+00B5, U+00DF, U+00FF) are left as they are; their capitals
    contain none of the characters the tests below look for. *)
Definition toUpperChar (c : ascii) : ascii :=
  let n := code c in
  if ((97 <=? n) && (n <=? 122))
     || ((224 <=? n) && (n <=? 254) && negb (n =? 247))
  then ascii_of_nat (n - 32) else c.

(** [s.toUpperCase()] *)
Fixpoint toUpperCase (s : string) : string :=
  match s with
  | EmptyString => EmptyString
  | String c s' => String (toUpperChar c) (toUpperCase s')
  end.

Definition LF : ascii := ascii_of_nat 10.

(** The variables of the loop. *)
Record ParserState := {
  statements : list string;
  current : string;
  inBlock : bool;
}.

(** [line.trim().toUpperCase()] *)
Definition upperTrimmed (line : string) : string := toUpperCase (trim line).

(** The lines the loop passes over: comments and blank lines. *)
Definition skipped (line : string) : bool :=
  startsWith (upperTrimmed line) "--" || bool_decide (upperTrimmed line = "").

(** The body of the loop. *)
Definition parseLine (st : ParserState) (line : string) : ParserState :=
  let trimmed := upperTrimmed line in
  if skipped line then st
  else
    let inBlock := if includes trimmed "BEGIN" then true else inBlock st in
    let current := current st +:+ line +:+ String LF EmptyString in
    if inBlock && bool_decide (trimmed = "END;") then
      {| statements := statements st ++ [trim current];
         current := EmptyString; inBlock := false |}
    else if negb inBlock && endsWith trimmed ";" then
      {| statements := statements st ++ [trim current];
         current := EmptyString; inBlock := inBlock |}
    else
      {| statements := statements st; current := current; inBlock := inBlock |}.

(** The loop over the lines and what follows it. *)
Definition parseLines (lines : list string) : list string :=
  let st := foldl parseLine
                  {| statements := []; current := EmptyString; inBlock := false |}
                  lines in
  let statements :=
    if bool_decide (trim (current st) = "") then statements st
    else statements st ++ [trim (current st)] in
  filter (λ s, 0 < String.length s) statements.

(** [parseSQLStatements(sql)] *)
Definition parseSQLStatements (sql : string) : list string :=
  parseLines (splitOn LF sql).
End ServerSetup.

(** ** Further concrete collaborators *)

Module MoreFixtures.
Import JS.

(** A runtime whose regular-expression engine rejects a pattern with an
    opening parenthesis, as [new RegExp] does for an unterminated group;
    otherwise as [Fixtures.sampleRuntime]. *)
(** A node with two required fields and no display options, one field
    bearing the name of a member every object inherits. *)
Definition requiredField (name displayName : string) : NodeProperty :=
  {| p_name := name; p_displayName := displayName; p_type := "string";
     p_default := JStr ""; p_required := true;
     p_description := None; p_options := JUndefined;
     p_displayOptions := None |}.

Definition inheritedNameNode : RepoNode :=
  {| n_nodeType := "nodes-base.inherited"; n_displayName := "Inherited";
     n_description := None; n_category := None;
     n_package := Some "n8n-nodes-base";
     n_properties := Some [ requiredField "constructor" "Constructor";
                            requiredField "plain" "Plain" ];
     n_version := JNum 1;
     n_isAITool := Some false; n_isToolVariant := false;
     n_hasToolVariant := false; n_toolVariantOf := None;
     n_outputNames := None |}.

Definition inheritedNameRepository : NodeRepository :=
  {| getNode := λ type,
       if bool_decide (type = "nodes-base.inherited")
       then Some inheritedNameNode else None |}.

(** A node whose type carries the [nodes-base.] prefix and whose display
    name has nothing in common with it. *)
Definition slackTypeRow : NodeRow :=
  Fixtures.row "nodes-base.slack" "Team Chat" "Consume Slack API".



Definition strictRegexRuntime : Runtime :=
  {| arraySort := Fixtures.insertionSort;
     Json := string;
     json_parse := λ s, Returns s;
     wordBoundaryTest := λ q s,
       if includes q "("
       then Throws "Invalid regular expression: Unterminated group"
       else Returns (Fixtures.wordMatch q None s);
     localeCompare := Fixtures.codeUnitCompare;
     getWorkflowNodeType := @getWorkflowNodeType Fixtures.sampleRuntime;
     getNodeTypeAlternatives := @getNodeTypeAlternatives Fixtures.sampleRuntime;
     normalizeToFullForm := @normalizeToFullForm Fixtures.sampleRuntime |}.

(** The If node, with its two outputs, and a repository that knows it. *)
Definition ifNode : RepoNode :=
  {| n_nodeType := "nodes-base.if"; n_displayName := "If";
     n_description := Some "Route items to different branches (true/false)";
     n_category := Some "transform"; n_package := Some "n8n-nodes-base";
     n_properties := Some [];
     n_version := JNum 2;
     n_isAITool := Some false; n_isToolVariant := false;
     n_hasToolVariant := false; n_toolVariantOf := None;
     n_outputNames := Some ["true"; "false"] |}.

Definition branchingRepository : NodeRepository :=
  {| getNode := λ type,
       if bool_decide (type = "nodes-base.if") then Some ifNode else None |}.
End MoreFixtures.
(** ** Further notions used in the statements *)

Module Invariants.
Import JS JSArray.

(** *** The database *)

(** The index statement ends in [LIMIT ?]: it returns no more rows than
    the limit bound to it. *)
Definition indexHonoursLimit `{DatabaseAdapter} : Prop :=
  ∀ ftsQuery cleanedQuery src limit rows,
    ftsMatch ftsQuery cleanedQuery src limit = Returns rows → length rows ≤ limit.

(** *** The whole-word test *)

(** The regular expression built from the query compiles: the whole-word
    test answers for every candidate instead of throwing a syntax
    error. *)
Definition patternCompiles `{Runtime} (q : string) (nodes : list NodeRow) : Prop :=
  ∀ node, node ∈ nodes →
          returns (wordBoundaryTest (toLowerCase q) (display_name node)).

(** *** Search results *)

Section Results.
Context `{Runtime}.

(** A result without its [examples] member. *)
Definition withoutExamples (r : SearchHandlers.NodeResult) : SearchHandlers.NodeResult :=
  {| SearchHandlers.nodeType := SearchHandlers.nodeType r;
     SearchHandlers.workflowNodeType := SearchHandlers.workflowNodeType r;
     SearchHandlers.displayName := SearchHandlers.displayName r;
     SearchHandlers.r_description := SearchHandlers.r_description r;
     SearchHandlers.r_category := SearchHandlers.r_category r;
     SearchHandlers.package := SearchHandlers.package r;
     SearchHandlers.relevance := SearchHandlers.relevance r;
     SearchHandlers.isCommunity := SearchHandlers.isCommunity r;
     SearchHandlers.isVerified := SearchHandlers.isVerified r;
     SearchHandlers.authorName := SearchHandlers.authorName r;
     SearchHandlers.npmDownloads := SearchHandlers.npmDownloads r;
     SearchHandlers.examples := None |}.

(** An answer with the examples taken off every result. *)
Definition eraseExamples (r : SearchHandlers.SearchResult) : SearchHandlers.SearchResult :=
  {| SearchHandlers.query := SearchHandlers.query r;
     SearchHandlers.results := withoutExamples <$> SearchHandlers.results r;
     SearchHandlers.totalCount := SearchHandlers.totalCount r;
     SearchHandlers.mode := SearchHandlers.mode r |}.
End Results.

(** The same options with [includeExamples] set to [b]. *)
Definition setIncludeExamples (b : bool) (options : SearchOptions) : SearchOptions :=
  {| opt_mode := opt_mode options;
     opt_includeExamples := b;
     opt_source := opt_source options |}.

(** A candidate the fuzzy strategy is meant to find for the query [q]: the
    lower-cased query is contained in its lower-cased display name or its
    prefix-stripped node type, or is within two single-character edits of
    the display name, one of its words or the node type. *)
Definition nearMatch (q : string) (node : NodeRow) : Prop :=
  let queryLower := toLowerCase q in
  let displayNameLower := toLowerCase (display_name node) in
  let nodeTypeClean := SearchHandlers.typeWithoutPrefix node in
  includes displayNameLower queryLower = true
  ∨ includes nodeTypeClean queryLower = true
  ∨ EditDistance.getEditDistance queryLower displayNameLower ≤ 2
  ∨ EditDistance.getEditDistance queryLower nodeTypeClean ≤ 2
  ∨ (∃ word, word ∈ split_ws displayNameLower
             ∧ EditDistance.getEditDistance queryLower word ≤ 2).

(** The scores the rules on the display name, the node type and the
    description give when they match by equality or as a substring. *)
Definition substringScores : list nat := [1000; 950; 800; 600; 500].

End Invariants.

(** * Theorems *)

Import Properties.

(** ** The edit distance *)

Section EditDistanceFacts.
Import EditDistance.
Context {A : Type} `{EqDecision A}.
Implicit Types (s t u l r : list A) (dp : table).

(** *** The table as a two-dimensional array *)


Lemma rect_init m n : rect m n (init_table m n).
Proof.
  split; [apply length_replicate|].
  intros i row [-> _]%lookup_replicate. apply length_replicate.
Qed.

Lemma rect_set m n dp i j v : rect m n dp → rect m n (set dp i j v).
Proof.
  intros [Hlen Hrow]. split; [unfold set; by rewrite length_alter|].
  intros k row. unfold set. rewrite list_lookup_alter.
  destruct (decide (i = k)) as [->|]; [|by apply Hrow].
  destruct (dp !! k) as [row'|] eqn:E; [|done].
  intros [= <-]. rewrite length_insert. by eapply Hrow.
Qed.

Lemma get_set_eq m n dp i j v :
  rect m n dp → i ≤ m → j ≤ n → get (set dp i j v) i j = v.
Proof.
  intros [Hlen Hrow] Hi Hj. unfold get, set.
  rewrite list_lookup_alter_eq.
  destruct (lookup_lt_is_Some_2 dp i) as [row E]; [lia|].
  rewrite E. simpl. rewrite list_lookup_insert_eq; [done|].
  rewrite (Hrow _ _ E). lia.
Qed.

Lemma get_set_ne dp i j v a b :
  (a ≠ i ∨ b ≠ j) → get (set dp i j v) a b = get dp a b.
Proof.
  intros Hne. unfold get, set. rewrite list_lookup_alter.
  destruct (decide (i = a)) as [->|]; [|done].
  destruct (dp !! a) as [row|]; [|done]. simpl.
  rewrite list_lookup_insert_ne; [done|]. intros ->. by destruct Hne.
Qed.

(** A counting loop [for (k = start; k < start + len; k++)] keeps an
    invariant indexed by the loop counter. *)
Lemma foldl_seq_invariant {S : Type} (P : nat → S → Prop) (f : S → nat → S)
    (start len : nat) (st : S) :
  P start st →
  (∀ k st, start ≤ k < start + len → P k st → P (1 + k) (f st k)) →
  P (start + len) (foldl f st (seq start len)).
Proof.
  revert st. induction len as [|len IH]; intros st H0 Hstep.
  - by rewrite Nat.add_0_r.
  - rewrite seq_S, foldl_app. simpl.
    replace (start + Datatypes.S len) with (1 + (start + len)) by lia.
    apply Hstep; [lia|]. apply IH; [done|].
    intros k st' Hk. apply Hstep. lia.
Qed.

(** *** The loops fill the table with the prefix recurrence *)

Lemma prefix_dist_0_r s1 s2 i : prefix_dist s1 s2 i 0 = i.
Proof. by destruct i. Qed.

Lemma prefix_dist_S s1 s2 i j :
  prefix_dist s1 s2 (S i) (S j) =
  if decide (s1 !! i = s2 !! j)
  then prefix_dist s1 s2 i j
  else 1 + min3 (prefix_dist s1 s2 i (S j)) (prefix_dist s1 s2 (S i) j)
                (prefix_dist s1 s2 i j).
Proof. reflexivity. Qed.

Section Loops.
Variables (s1 s2 : list A) (m n : nat).
#[local] Abbreviation filled := (Properties.filled s1 s2 m n).

Lemma fill_col0_spec dp :
  rect m n dp →
  rect m n (fill_col0 m dp) ∧
  ∀ a, a ≤ m → get (fill_col0 m dp) a 0 = a.
Proof.
  intros Hr. unfold fill_col0.
  pose proof (foldl_seq_invariant
    (λ k dp, rect m n dp ∧ ∀ a, a < k → get dp a 0 = a)
    (λ dp i, set dp i 0 i) 0 (S m) dp) as Hinv.
  destruct Hinv as [Hr' Hget].
  - split; [done|]. intros a Ha. lia.
  - intros k st Hk [Hrk Hgk]. split; [by apply rect_set|].
    intros a Ha. destruct (decide (a = k)) as [->|].
    + eapply get_set_eq; [done|lia|lia].
    + rewrite get_set_ne by auto. apply Hgk. lia.
  - split; [done|]. intros a Ha. apply Hget. lia.
Qed.

Lemma fill_row0_spec dp :
  rect m n dp → (∀ a, a ≤ m → get dp a 0 = a) →
  rect m n (fill_row0 n dp) ∧
  (∀ a, a ≤ m → get (fill_row0 n dp) a 0 = a) ∧
  (∀ b, b ≤ n → get (fill_row0 n dp) 0 b = b).
Proof.
  intros Hr Hcol. unfold fill_row0.
  pose proof (foldl_seq_invariant
    (λ k dp, rect m n dp ∧ (∀ a, a ≤ m → get dp a 0 = a) ∧
             ∀ b, b < k → get dp 0 b = b)
    (λ dp j, set dp 0 j j) 0 (S n) dp) as Hinv.
  destruct Hinv as (Hr' & Hc & Hget).
  - split; [done|]. split; [done|]. intros b Hb. lia.
  - intros k st Hk (Hrk & Hck & Hgk). split; [by apply rect_set|]. split.
    + intros a Ha. destruct (decide (a = 0 ∧ k = 0)) as [[-> ->]|Hne].
      * eapply get_set_eq; [done|lia|lia].
      * rewrite get_set_ne by lia. by apply Hck.
    + intros b Hb. destruct (decide (b = k)) as [->|].
      * eapply get_set_eq; [done|lia|lia].
      * rewrite get_set_ne by auto. apply Hgk. lia.
  - split; [done|]. split; [done|]. intros b Hb. apply Hget. lia.
Qed.


Lemma filled_cell i j dp :
  1 ≤ i ≤ m → 1 ≤ j ≤ n → filled i j dp →
  filled i (1 + j) (set dp i j (cell s1 s2 dp i j)).
Proof.
  intros Hi Hj [Hr Hf]. split; [by apply rect_set|].
  intros a b Ha Hb Hab.
  destruct (decide (a = i ∧ b = j)) as [[-> ->]|Hne].
  - erewrite get_set_eq by done.
    destruct i as [|i']; [lia|]. destruct j as [|j']; [lia|].
    rewrite prefix_dist_S. unfold cell. simpl.
    rewrite !Nat.sub_0_r.
    rewrite !Hf by lia. done.
  - rewrite get_set_ne by lia. apply Hf; [done|done|lia].
Qed.

Lemma filled_line i dp :
  1 ≤ i ≤ m → filled i 1 dp → filled (1 + i) 1 (fill_line s1 s2 n dp i).
Proof.
  intros Hi Hf. unfold fill_line.
  pose proof (foldl_seq_invariant (filled i)
    (λ dp j, set dp i j (cell s1 s2 dp i j)) 1 n dp Hf) as Hinv.
  destruct Hinv as [Hr Hg].
  - intros k st Hk Hst. apply filled_cell; [done|lia|done].
  - split; [done|]. intros a b Ha Hb Hab. apply Hg; [done|done|lia].
Qed.

Lemma filled_inner dp :
  filled 1 1 dp → filled (1 + m) 1 (fill_inner s1 s2 m n dp).
Proof.
  intros Hf. unfold fill_inner.
  apply (foldl_seq_invariant (λ i, filled i 1)); [done|].
  intros k st Hk Hst. apply filled_line; [lia|done].
Qed.
End Loops.

Lemma distance_prefix_dist (s1 s2 : list A) :
  distance s1 s2 = prefix_dist s1 s2 (length s1) (length s2).
Proof.
  unfold distance.
  set (m := length s1). set (n := length s2).
  destruct (fill_col0_spec m n _ (rect_init m n)) as [Hr0 Hc0].
  destruct (fill_row0_spec m n _ Hr0 Hc0) as (Hr1 & Hc1 & Hl1).
  destruct (filled_inner s1 s2 m n (fill_row0 n (fill_col0 m (init_table m n))))
    as [_ Hres].
  - split; [done|]. intros a b Ha Hb Hab.
    destruct (decide (a = 0)) as [->|]; [by rewrite Hl1|].
    assert (b = 0) as -> by lia.
    by rewrite Hc1, prefix_dist_0_r.
  - apply Hres; lia.
Qed.

(** *** The Levenshtein recursion *)

Lemma lev_nil_r s : lev s [] = length s.
Proof. by destruct s. Qed.

Lemma lev_cons a b s t :
  lev (a :: s) (b :: t) =
  min3 (S (lev s (b :: t))) (S (lev (a :: s) t)) (subst_cost a b + lev s t).
Proof. reflexivity. Qed.

Lemma subst_cost_sym (a b : A) : subst_cost a b = subst_cost b a.
Proof. unfold subst_cost. repeat case_decide; congruence. Qed.

Lemma subst_cost_le (a b : A) : subst_cost a b ≤ 1.
Proof. unfold subst_cost. case_decide; lia. Qed.

Lemma lev_sym s t : lev s t = lev t s.
Proof.
  revert t. induction s as [|a s IHs]; intros t.
  - by rewrite lev_nil_r.
  - induction t as [|b t IHt]; [done|].
    rewrite !lev_cons, IHt, (IHs (b :: t)), (IHs t), (subst_cost_sym a b).
    unfold min3. lia.
Qed.

(** Dropping the first character of the source costs at most one edit,
    and so does prepending a character to the target. *)
Lemma lev_delete_head a s t : lev (a :: s) t ≤ S (lev s t).
Proof.
  destruct t as [|b t]; [by rewrite !lev_nil_r|].
  rewrite lev_cons. unfold min3. lia.
Qed.

Lemma lev_insert_target b s t : lev s (b :: t) ≤ S (lev s t).
Proof. rewrite (lev_sym s (b :: t)), (lev_sym s t). apply lev_delete_head. Qed.

Lemma lev_insert_head a s t : lev s t ≤ S (lev (a :: s) t).
Proof.
  induction t as [|b t IHt].
  - rewrite !lev_nil_r. simpl. lia.
  - rewrite lev_cons.
    pose proof (lev_insert_target b s t).
    pose proof (subst_cost_le a b). unfold min3. lia.
Qed.

Lemma lev_subst_head a b s t : lev (a :: s) t ≤ S (lev (b :: s) t).
Proof.
  induction t as [|c t IHt]; [by rewrite !lev_nil_r; simpl; lia|].
  rewrite !lev_cons.
  pose proof (subst_cost_le a c). unfold min3. lia.
Qed.

Lemma lev_cons_context x s u :
  (∀ t, lev s t ≤ S (lev u t)) → ∀ t, lev (x :: s) t ≤ S (lev (x :: u) t).
Proof.
  intros Hsu t. induction t as [|c t IHt].
  - rewrite !lev_nil_r. specialize (Hsu []). rewrite !lev_nil_r in Hsu.
    simpl. lia.
  - rewrite !lev_cons.
    pose proof (Hsu (c :: t)). pose proof (Hsu t). unfold min3. lia.
Qed.

(** One edit of the source moves the distance to any target by at most
    one. *)
Lemma lev_edit1 s u t : edit1 s u → lev s t ≤ S (lev u t).
Proof.
  intros Hed. revert t.
  destruct Hed as [l r a|l r a|l r a b Hab];
    (induction l as [|x l IHl]; [|by apply lev_cons_context]); intros t; simpl.
  - apply lev_insert_head.
  - apply lev_delete_head.
  - apply lev_subst_head.
Qed.

Lemma lev_diag a s t : lev (a :: s) (a :: t) = lev s t.
Proof.
  rewrite lev_cons. unfold subst_cost. rewrite decide_True by done.
  pose proof (lev_insert_target a s t).
  pose proof (lev_insert_head a s t).
  assert (lev s t ≤ S (lev s (a :: t))).
  { rewrite (lev_sym s t), (lev_sym s (a :: t)). apply lev_insert_head. }
  unfold min3. lia.
Qed.

Lemma lev_refl s : lev s s = 0.
Proof. induction s as [|a s IH]; [done|]. by rewrite lev_diag. Qed.

(** *** Edit scripts *)

Lemma edit1_cons x s u : edit1 s u → edit1 (x :: s) (x :: u).
Proof.
  intros [l r a|l r a|l r a b Hab].
  - apply (edit_insert (x :: l)).
  - apply (edit_delete (x :: l)).
  - by apply (edit_subst (x :: l)).
Qed.

Lemma edit1_sym s u : edit1 s u → edit1 u s.
Proof.
  intros [l r a|l r a|l r a b Hab].
  - apply edit_delete.
  - apply edit_insert.
  - by apply edit_subst.
Qed.

Lemma edit1_reverse s u : edit1 s u → edit1 (reverse s) (reverse u).
Proof.
  intros [l r a|l r a|l r a b Hab];
    rewrite ?reverse_app, ?reverse_cons, <- ?(assoc_L (++)); simpl.
  - apply edit_insert.
  - apply edit_delete.
  - by apply edit_subst.
Qed.

Lemma edits_cons x n s t : edits n s t → edits n (x :: s) (x :: t).
Proof.
  induction 1 as [s|n s u t Hed _ IH]; [constructor|].
  eapply edits_step; [by apply edit1_cons|done].
Qed.

Lemma edits_snoc n s u t : edits n s u → edit1 u t → edits (S n) s t.
Proof.
  induction 1 as [s|n s u' u Hed _ IH]; intros Hut.
  - eapply edits_step; [done|constructor].
  - eapply edits_step; [done|by apply IH].
Qed.

Lemma edits_sym n s t : edits n s t → edits n t s.
Proof.
  induction 1 as [s|n s u t Hed _ IH]; [constructor|].
  eapply edits_snoc; [done|by apply edit1_sym].
Qed.

Lemma edits_reverse n s t : edits n s t → edits n (reverse s) (reverse t).
Proof.
  induction 1 as [s|n s u t Hed _ IH]; [constructor|].
  eapply edits_step; [by apply edit1_reverse|done].
Qed.

Lemma edits_0 s t : edits 0 s t → s = t.
Proof. by inversion 1. Qed.

Lemma edits_from_nil t : edits (length t) [] t.
Proof.
  induction t as [|b t IH]; [constructor|]. simpl.
  eapply edits_step; [apply (edit_insert [] [] b)|]. by apply edits_cons.
Qed.

Lemma edits_to_nil s : edits (length s) s [].
Proof. apply edits_sym, edits_from_nil. Qed.

(** The recursion is reached by a script ... *)
Lemma lev_edits s t : edits (lev s t) s t.
Proof.
  revert t. induction s as [|a s IHs]; intros t; [apply edits_from_nil|].
  induction t as [|b t IHt]; [rewrite lev_nil_r; apply edits_to_nil|].
  rewrite lev_cons. unfold min3.
  destruct (Nat.min_spec (S (lev s (b :: t)) `min` S (lev (a :: s) t))
              (subst_cost a b + lev s t)) as [[_ ->]|[_ ->]].
  - destruct (Nat.min_spec (S (lev s (b :: t))) (S (lev (a :: s) t)))
      as [[_ ->]|[_ ->]].
    + eapply edits_step; [apply (edit_delete [] s a)|]. apply IHs.
    + eapply edits_step; [apply (edit_insert [] (a :: s) b)|].
      by apply edits_cons.
  - unfold subst_cost. case_decide as Hab; simpl.
    + subst b. apply edits_cons, IHs.
    + eapply edits_step; [by apply (edit_subst [] s a b)|].
      apply edits_cons, IHs.
Qed.

(** ... and no script is shorter. *)
Lemma edits_lev n s t : edits n s t → lev s t ≤ n.
Proof.
  induction 1 as [s|n s u t Hed _ IH]; [by rewrite lev_refl|].
  pose proof (lev_edit1 s u t Hed). lia.
Qed.

Lemma lev_reverse s t : lev (reverse s) (reverse t) = lev s t.
Proof.
  apply Nat.le_antisymm.
  - apply edits_lev, edits_reverse, lev_edits.
  - rewrite <- (reverse_involutive s), <- (reverse_involutive t) at 1.
    apply edits_lev, edits_reverse, lev_edits.
Qed.

(** *** The table computes the recursion *)

Lemma prefix_dist_lev (s1 s2 : list A) i j :
  i ≤ length s1 → j ≤ length s2 →
  prefix_dist s1 s2 i j = lev (reverse (take i s1)) (reverse (take j s2)).
Proof.
  revert j. induction i as [|i IHi]; intros j Hi Hj.
  - simpl. by rewrite length_reverse, length_take_le.
  - induction j as [|j IHj].
    + rewrite prefix_dist_0_r, lev_nil_r.
      by rewrite length_reverse, length_take_le.
    + rewrite prefix_dist_S.
      destruct (lookup_lt_is_Some_2 s1 i) as [x Hx]; [lia|].
      destruct (lookup_lt_is_Some_2 s2 j) as [y Hy]; [lia|].
      rewrite (take_S_r s1 i x Hx), (take_S_r s2 j y Hy) in *.
      rewrite !reverse_snoc in *. rewrite Hx, Hy.
      rewrite IHj by lia. rewrite !IHi by lia.
      rewrite (take_S_r s2 j y Hy), reverse_snoc.
      case_decide as Hxy.
      * injection Hxy as ->. by rewrite lev_diag.
      * rewrite lev_cons. unfold subst_cost.
        rewrite decide_False by congruence. unfold min3. lia.
Qed.

Lemma distance_lev (s1 s2 : list A) : distance s1 s2 = lev s1 s2.
Proof.
  rewrite distance_prefix_dist, prefix_dist_lev by done.
  by rewrite !firstn_all, lev_reverse.
Qed.
End EditDistanceFacts.

(** C8.  For all strings [s1] and [s2], [getEditDistance s1 s2] is the
    Levenshtein distance between them: some sequence of that many
    single-character insertions, deletions and substitutions transforms
    [s1] into [s2], and no sequence of such edits doing so is shorter.  In
    particular the distance is 0 exactly when the strings are equal, and it
    is symmetric in its arguments. *)
Theorem getEditDistance_is_levenshtein (s1 s2 : string) :
  EditDistance.edits (EditDistance.getEditDistance s1 s2)
    (list_ascii_of_string s1) (list_ascii_of_string s2)
  ∧ (∀ n, EditDistance.edits n (list_ascii_of_string s1) (list_ascii_of_string s2) →
          EditDistance.getEditDistance s1 s2 ≤ n)
  ∧ (EditDistance.getEditDistance s1 s2 = 0 ↔ s1 = s2)
  ∧ EditDistance.getEditDistance s1 s2 = EditDistance.getEditDistance s2 s1.
Proof.
  unfold EditDistance.getEditDistance. rewrite !distance_lev.
  split; [apply lev_edits|]. split; [intros n; apply edits_lev|]. split.
  - split.
    + intros H0. pose proof (lev_edits (list_ascii_of_string s1)
                                       (list_ascii_of_string s2)) as Hed.
      rewrite H0 in Hed. apply edits_0 in Hed.
      rewrite <- (string_of_list_ascii_of_string s1),
              <- (string_of_list_ascii_of_string s2).
      by rewrite Hed.
    + intros ->. apply lev_refl.
  - apply lev_sym.
Qed.

(** ** Node lookup *)

Section LookupFacts.
Import NodeHandlers.
Context `{DatabaseAdapter} `{NodeRepository} `{Services} `{Runtime}.


Lemma firstFound_None (alternatives : list string) :
  firstFound alternatives = None ↔ ∀ alt, alt ∈ alternatives → getNode alt = None.
Proof.
  induction alternatives as [|alt rest IH]; simpl.
  - split; [|done]. intros _ alt Halt. by apply not_elem_of_nil in Halt.
  - destruct (getNode alt) as [found|] eqn:E.
    + split; [done|]. intros Hall. specialize (Hall alt). rewrite E in Hall.
      discriminate Hall. by left.
    + rewrite IH. split.
      * intros Hrest a [->|Ha]%elem_of_cons; auto.
      * intros Hall a Ha. apply Hall. by right.
Qed.

Lemma resolveNode_None (nodeType : string) :
  resolveNode nodeType = None ↔ allLookupsMiss nodeType.
Proof.
  unfold resolveNode, allLookupsMiss.
  destruct (getNode (normalizeToFullForm nodeType)) as [node|] eqn:Hnorm.
  { split; [done|]. by intros [? _]. }
  case_bool_decide as Hne.
  - destruct (getNode nodeType) as [node|] eqn:Horig.
    + split; [done|]. by intros (_ & ? & _).
    + rewrite firstFound_None. split; [done|]. by intros (_ & _ & ?).
  - rewrite <- Hne, Hnorm, firstFound_None. split; [done|]. by intros (_ & _ & ?).
Qed.

Lemma lookup_miss (nodeType : string) :
  allLookupsMiss nodeType → lookup nodeType = Throws (notFound nodeType).
Proof. intros Hmiss%resolveNode_None. unfold lookup. by rewrite Hmiss. Qed.

Lemma lookup_hit (nodeType : string) :
  ¬ allLookupsMiss nodeType → ∃ node, lookup nodeType = Returns node.
Proof.
  rewrite <- resolveNode_None. unfold lookup.
  destruct (resolveNode nodeType) as [node|]; [eauto|done].
Qed.

(** C9.  When the repository knows none of the identifiers tried for
    [nodeType] (its normalized form, its original form, its alternatives),
    validating a config, validating minimally, searching the properties
    (handler function and [NodeSearchHandler] method) and getting the node
    info all throw [Node <nodeType> not found]; when one of the lookups
    succeeds, each of them returns a result. *)
Theorem lookup_miss_is_the_only_error (nodeType : string)
    (config : gmap string JsValue) (mode : ValidationMode)
    (profile : ValidationProfile) (q : string) (maxResults : nat) :
  (allLookupsMiss nodeType →
     validateNodeConfig nodeType config mode profile
       = Throws ("Node " +:+ nodeType +:+ " not found")
     ∧ validateNodeMinimal nodeType config
       = Throws ("Node " +:+ nodeType +:+ " not found")
     ∧ searchNodeProperties nodeType q maxResults
       = Throws ("Node " +:+ nodeType +:+ " not found")
     ∧ NodeSearchHandler.searchNodeProperties nodeType q maxResults
       = Throws ("Node " +:+ nodeType +:+ " not found")
     ∧ getNodeInfo nodeType = Throws ("Node " +:+ nodeType +:+ " not found"))
  ∧ (¬ allLookupsMiss nodeType →
     returns (validateNodeConfig nodeType config mode profile)
     ∧ returns (validateNodeMinimal nodeType config)
     ∧ returns (searchNodeProperties nodeType q maxResults)
     ∧ returns (NodeSearchHandler.searchNodeProperties nodeType q maxResults)
     ∧ returns (getNodeInfo nodeType)).
Proof.
  split.
  - intros Hmiss%lookup_miss.
    unfold validateNodeConfig, validateNodeMinimal, searchNodeProperties,
      NodeSearchHandler.searchNodeProperties, getNodeInfo.
    rewrite Hmiss. done.
  - intros [node Hhit]%lookup_hit.
    unfold validateNodeConfig, validateNodeMinimal, searchNodeProperties,
      NodeSearchHandler.searchNodeProperties, getNodeInfo, returns.
    rewrite Hhit. simpl. eauto 10.
Qed.
End LookupFacts.

Section LookupExamples.
Import NodeHandlers Fixtures.
#[local] Existing Instance sampleRepository.
#[local] Existing Instance sampleServices.
#[local] Existing Instance sampleRuntime.

(** Both cases occur on the fixtures: the sample repository does not know
    the Slack node and knows the HTTP Request node under its short
    identifier only. *)
Example lookup_outcomes :
  allLookupsMiss "nodes-base.slack"
  ∧ validateNodeMinimal "nodes-base.slack" ∅
    = Throws "Node nodes-base.slack not found"
  ∧ ¬ allLookupsMiss "n8n-nodes-base.httpRequest"
  ∧ (n_nodeType ∘ info_node <$> getNodeInfo "n8n-nodes-base.httpRequest")
    = Returns "nodes-base.httpRequest".
Proof.
  split; [|split; [done|split; [|done]]].
  - split; [done|]. split; [done|].
    intros alt ->%list_elem_of_singleton. done.
  - intros [Hnormalized _]. discriminate Hnormalized.
Qed.
End LookupExamples.

(** ** The tool layer: [validate_node] with a config that is not an object *)

Section ToolExecutionFacts.
Import ToolExecution.


Lemma validateToolParams_present callback args nodeType config :
  callbackAccepts callback args →
  args !! "nodeType" = Some nodeType → present nodeType →
  args !! "config" = Some config → present config →
  validateToolParams callback "validate_node" args ["nodeType"; "config"]
  = Returns ().
Proof.
  intros Hcb HnodeType [Hn1 Hn2] Hconfig [Hc1 Hc2].
  unfold validateToolParams.
  assert (match callback with
          | Some callback => callback "validate_node" args ["nodeType"; "config"]
          | None => Returns ()
          end = Returns ()) as ->.
  { destruct callback as [cb|]; [by apply Hcb|done]. }
  cbn [checkRequiredParams mbind outcome_bind obind].
  unfold hasProperty, nullishAt. rewrite HnodeType, Hconfig.
  rewrite !bool_decide_eq_true_2 by by eexists.
  destruct nodeType; try done; destruct config; done.
Qed.

(** C10, as far as the code goes.  For every [validate_node] call whose
    [nodeType] and [config] arguments are present, whose parameter callback
    (if any) accepts them, and whose [config] is not an object (a string, a
    number or a boolean), [executeTool] answers by itself, without calling
    a validation handler and without throwing: in minimal mode with
    [valid = false] and the two messages about the config format in
    [missingRequiredFields], otherwise with [valid = false], exactly one
    error, of type [config], and no warnings. *)
Theorem validate_node_rejects_non_object_config
    (callback : option (string → gmap string JsValue → list string → outcome unit))
    (args : gmap string JsValue) (nodeType config : JsValue) :
  callbackAccepts callback args →
  args !! "nodeType" = Some nodeType → present nodeType →
  args !! "config" = Some config → present config →
  typeofObject config = false →
  ∃ d, executeValidateNode callback args = Returns d
       ∧ invokesValidator d = false
       ∧ match d with
         | AnswerMinimal r =>
             isMinimalMode args = true
             ∧ icm_valid r = false
             ∧ icm_missingRequiredFields r = minimalMessages
         | AnswerFull r =>
             isMinimalMode args = false
             ∧ icf_valid r = false
             ∧ (∃ e, icf_errors r = [e] ∧ f_type e = "config")
             ∧ icf_warnings r = []
         | _ => False
         end.
Proof.
  intros Hcb HnodeType Hn Hconfig Hc Hobj.
  unfold executeValidateNode.
  rewrite (validateToolParams_present _ _ _ _ Hcb HnodeType Hn Hconfig Hc).
  simpl. rewrite Hconfig. simpl. rewrite Hobj. simpl.
  destruct (isMinimalMode args) eqn:Hmode.
  - eexists. split; [done|]. by repeat split.
  - eexists. split; [done|]. repeat split. by eexists.
Qed.

(** The theorem above at [{nodeType: "nodes-base.slack", config: "oops"}]. *)
Lemma validate_node_rejects_non_object_config_witness :
  ∃ d, executeValidateNode None
         {[ "nodeType" := JStr "nodes-base.slack"; "config" := JStr "oops" ]}
       = Returns d ∧ invokesValidator d = false.
Proof.
  destruct (validate_node_rejects_non_object_config None
              {[ "nodeType" := JStr "nodes-base.slack"; "config" := JStr "oops" ]}
              (JStr "nodes-base.slack") (JStr "oops"))
    as (d & Hd & Hno & _).
  - intros cb Hcb. discriminate Hcb.
  - reflexivity.
  - split; discriminate.
  - reflexivity.
  - split; discriminate.
  - reflexivity.
  - exists d. by split.
Defined.

(** C10 as stated fails for a [null] config: the check of the required
    parameters throws before the config's type is looked at. *)
Lemma validate_node_null_config_throws :
  typeofObject JNull = true ∧ isNull JNull = true
  ∧ executeValidateNode None
      {[ "nodeType" := JStr "nodes-base.slack"; "config" := JNull ]}
    = Throws "Missing required parameter 'config' for tool 'validate_node'".
Proof. repeat split. Qed.
End ToolExecutionFacts.

(** ** Validity and the list of errors *)

Section ValidityFacts.
Import NodeHandlers WorkflowHandlers ToolExecution.
Context `{NodeRepository} `{Services} `{Runtime}.


Lemma validateWorkflow_errors_present (workflow options : JsValue) (es : list ResponseIssue) :
  validatorsConsistent →
  errors (validateWorkflow workflow options) = Some es →
  (valid (validateWorkflow workflow options) = true ↔ es = []).
Proof.
  intros [_ Hwf]. unfold validateWorkflow.
  repeat (match goal with
          | |- context [if ?b then _ else _] =>
              destruct b; [simpl; intros [= <-]; done|]
          end).
  destruct (validateWorkflowService workflow options) as [result|msg] eqn:E;
    simpl; [|done].
  intros [= <-]. rewrite (Hwf _ _ _ E).
  destruct (w_errors result); simpl; done.
Qed.

Lemma validateWorkflow_errors_absent (workflow options : JsValue) :
  errors (validateWorkflow workflow options) = None →
  valid (validateWorkflow workflow options) = false
  ∧ ∃ message, validateWorkflowService workflow options = Throws message
               ∧ error (validateWorkflow workflow options) = Some message.
Proof.
  unfold validateWorkflow.
  repeat (match goal with
          | |- context [if ?b then _ else _] => destruct b; [done|]
          end).
  destruct (validateWorkflowService workflow options) as [result|msg]; simpl;
    [done|eauto].
Qed.

(** C2, as far as the code goes.  With validators that keep their
    contract, every result that carries a list of error findings has
    [valid = true] exactly when that list is empty: the results of
    [validateNodeMinimal] (list [missingRequiredFields]), of
    [validateNodeConfig], of [validateWorkflow] when it has an [errors]
    member, and the answers of the tool layer to a malformed config.
    Warnings and suggestions play no part.  The one result without such a
    list is the answer of [validateWorkflow] to an exception of the
    workflow validator: it has [valid = false] and the exception's message
    in [error]. *)
Theorem valid_iff_no_errors
    (nodeType : string) (config : gmap string JsValue)
    (mode : ValidationMode) (profile : ValidationProfile)
    (workflow options : JsValue)
    (callback : option (string → gmap string JsValue → list string → outcome unit))
    (args : gmap string JsValue) :
  validatorsConsistent →
  (∀ r, validateNodeMinimal nodeType config = Returns r →
        (min_valid r = true ↔ missingRequiredFields r = []))
  ∧ (∀ r, validateNodeConfig nodeType config mode profile = Returns r →
          (v_valid (cfg_validation r) = true ↔ v_errors (cfg_validation r) = [])
          ∧ hasErrors (cfg_summary r) = negb (v_valid (cfg_validation r))
          ∧ errorCount (cfg_summary r) = length (v_errors (cfg_validation r)))
  ∧ (∀ es, errors (validateWorkflow workflow options) = Some es →
           (valid (validateWorkflow workflow options) = true ↔ es = []))
  ∧ (errors (validateWorkflow workflow options) = None →
       valid (validateWorkflow workflow options) = false
       ∧ ∃ message, validateWorkflowService workflow options = Throws message
                    ∧ error (validateWorkflow workflow options) = Some message)
  ∧ (∀ d, executeValidateNode callback args = Returns d →
          match d with
          | AnswerMinimal r =>
              icm_valid r = true ↔ icm_missingRequiredFields r = []
          | AnswerFull r => icf_valid r = true ↔ icf_errors r = []
          | _ => True
          end).
Proof.
  intros Hok. split; [|split; [|split; [|split]]].
  - intros r. unfold validateNodeMinimal.
    destruct (lookup nodeType) as [node|]; simpl; [|done].
    intros [= <-]. simpl. rewrite bool_decide_eq_true.
    by destruct (missingFieldsOf node config).
  - intros r. unfold validateNodeConfig.
    destruct (lookup nodeType) as [node|]; simpl; [|done].
    intros [= <-]. simpl. split; [apply Hok|done].
  - intros es. by apply validateWorkflow_errors_present.
  - apply validateWorkflow_errors_absent.
  - intros d. unfold executeValidateNode.
    destruct (validateToolParams _ _ _ _); simpl; [|done].
    repeat (match goal with
            | |- context [if ?b then _ else _] => destruct b
            end); intros [= <-]; done.
Qed.
End ValidityFacts.

(** The validators of the fixtures keep their contract. *)
Lemma sample_validators_consistent :
  @validatorsConsistent Fixtures.sampleServices.
Proof.
  split; [done|].
  intros workflow options result. simpl. unfold Fixtures.sampleWorkflowValidator.
  destruct options; destruct (member workflow "nodes") as [| | | | |[|node nodes]|];
    intros [= <-]; done.
Qed.

(** The theorem above on the fixtures: the one-node workflow is valid and
    its list of errors is empty. *)
Lemma valid_iff_no_errors_witness :
  @validatorsConsistent Fixtures.sampleServices
  ∧ @WorkflowHandlers.errors
      (@WorkflowHandlers.validateWorkflow Fixtures.sampleServices
         Fixtures.sampleWorkflow JUndefined) = Some []
  ∧ @WorkflowHandlers.valid
      (@WorkflowHandlers.validateWorkflow Fixtures.sampleServices
         Fixtures.sampleWorkflow JUndefined) = true.
Proof.
  split; [apply sample_validators_consistent|].
  split; [reflexivity|].
  destruct (@valid_iff_no_errors Fixtures.sampleRepository Fixtures.sampleServices
              Fixtures.sampleRuntime "nodes-base.httpRequest" ∅ ModeFull
              ProfileRuntime Fixtures.sampleWorkflow JUndefined None ∅
              sample_validators_consistent)
    as (_ & _ & Hworkflow & _).
  apply (Hworkflow []); reflexivity.
Defined.

(** C2 as stated fails when the workflow validator throws: the answer has
    [valid = false] although it lists no error finding. *)
Lemma validateWorkflow_exception_has_no_errors_list :
  let r := @WorkflowHandlers.validateWorkflow Fixtures.sampleServices
             Fixtures.sampleWorkflow (JStr "strict") in
  WorkflowHandlers.valid r = false
  ∧ WorkflowHandlers.errors r = None
  ∧ ¬ (WorkflowHandlers.valid r = true
       ↔ default [] (WorkflowHandlers.errors r) = []).
Proof.
  simpl. split; [done|]. split; [done|]. intros [_ Hempty].
  discriminate Hempty. reflexivity.
Qed.

(** ** Minimal validation *)

Section MinimalValidationFacts.
Import JS NodeHandlers.
Context `{NodeRepository} `{Services} `{Runtime}.


Lemma checkRequired_step working config missingFields prop :
  checkRequired working config missingFields prop
  = missingFields ++ (if reportedMissing working config prop
                      then [fieldLabel prop] else []).
Proof.
  assert (negb (hasProperty config (p_name prop))
          = bool_decide (config !! p_name prop = None)
            && bool_decide (p_name prop ∉ objectPrototypeMembers)) as Hin.
  { unfold hasProperty. rewrite negb_orb. f_equal.
    - destruct (config !! p_name prop).
      + rewrite bool_decide_eq_true_2 by by eexists.
        by rewrite bool_decide_eq_false_2.
      + rewrite bool_decide_eq_false_2 by by intros [? ?].
        by rewrite bool_decide_eq_true_2.
    - by repeat case_bool_decide. }
  unfold checkRequired, reportedMissing, visibleUnder, fieldLabel.
  rewrite Hin, <- !andb_assoc.
  destruct (p_required prop); simpl; [|by rewrite app_nil_r].
  destruct (p_displayOptions prop) as [d|]; simpl.
  - destruct (isPropertyVisible prop working); simpl; [|by rewrite app_nil_r].
    destruct (_ && _); [done|by rewrite app_nil_r].
  - destruct (_ && _); [done|by rewrite app_nil_r].
Qed.

Lemma foldl_checkRequired working config properties missingFields :
  foldl (checkRequired working config) missingFields properties
  = missingFields
    ++ (fieldLabel <$> filter (λ p, reportedMissing working config p = true) properties).
Proof.
  revert missingFields. induction properties as [|prop rest IH]; intros acc; simpl.
  - by rewrite app_nil_r.
  - rewrite IH, checkRequired_step, filter_cons.
    destruct (reportedMissing working config prop) eqn:E.
    + rewrite decide_True by done. by rewrite <- app_assoc.
    + rewrite decide_False by done. by rewrite app_nil_r.
Qed.

Lemma configWithVersion_lookup node config k :
  configWithVersion node config !! k
  = match config !! k with
    | Some v => Some v
    | None => if decide (k = "@version")
              then Some (jsOr (n_version node) (JNum 1)) else None
    end.
Proof.
  unfold configWithVersion. rewrite lookup_union.
  destruct (config !! k) as [v|] eqn:E; simpl.
  - by destruct ({[ "@version" := jsOr (n_version node) (JNum 1) ]} !! k).
  - rewrite (left_id None _). case_decide as Hk.
    + subst k. by rewrite lookup_singleton_eq.
    + by rewrite lookup_singleton_ne.
Qed.

Lemma configWithVersion_fresh node config :
  config !! "@version" = None →
  configWithVersion node config
  = <[ "@version" := jsOr (n_version node) (JNum 1) ]> config.
Proof.
  intros Hfresh. apply map_eq. intros k.
  rewrite configWithVersion_lookup, lookup_insert.
  case_decide as Hk.
  - subst k. rewrite Hfresh. by rewrite decide_True.
  - rewrite decide_False by done. by destruct (config !! k).
Qed.

(** C1, as far as the code goes.  For a node found by the lookup, the
    working config is [config] plus, when [config] has no ['@version'] key
    of its own, ['@version'] set to the node's version (1 when that is
    missing or falsy); [missingRequiredFields] lists, in the order of the
    properties, the [displayName] (or, failing that, the [name]) of exactly
    those properties that are required, visible under the working config
    (no [displayOptions], or [isPropertyVisible] holds) and whose name is
    not in the caller's [config]: neither a key of it nor one of the
    members every object inherits ([constructor], [toString], ...), which
    the [in] operator finds too; a property invisible under the working
    config is never among them. *)
Theorem minimal_validation_reports_visible_required
    (nodeType : string) (config : gmap string JsValue) (node : RepoNode) :
  lookup nodeType = Returns node →
  let working := configWithVersion node config in
  let properties := default [] (n_properties node) in
  (∀ k, working !! k
        = match config !! k with
          | Some v => Some v
          | None => if decide (k = "@version")
                    then Some (jsOr (n_version node) (JNum 1)) else None
          end)
  ∧ (config !! "@version" = None →
     working = <[ "@version" := jsOr (n_version node) (JNum 1) ]> config)
  ∧ (∃ r, validateNodeMinimal nodeType config = Returns r
          ∧ missingRequiredFields r
            = fieldLabel <$> filter (λ p, reportedMissing working config p = true)
                                    properties)
  ∧ (∀ p, visibleUnder working p = false →
          p ∉ filter (λ p, reportedMissing working config p = true) properties).
Proof.
  intros Hnode working properties.
  split; [apply configWithVersion_lookup|].
  split; [apply configWithVersion_fresh|]. split.
  - unfold validateNodeMinimal. rewrite Hnode. simpl. eexists. split; [done|].
    simpl. unfold missingFieldsOf. by rewrite foldl_checkRequired.
  - intros p Hinvisible [Hrep _]%list_elem_of_filter.
    unfold reportedMissing in Hrep. rewrite Hinvisible in Hrep.
    by rewrite andb_false_r in Hrep.
Qed.
End MinimalValidationFacts.

Section MinimalValidationExamples.
Import NodeHandlers Fixtures.
#[local] Existing Instance sampleRepository.
#[local] Existing Instance sampleServices.
#[local] Existing Instance sampleRuntime.

(** The theorem above on the fixtures: with [{resource: "http"}] both
    required properties of the sample node are reported, in order. *)
Lemma minimal_validation_reports_visible_required_witness :
  lookup "n8n-nodes-base.httpRequest" = Returns httpRequestNode
  ∧ ∃ r, validateNodeMinimal "n8n-nodes-base.httpRequest"
           {[ "resource" := JStr "http" ]} = Returns r
         ∧ missingRequiredFields r = ["URL"; "Method"].
Proof.
  assert (lookup "n8n-nodes-base.httpRequest" = Returns httpRequestNode)
    as Hlookup by reflexivity.
  split; [exact Hlookup|].
  destruct (minimal_validation_reports_visible_required
              "n8n-nodes-base.httpRequest" {[ "resource" := JStr "http" ]}
              httpRequestNode Hlookup)
    as (_ & _ & (r & Hr & Hmissing) & _).
  exists r. split; [exact Hr|]. rewrite Hmissing. reflexivity.
Defined.

(** C1 as stated fails when the caller's config has an ['@version'] of
    its own.  The sample node has version 2 and its required [url]
    property is shown for version 2 only; under the config with
    ['@version'] set to the node's version the property is visible and
    [url] is not a key of the config, yet nothing is reported, because the
    caller's ['@version'] of 1 is the one the visibility check sees. *)
Lemma minimal_validation_keeps_caller_version :
  let config : gmap string JsValue := {[ "@version" := JNum 1 ]} in
  let atNodeVersion := <[ "@version" := jsOr (n_version httpRequestNode) (JNum 1) ]> config in
  p_required urlProperty = true
  ∧ isPropertyVisible urlProperty atNodeVersion = true
  ∧ config !! p_name urlProperty = None
  ∧ validateNodeMinimal "nodes-base.httpRequest" config
    = Returns {| min_nodeType := "nodes-base.httpRequest";
                 min_displayName := "HTTP Request";
                 min_valid := true;
                 missingRequiredFields := [] |}.
Proof. repeat split. Qed.
End MinimalValidationExamples.

Section InheritedNameExamples.
Import NodeHandlers Fixtures MoreFixtures.
#[local] Existing Instance inheritedNameRepository.
#[local] Existing Instance sampleServices.
#[local] Existing Instance sampleRuntime.

(** The [in] operator finds inherited members too: of two required
    fields, both visible and both absent from the empty config, the one
    named [constructor] is not reported. *)
Example minimal_validation_inherited_name :
  validateNodeMinimal "nodes-base.inherited" ∅
  = Returns {| min_nodeType := "nodes-base.inherited";
               min_displayName := "Inherited";
               min_valid := false;
               missingRequiredFields := ["Plain"] |}.
Proof. vm_compute. reflexivity. Qed.
End InheritedNameExamples.

(** ** Sorting *)

Section SortFacts.
Import JSArray.
Context `{engine : ArraySort} {A : Type} (cmp : A → A → Z).

#[local] Abbreviation notAfter := (Properties.notAfter cmp).

Lemma insert_Permutation (x : A) (l : list A) : insert cmp x l ≡ₚ x :: l.
Proof.
  induction l as [|y l IH]; simpl; [done|].
  destruct (cmp x y <=? 0)%Z; [done|]. by rewrite IH, Permutation_swap.
Qed.

Lemma stableSort_Permutation (l : list A) : stableSort cmp l ≡ₚ l.
Proof.
  unfold stableSort. induction l as [|x l IH]; simpl; [done|].
  by rewrite insert_Permutation, IH.
Qed.

Lemma sort_Permutation (l : list A) : sort cmp l ≡ₚ l.
Proof. apply sort_permutation. Qed.

Lemma sort_length (l : list A) : length (sort cmp l) = length l.
Proof. by rewrite sort_Permutation. Qed.

Lemma elem_of_sort (x : A) (l : list A) : x ∈ sort cmp l ↔ x ∈ l.
Proof. by rewrite sort_Permutation. Qed.

(** Under a consistent comparator an element stands before or after any
    other, and standing before is transitive. *)
Lemma consistentFor_total (S : A → Prop) (a b : A) :
  consistentFor S cmp → S a → S b → notAfter a b ∨ notAfter b a.
Proof.
  intros (Hrefl & _ & _ & _ & Hgt) Ha Hb. unfold notAfter.
  destruct (Z_le_gt_dec (cmp a b) 0) as [|Hab]; [by left|].
  destruct (Z_le_gt_dec (cmp b a) 0) as [|Hba]; [by right|].
  pose proof (Hgt a b a Ha Hb Ha ltac:(lia) ltac:(lia)) as Haa.
  rewrite (Hrefl a Ha) in Haa. lia.
Qed.

Lemma consistentFor_antisym (S : A → Prop) (a b : A) :
  consistentFor S cmp → S a → S b → (cmp a b < 0)%Z → (0 < cmp b a)%Z.
Proof.
  intros (Hrefl & Hsym & _ & Hlt & _) Ha Hb Hab.
  destruct (Z.lt_trichotomy (cmp b a) 0) as [Hba|[Hba|Hba]]; [| |done].
  - pose proof (Hlt a b a Ha Hb Ha Hab Hba) as Haa.
    rewrite (Hrefl a Ha) in Haa. lia.
  - pose proof (Hsym b a Hb Ha Hba). lia.
Qed.

Lemma consistentFor_trans (S : A → Prop) (a b c : A) :
  consistentFor S cmp → S a → S b → S c →
  notAfter a b → notAfter b c → notAfter a c.
Proof.
  intros Hcons Ha Hb Hc. unfold notAfter. intros Hab Hbc.
  pose proof Hcons as (Hrefl & Hsym & Heq & Hlt & Hgt).
  destruct (Z_le_gt_dec (cmp a c) 0) as [|Hac]; [done|]. exfalso.
  assert (cmp c a < 0)%Z as Hca.
  { destruct (Z.lt_trichotomy (cmp c a) 0) as [Hca|[Hca|Hca]]; [done| |].
    - pose proof (Hsym c a Hc Ha Hca). lia.
    - pose proof (Hgt a c a Ha Hc Ha ltac:(lia) ltac:(lia)) as Haa.
      rewrite (Hrefl a Ha) in Haa. lia. }
  destruct (Z.eq_dec (cmp a b) 0%Z) as [Hab0|Hab0].
  - destruct (Z.eq_dec (cmp b c) 0%Z) as [Hbc0|Hbc0].
    + pose proof (Heq a b c Ha Hb Hc Hab0 Hbc0). lia.
    + assert (cmp b c < 0)%Z as Hbc' by lia.
      pose proof (Hlt b c a Hb Hc Ha Hbc' Hca) as Hba.
      pose proof (Hsym a b Ha Hb Hab0). lia.
  - assert (cmp a b < 0)%Z as Hab' by lia.
    pose proof (Hlt c a b Hc Ha Hb Hca Hab') as Hcb.
    pose proof (consistentFor_antisym S c b Hcons Hc Hb Hcb). lia.
Qed.

Lemma insert_sorted (S : A → Prop) (x : A) (l : list A) :
  consistentFor S cmp → S x → Forall S l →
  StronglySorted notAfter l → StronglySorted notAfter (insert cmp x l).
Proof.
  intros Hcons Hx Hl. induction 1 as [|y l Hsorted IH Hall]; simpl.
  - repeat constructor.
  - apply Forall_cons in Hl as [Hy Hl].
    destruct (cmp x y <=? 0)%Z eqn:E.
    + apply Z.leb_le in E. constructor; [by constructor|].
      constructor; [done|].
      rewrite Forall_forall in Hall, Hl. apply Forall_forall. intros z Hz.
      apply (consistentFor_trans S x y z); auto.
    + apply Z.leb_gt in E. constructor; [by apply IH|].
      rewrite insert_Permutation. constructor; [|done].
      destruct (consistentFor_total S x y Hcons Hx Hy) as [Hxy|Hyx]; [|done].
      unfold notAfter in Hxy. lia.
Qed.

Lemma stableSort_sorted_for (S : A → Prop) (l : list A) :
  consistentFor S cmp → Forall S l → StronglySorted notAfter (stableSort cmp l).
Proof.
  intros Hcons. unfold stableSort.
  induction l as [|x l IH]; simpl; intros HS; [constructor|].
  apply Forall_cons in HS as [Hx Hl].
  apply (insert_sorted S); auto.
  rewrite Forall_forall in Hl. apply Forall_forall. intros y Hy.
  apply Hl. by rewrite <- (stableSort_Permutation l).
Qed.

Lemma stableSort_sorted (l : list A) :
  consistent cmp l → StronglySorted notAfter (stableSort cmp l).
Proof.
  intros Hcons. apply (stableSort_sorted_for (λ a, a ∈ l)); [done|].
  by apply Forall_forall.
Qed.

(** For a consistent comparator the engine returns the stable sorted
    arrangement. *)
Lemma sort_sorted (l : list A) :
  consistent cmp l → StronglySorted notAfter (sort cmp l).
Proof.
  intros Hcons. rewrite (sort_consistent _ _ _ Hcons).
  by apply stableSort_sorted.
Qed.


Lemma consistentFor_weaken (S S' : A → Prop) :
  (∀ a, S' a → S a) → consistentFor S cmp → consistentFor S' cmp.
Proof.
  intros Hsub (Hrefl & Hsym & Heq & Hlt & Hgt). repeat split; eauto 10.
Qed.
End SortFacts.

(** Comparators built from others. *)
Lemma consistentFor_preimage {A B : Type} (f : A → B) (cmp : B → B → Z)
    (S : A → Prop) :
  JSArray.consistentFor (λ _, True) cmp →
  JSArray.consistentFor S (λ a b, cmp (f a) (f b)).
Proof.
  intros (Hrefl & Hsym & Heq & Hlt & Hgt). repeat split; eauto.
Qed.

Lemma consistentFor_flip {A : Type} (cmp : A → A → Z) (S : A → Prop) :
  JSArray.consistentFor S cmp → JSArray.consistentFor S (λ a b, cmp b a).
Proof.
  intros (Hrefl & Hsym & Heq & Hlt & Hgt). repeat split; eauto.
Qed.


Lemma insert_fmap {A B : Type} (f : A → B) (cmp : B → B → Z) (x : A) (l : list A) :
  JSArray.insert cmp (f x) (f <$> l)
  = f <$> JSArray.insert (λ a b, cmp (f a) (f b)) x l.
Proof.
  induction l as [|y l IH]; simpl; [done|].
  destruct (cmp (f x) (f y) <=? 0)%Z; [done|]. simpl. f_equal. apply IH.
Qed.

Lemma stableSort_fmap {A B : Type} (f : A → B) (cmp : B → B → Z) (l : list A) :
  JSArray.stableSort cmp (f <$> l)
  = f <$> JSArray.stableSort (λ a b, cmp (f a) (f b)) l.
Proof.
  unfold JSArray.stableSort. induction l as [|x l IH]; [done|].
  rewrite fmap_cons. simpl. rewrite IH. apply insert_fmap.
Qed.

(** Sorting commutes with a map, for a comparator that is consistent. *)
Lemma sort_fmap `{engine : ArraySort} {A B : Type} (f : A → B)
    (cmp : B → B → Z) (l : list A) :
  JSArray.consistentFor (λ _, True) cmp →
  sort cmp (f <$> l) = f <$> sort (λ a b, cmp (f a) (f b)) l.
Proof.
  intros Hcons.
  rewrite (sort_consistent _ cmp (f <$> l)),
          (sort_consistent _ (λ a b, cmp (f a) (f b)) l).
  - apply stableSort_fmap.
  - by apply consistentFor_preimage.
  - by apply (consistentFor_weaken cmp (λ _, True)).
Qed.

Lemma StronglySorted_take {A : Type} (R : relation A) (n : nat) (l : list A) :
  StronglySorted R l → StronglySorted R (take n l).
Proof.
  intros Hsorted. revert n.
  induction Hsorted as [|x l Hsorted IH Hall]; intros [|n]; simpl;
    try constructor; [apply IH|by apply Forall_take].
Qed.


Lemma StronglySorted_weaken {A : Type} (R R' : relation A) (l : list A) :
  (∀ a b, R a b → R' a b) → StronglySorted R l → StronglySorted R' l.
Proof.
  intros Himpl. induction 1 as [|x l Hsorted IH Hall]; constructor; [done|].
  eapply Forall_impl; [exact Hall|]. intros y. apply Himpl.
Qed.

Lemma sign_sub_le (x y : Q) : (JSArray.sign_sub x y ≤ 0)%Z ↔ (x <= y)%Q.
Proof.
  unfold JSArray.sign_sub. rewrite Qle_alt.
  destruct (x ?= y)%Q; split; (done || lia).
Qed.

Lemma sign_sub_eq (x y : Q) : JSArray.sign_sub x y = 0%Z ↔ (x == y)%Q.
Proof.
  unfold JSArray.sign_sub. rewrite Qeq_alt.
  destruct (x ?= y)%Q; split; (done || lia).
Qed.

Lemma sign_sub_lt (x y : Q) : (JSArray.sign_sub x y < 0)%Z ↔ (x < y)%Q.
Proof.
  unfold JSArray.sign_sub. rewrite Qlt_alt.
  destruct (x ?= y)%Q; split; (done || lia).
Qed.

Lemma sign_sub_gt (x y : Q) : (0 < JSArray.sign_sub x y)%Z ↔ (y < x)%Q.
Proof.
  unfold JSArray.sign_sub. rewrite (Qgt_alt x y).
  destruct (x ?= y)%Q; split; (done || lia).
Qed.

(** Comparing by a number is consistent. *)
Lemma sign_sub_consistent {A : Type} (f : A → Q) (S : A → Prop) :
  JSArray.consistentFor S (λ a b, JSArray.sign_sub (f a) (f b)).
Proof.
  repeat split.
  - intros a _. by apply sign_sub_eq.
  - intros a b _ _. rewrite !sign_sub_eq. apply Qeq_sym.
  - intros a b c _ _ _. rewrite !sign_sub_eq. apply Qeq_trans.
  - intros a b c _ _ _. rewrite !sign_sub_lt. apply Qlt_trans.
  - intros a b c _ _ _. rewrite !sign_sub_gt. intros Hab Hbc.
    by apply (Qlt_trans _ (f b)).
Qed.

(** ** Strings *)

Section StringFacts.
Import JS.


Lemma toLowerChar_idemp (c : ascii) : toLowerChar (toLowerChar c) = toLowerChar c.
Proof. destruct c as [[] [] [] [] [] [] [] []]; reflexivity. Qed.

Lemma isWhiteSpace_toLowerChar (c : ascii) :
  isWhiteSpace (toLowerChar c) = isWhiteSpace c.
Proof. destruct c as [[] [] [] [] [] [] [] []]; reflexivity. Qed.

Lemma toLowerCase_idemp (s : string) : toLowerCase (toLowerCase s) = toLowerCase s.
Proof. induction s as [|c s IH]; simpl; [done|]. by rewrite toLowerChar_idemp, IH. Qed.

Lemma toLowerCase_length (s : string) :
  String.length (toLowerCase s) = String.length s.
Proof. induction s as [|c s IH]; simpl; [done|]. by rewrite IH. Qed.

Lemma toLowerCase_drop (n : nat) (s : string) :
  toLowerCase (drop n s) = drop n (toLowerCase s).
Proof.
  revert s. induction n as [|n IH]; intros [|c s]; simpl; try done.
Qed.

Lemma stripPrefix_lower (p s : string) :
  toLowerCase s = s → toLowerCase (stripPrefix p s) = stripPrefix p s.
Proof.
  intros Hs. unfold stripPrefix. destruct (startsWith s p); [|done].
  by rewrite toLowerCase_drop, Hs.
Qed.

Lemma blank_toLowerCase (s : string) : blank (toLowerCase s) = blank s.
Proof.
  induction s as [|c s IH]; simpl; [done|].
  by rewrite isWhiteSpace_toLowerChar, IH.
Qed.

Lemma trimEnd_empty (s : string) : trimEnd s = "" → blank s = true.
Proof.
  induction s as [|c s IH]; simpl; [done|].
  destruct (trimEnd s) as [|d t]; [|done].
  destruct (isWhiteSpace c); [|done]. intros _. by rewrite IH.
Qed.

Lemma trimStart_blank (s : string) : blank (trimStart s) = true → blank s = true.
Proof.
  induction s as [|c s IH]; simpl; [done|].
  destruct (isWhiteSpace c) eqn:E; simpl; [done|]. by rewrite E.
Qed.

Lemma trim_empty (s : string) : trim s = "" → blank s = true.
Proof. intros Ht. by apply trimStart_blank, trimEnd_empty. Qed.

Lemma blank_trim (s : string) : blank s = true → trim s = "".
Proof.
  unfold trim. induction s as [|c s IH]; simpl; [done|].
  intros [Hc Hs]%andb_true_iff. rewrite Hc. by apply IH.
Qed.

Lemma split_go_blank_sep (cur s : string) :
  blank s = true → split_go true cur s = [cur].
Proof.
  induction s as [|c s IH]; simpl; [done|].
  intros [-> Hs]%andb_true_iff. by apply IH.
Qed.

Lemma words_blank (s : string) : blank s = true → words s = [].
Proof.
  unfold words, split_ws. destruct s as [|c s]; simpl; [done|].
  intros [-> Hs]%andb_true_iff. by rewrite split_go_blank_sep.
Qed.

Lemma startsWith_blank (s p : string) (a : ascii) :
  blank s = true → isWhiteSpace a = false → startsWith s (String a p) = false.
Proof.
  destruct s as [|c s]; simpl; [done|].
  intros [Hc _]%andb_true_iff Ha. case_bool_decide; [congruence|done].
Qed.

Lemma includes_blank (s p : string) (a : ascii) :
  blank s = true → isWhiteSpace a = false → includes s (String a p) = false.
Proof.
  intros Hs Ha. induction s as [|c s IH]; [done|].
  cbn [includes]. rewrite (startsWith_blank _ _ _ Hs Ha).
  simpl in Hs. apply andb_true_iff in Hs as [_ Hs]. by apply IH.
Qed.
End StringFacts.

(** ** Empty queries *)

Section EmptyQueryFacts.
Import JS.
Context `{DatabaseAdapter} `{Runtime}.

Lemma normalizeQuery_blank (q : string) :
  blank q = true → SearchHandlers.normalizeQuery q = q.
Proof.
  intros Hq. unfold SearchHandlers.normalizeQuery.
  by rewrite !(includes_blank q) by done.
Qed.

Lemma searchNodesLIKE_blank (q : string) (limit : nat) (options : option SearchOptions) :
  blank q = true →
  SearchHandlers.searchNodesLIKE q limit options
  = Returns (SearchHandlers.emptyResult q None).
Proof.
  intros Hq. unfold SearchHandlers.searchNodesLIKE, SearchHandlers.quoted.
  unfold SearchHandlers.DQUOTE. rewrite (startsWith_blank q) by done. simpl.
  rewrite words_blank by (by rewrite blank_toLowerCase). done.
Qed.

(** C4, as far as the code goes.  For every limit and options, a query
    that is empty or made of white space only makes [searchNodes] of
    [search-handlers.ts], the search behind the tools, return an empty
    result list with [totalCount] 0 without throwing, be the index there
    or not; the [searchNodes] method of [NodeSearchHandler] rejects such a
    query by throwing [Search query is required]. *)
Theorem blank_query_finds_nothing (q : string) (limit : nat)
    (options : option SearchOptions) (options' : option NodeSearchHandler.Options) :
  trim q = "" →
  SearchHandlers.searchNodes q limit options
  = Returns {| SearchHandlers.query := q; SearchHandlers.results := [];
               SearchHandlers.totalCount := 0; SearchHandlers.mode := None |}
  ∧ NodeSearchHandler.searchNodes (Some q) limit options'
    = Throws "Search query is required".
Proof.
  intros Htrim. pose proof (trim_empty q Htrim) as Hblank. split.
  - unfold SearchHandlers.searchNodes. rewrite normalizeQuery_blank by done.
    destruct ftsExists.
    + unfold SearchHandlers.searchNodesFTS. by rewrite Htrim.
    + by apply searchNodesLIKE_blank.
  - unfold NodeSearchHandler.searchNodes. by rewrite Htrim.
Qed.
End EmptyQueryFacts.

(** The theorem above at a query of three spaces, on the fixtures. *)
Lemma blank_query_finds_nothing_witness :
  JS.trim "   " = ""
  ∧ @SearchHandlers.searchNodes Fixtures.sampleDb Fixtures.sampleRuntime "   " 20 None
    = Returns {| SearchHandlers.query := "   "; SearchHandlers.results := [];
                 SearchHandlers.totalCount := 0; SearchHandlers.mode := None |}.
Proof.
  split; [reflexivity|].
  apply (@blank_query_finds_nothing Fixtures.sampleDb Fixtures.sampleRuntime
           "   " 20 None None).
  reflexivity.
Defined.

(** C4 as stated fails for the [searchNodes] method of
    [NodeSearchHandler]: the empty query raises an exception. *)
Lemma NodeSearchHandler_rejects_empty_query :
  @NodeSearchHandler.searchNodes Fixtures.sampleDb Fixtures.sampleRuntime
    (Some "") 20 None
  = Throws "Search query is required".
Proof. reflexivity. Qed.

(** ** The fuzzy strategy *)

Section FuzzyFacts.
Import JS JSArray SearchHandlers.
Context `{rt : Runtime}.

Lemma filter_fmap_list {A B : Type} (f : A → B) (P : B → Prop)
    `{∀ x, Decision (P x)} (l : list A) :
  filter P (f <$> l) = f <$> filter (λ x, P (f x)) l.
Proof.
  induction l as [|x l IH]; [done|].
  rewrite fmap_cons, !filter_cons, IH. by destruct (decide (P (f x))).
Qed.


(** The pairing with the score can be read off: the pipeline filters,
    sorts and cuts the candidates themselves. *)
Lemma fuzzyCompare_consistent (S : NodeRow * Q → Prop) :
  consistentFor S fuzzyCompare.
Proof.
  apply (consistentFor_flip (λ a b : NodeRow * Q, sign_sub a.2 b.2)).
  apply (sign_sub_consistent snd).
Qed.

Lemma fuzzyOrder_consistent (q : string) (S : NodeRow → Prop) :
  consistentFor S (fuzzyOrder q).
Proof.
  apply (consistentFor_flip
           (λ a b, sign_sub (calculateFuzzyScore a q) (calculateFuzzyScore b q))).
  apply (sign_sub_consistent (λ n, calculateFuzzyScore n q)).
Qed.

Lemma fuzzyMatches_pipeline (pool : list NodeRow) (q : string) (limit : nat) :
  fuzzyMatches pool q limit
  = take limit
      (sort (fuzzyOrder q)
         (filter (λ n, Qle_bool FUZZY_FLOOR (calculateFuzzyScore n q) = true) pool)).
Proof.
  unfold fuzzyMatches, slice0.
  rewrite (filter_fmap_list (λ node, (node, calculateFuzzyScore node q))).
  rewrite (sort_fmap (λ node, (node, calculateFuzzyScore node q)) fuzzyCompare)
    by apply fuzzyCompare_consistent.
  rewrite <- fmap_take, <- list_fmap_compose. simpl.
  replace (fst ∘ (λ node : NodeRow, (node, calculateFuzzyScore node q)))
    with (@id NodeRow) by done.
  by rewrite list_fmap_id.
Qed.

Lemma startsWith_app (p rest : string) : startsWith (p +:+ rest) p = true.
Proof.
  induction p as [|c p IH]; [by destruct rest|].
  simpl. by rewrite bool_decide_eq_true_2.
Qed.

Lemma startsWith_drop (s p : string) :
  startsWith s p = true → s = p +:+ drop (String.length p) s.
Proof.
  revert s. induction p as [|c p IH]; intros s; simpl; [done|].
  destruct s as [|d s]; [done|].
  intros [Hc Hp]%andb_prop. apply bool_decide_eq_true in Hc as ->.
  change (String d s = String d (p +:+ drop (String.length p) s)).
  f_equal. by apply IH.
Qed.

Lemma drop_app_length (p rest : string) :
  drop (String.length p) (p +:+ rest) = rest.
Proof.
  induction p as [|c p IH]; [by destruct rest|].
  change (drop (String.length p) (p +:+ rest) = rest). done.
Qed.

Lemma stripPrefix_spec (p s t : string) :
  stripPrefix p s = t ↔ withoutPrefix p s t.
Proof.
  unfold stripPrefix, withoutPrefix. destruct (startsWith s p) eqn:E.
  - pose proof (startsWith_drop _ _ E) as Hs. split.
    + intros <-. by left.
    + intros [->|[-> Hno]]; [by rewrite drop_app_length|by destruct (Hno _ Hs)].
  - split.
    + intros <-. right. split; [done|]. intros rest ->.
      by rewrite startsWith_app in E.
    + intros [->|[-> _]]; [by rewrite startsWith_app in E|done].
Qed.

(** The prefix-stripped node type of the scorers, in plain words. *)
Lemma typeWithoutPrefix_spec (node : NodeRow) (t : string) :
  typeWithoutPrefix node = t ↔ prefixStripped (toLowerCase (node_type node)) t.
Proof.
  unfold typeWithoutPrefix, prefixStripped. split.
  - intros <-. eexists. split; by apply stripPrefix_spec.
  - intros (rest & Hbase & Hlang). apply stripPrefix_spec in Hbase as <-.
    by apply stripPrefix_spec.
Qed.

Lemma typeWithoutPrefix_lower (node : NodeRow) :
  toLowerCase (typeWithoutPrefix node) = typeWithoutPrefix node.
Proof.
  unfold typeWithoutPrefix.
  apply stripPrefix_lower, stripPrefix_lower, toLowerCase_idemp.
Qed.

Lemma Qnat_nonneg (n : nat) : (0 <= Qnat n)%Q.
Proof.
  unfold Qnat. change 0%Q with (inject_Z 0). rewrite <- Zle_Qle. lia.
Qed.

Lemma Qnat_le (n m : nat) : n ≤ m → (Qnat n <= Qnat m)%Q.
Proof. intros Hnm. unfold Qnat. rewrite <- Zle_Qle. lia. Qed.

Lemma similarity_le_1 (d len : nat) : (1 - Qnat d / Qnat len <= 1)%Q.
Proof.
  assert (0 <= Qnat d / Qnat len)%Q as Hq.
  { apply Qmult_le_0_compat; [apply Qnat_nonneg|].
    apply Qinv_le_0_compat, Qnat_nonneg. }
  lra.
Qed.

(** No fuzzy score exceeds 1000. *)
Lemma calculateFuzzyScore_le_1000 (node : NodeRow) (q : string) :
  (calculateFuzzyScore node q <= 1000)%Q.
Proof.
  unfold calculateFuzzyScore.
  destruct (_ || _); [lra|].
  match goal with
  | |- context [(1 - Qnat ?d / Qnat ?len)%Q] =>
      pose proof (similarity_le_1 d len) as Hsim;
      pose proof (Qnat_le (2 - d) 2 ltac:(lia)) as H2;
      pose proof (Qnat_le (3 - d) 3 ltac:(lia)) as H3;
      generalize dependent (1 - Qnat d / Qnat len)%Q;
      generalize dependent (Qnat (2 - d));
      generalize dependent (Qnat (3 - d))
  end.
  intros x3 H3 x2 H2 sim Hsim.
  change (Qnat 2) with 2%Q in H2. change (Qnat 3) with 3%Q in H3.
  repeat (match goal with
          | |- context [if ?b then _ else _] => destruct b
          end); lra.
Qed.

(** What [searchNodesFuzzy] returns for a pool of candidates: only
    candidates, none below the floor, higher scores first, at most
    [limit]. *)
Lemma fuzzyMatches_spec (pool : list NodeRow) (q : string) (limit : nat) :
  (∀ n, n ∈ fuzzyMatches pool q limit →
        n ∈ pool ∧ (FUZZY_FLOOR <= calculateFuzzyScore n q)%Q)
  ∧ StronglySorted (λ a b, (calculateFuzzyScore b q <= calculateFuzzyScore a q)%Q)
      (fuzzyMatches pool q limit)
  ∧ length (fuzzyMatches pool q limit) ≤ limit.
Proof.
  rewrite fuzzyMatches_pipeline. split; [|split].
  - intros n Hn. apply elem_of_take in Hn as (i & Hi & _).
    apply list_elem_of_lookup_2 in Hi. rewrite elem_of_sort in Hi.
    apply list_elem_of_filter in Hi as [Hfloor Hpool].
    split; [done|]. by apply Qle_bool_iff.
  - apply StronglySorted_take.
    eapply StronglySorted_weaken;
      [|apply sort_sorted, fuzzyOrder_consistent].
    intros a b. unfold notAfter, fuzzyOrder. by rewrite sign_sub_le.
  - apply firstn_le_length.
Qed.
End FuzzyFacts.

Section FuzzyDispatchFacts.
Import JS JSArray SearchHandlers.
Context `{db : DatabaseAdapter} `{rt : Runtime}.


Lemma searchNodesLIKE_mode q limit options r :
  searchNodesLIKE q limit options = Returns r → mode r = None.
Proof.
  unfold searchNodesLIKE. destruct (quoted q).
  - destruct (likePhrase _ _ _) as [nodes|]; simpl; [|done].
    destruct (rankSearchResults _ _ _) as [ranked|]; simpl; [|done].
    by intros [= <-].
  - case_bool_decide; [by intros [= <-]|].
    destruct (likeWords _ _ _) as [nodes|]; simpl; [|done].
    destruct (rankSearchResults _ _ _) as [ranked|]; simpl; [|done].
    by intros [= <-].
Qed.

Lemma ftsAttempt_mode q cleanedQuery limit m options r :
  ftsAttempt q cleanedQuery limit m options = Returns (Some r) →
  mode r = if bool_decide (m ≠ OR) then Some m else None.
Proof.
  unfold ftsAttempt.
  destruct (ftsMatch _ _ _ _) as [nodes|]; simpl; [|done].
  destruct (mapM _ nodes) as [scored|]; simpl; [|done].
  destruct (_ && _); [done|]. by intros [= <-].
Qed.

Lemma searchNodesFTS_not_fuzzy q limit m options r :
  m ≠ FUZZY → searchNodesFTS q limit m options = Returns r → mode r ≠ Some FUZZY.
Proof.
  intros Hm. unfold searchNodesFTS.
  destruct (eqs (trim q) ""); [by intros [= <-]|].
  rewrite bool_decide_eq_false_2 by done.
  destruct (ftsAttempt _ _ _ _ _) as [[result|]|message] eqn:E.
  - intros [= <-]. rewrite (ftsAttempt_mode _ _ _ _ _ _ E).
    case_bool_decide; congruence.
  - intros Hr%searchNodesLIKE_mode. by rewrite Hr.
  - destruct (_ || _).
    + destruct (searchNodesLIKE q limit options) as [likeResult|]; simpl; [|done].
      intros [= <-]. simpl. congruence.
    + intros Hr%searchNodesLIKE_mode. by rewrite Hr.
Qed.

Lemma searchNodes_not_fuzzy q limit options r :
  requestedMode options ≠ FUZZY →
  searchNodes q limit options = Returns r → mode r ≠ Some FUZZY.
Proof.
  intros Hm. unfold searchNodes. destruct ftsExists.
  - by apply searchNodesFTS_not_fuzzy.
  - intros Hr%searchNodesLIKE_mode. by rewrite Hr.
Qed.

Lemma searchNodes_ignores_all_nodes q limit options answer :
  requestedMode options ≠ FUZZY →
  @searchNodes (withAllNodes answer) rt q limit options
  = @searchNodes db rt q limit options.
Proof.
  intros Hm. unfold searchNodes, searchNodesFTS. fold (requestedMode options).
  rewrite !(bool_decide_eq_false_2 (requestedMode options = FUZZY)) by done.
  reflexivity.
Qed.
End FuzzyDispatchFacts.

Section FuzzyContract.
Import JS JSArray SearchHandlers.
Context `{db : DatabaseAdapter} `{rt : Runtime}.

(** C7.  The fuzzy strategy belongs to FUZZY mode: in any other mode the
    search does not depend on the full scan of the node table that only
    the fuzzy strategy runs, whatever the indexed and substring strategies
    do, and no result is labelled FUZZY; in FUZZY mode, with the index in
    place and a query that is not blank, the search is the fuzzy
    strategy.  For every candidate pool, query
    and limit, the fuzzy results are the first [limit] of the candidates
    scoring at least the floor, ordered by score, highest first: a
    candidate below the floor is excluded and at most [limit] candidates
    are returned.  A candidate scores 1000 when its display name equals
    the query without regard to letter case, and when its node type in
    lower case, with a leading [nodes-base.] and then a leading
    [nodes-langchain.] taken off, equals the query in lower case; no score
    is higher. *)
Theorem fuzzy_strategy_contract (q : string) (limit : nat)
    (options : option SearchOptions) (pool : list NodeRow)
    (answer : outcome (list NodeRow)) :
  (requestedMode options ≠ FUZZY →
     @searchNodes (withAllNodes answer) rt q limit options
     = @searchNodes db rt q limit options
     ∧ ∀ r, @searchNodes db rt q limit options = Returns r → mode r ≠ Some FUZZY)
  ∧ (requestedMode options = FUZZY → ftsExists = true →
     trim (normalizeQuery q) ≠ "" →
     searchNodes q limit options = searchNodesFuzzy (trim (normalizeQuery q)) limit)
  ∧ (∃ ranked,
       ranked ≡ₚ filter (λ n, Qle_bool FUZZY_FLOOR (calculateFuzzyScore n q) = true) pool
       ∧ StronglySorted
           (λ a b, (calculateFuzzyScore b q <= calculateFuzzyScore a q)%Q) ranked
       ∧ fuzzyMatches pool q limit = take limit ranked)
  ∧ (∀ n, (calculateFuzzyScore n q < FUZZY_FLOOR)%Q → n ∉ fuzzyMatches pool q limit)
  ∧ length (fuzzyMatches pool q limit) ≤ limit
  ∧ (selectAllNodes = Returns pool → words (toLowerCase q) ≠ [] →
       searchNodesFuzzy q limit
       = Returns {| query := q; mode := Some FUZZY;
                    results := plainResult <$> fuzzyMatches pool q limit;
                    totalCount := length (fuzzyMatches pool q limit) |})
  ∧ (∀ node, toLowerCase (display_name node) = toLowerCase q
             ∨ prefixStripped (toLowerCase (node_type node)) (toLowerCase q) →
             calculateFuzzyScore node q = 1000%Q)
  ∧ (∀ node, (calculateFuzzyScore node q <= 1000)%Q).
Proof.
  destruct (fuzzyMatches_spec pool q limit) as (Hin & Hsorted & Hlen).
  split; [|split; [|split; [|split; [|split; [|split; [|split]]]]]].
  - intros Hmode. split; [by apply searchNodes_ignores_all_nodes|].
    intros r. by apply searchNodes_not_fuzzy.
  - intros Hmode Hindex Hquery. unfold searchNodes, searchNodesFTS, eqs.
    fold (requestedMode options). rewrite Hindex, Hmode.
    by rewrite (bool_decide_eq_false_2 (trim (normalizeQuery q) = "")).
  - eexists. split; [apply sort_Permutation|]. split.
    + eapply StronglySorted_weaken;
        [|apply (sort_sorted (fuzzyOrder q)), fuzzyOrder_consistent].
      intros a b. unfold notAfter, fuzzyOrder. by rewrite sign_sub_le.
    + apply fuzzyMatches_pipeline.
  - intros n Hlow Hn. destruct (Hin n Hn) as [_ Hfloor].
    apply (Qlt_not_le _ _ Hlow Hfloor).
  - done.
  - intros Hpool Hwords. unfold searchNodesFuzzy.
    rewrite bool_decide_eq_false_2, Hpool; [done|].
    by intros ?%nil_length_inv.
  - intros node [Hname|Htype]; unfold calculateFuzzyScore, eqs.
    + by rewrite (bool_decide_eq_true_2 _ Hname).
    + apply typeWithoutPrefix_spec in Htype.
      rewrite (bool_decide_eq_true_2 _ Htype). by rewrite orb_true_r.
  - intros node. apply calculateFuzzyScore_le_1000.
Qed.
End FuzzyContract.

(** The fuzzy search for a misspelt [slak] on the fixtures finds Slack,
    the only candidate above the floor; and a node of type
    [nodes-base.slack] scores 1000 for [Slack] whatever its display
    name. *)
Example fuzzy_search_slak :
  @SearchHandlers.fuzzyMatches Fixtures.sampleRuntime Fixtures.sampleNodes "slak" 10
  = [Fixtures.slackRow]
  ∧ SearchHandlers.calculateFuzzyScore Fixtures.slackRow "slak" = (3200 # 5)%Q
  ∧ SearchHandlers.calculateFuzzyScore MoreFixtures.slackTypeRow "Slack" = 1000%Q.
Proof. repeat split; vm_compute; reflexivity. Qed.

(** ** The guard on the HTTP Request node *)

Section GuardFacts.
Import JS JSArray.
Context `{db : DatabaseAdapter} `{rt : Runtime}.

Lemma mapM_scored {A B : Type} (f : A → outcome B) (l : list A) (scored : list (A * B)) :
  mapM (λ x, y ← f x; Returns (x, y)) l = Returns scored → fst <$> scored = l.
Proof.
  revert scored. induction l as [|x l IH]; intros scored; simpl.
  - by intros [= <-].
  - destruct (f x) as [y|]; simpl; [|done].
    destruct (mapM _ l) as [ys|]; simpl; [|done].
    intros [= <-]. simpl. f_equal. by apply IH.
Qed.

Lemma existsb_false {A : Type} (p : A → bool) (l : list A) :
  (∀ x, x ∈ l → p x = false) → existsb p l = false.
Proof.
  induction l as [|x l IH]; intros Hall; simpl; [done|].
  rewrite (Hall x) by left. apply IH. intros y Hy. apply Hall. by right.
Qed.

(** In [search-handlers.ts] the guard hands the caller's query to the
    substring strategy. *)
Lemma searchNodesFTS_guard (q : string) (limit : nat) (m : SearchMode)
    (options : option SearchOptions) (rows : list FtsRow) :
  m ≠ FUZZY → trim q ≠ "" →
  ftsMatch (SearchHandlers.buildFtsQuery (trim q) m) (trim q)
           (SearchHandlers.sourceValue options) limit = Returns rows →
  returns (mapM (λ node, score ← SearchHandlers.calculateRelevanceScore
                                   (fts_node node) (trim q);
                         Returns (node, score)) rows) →
  includes (toLowerCase (trim q)) "http" = true →
  (∀ row, row ∈ rows → node_type (fts_node row) ≠ SearchHandlers.HTTP_REQUEST) →
  SearchHandlers.searchNodesFTS q limit m options
  = SearchHandlers.searchNodesLIKE q limit options.
Proof.
  intros Hm Hq Hrows [scored Hscored] Hhttp Hmissing.
  unfold SearchHandlers.searchNodesFTS, SearchHandlers.eqs.
  rewrite (bool_decide_eq_false_2 (trim q = "")) by done.
  rewrite (bool_decide_eq_false_2 (m = FUZZY)) by done.
  unfold SearchHandlers.ftsAttempt. rewrite Hrows. simpl.
  rewrite Hscored. simpl. rewrite Hhttp.
  rewrite existsb_false; [done|].
  intros [row score] Hin%elem_of_sort. simpl.
  apply bool_decide_eq_false_2, Hmissing.
  rewrite <- (mapM_scored _ _ _ Hscored).
  apply (list_elem_of_fmap_2 fst _ _ Hin).
Qed.

(** In [NodeSearchHandler] the guard hands over the index query. *)
Lemma NodeSearchHandler_guard (ftsQuery : string) (limit : nat) (m : string)
    (options : option NodeSearchHandler.Options) (rows : list FtsRow) :
  ftsMatch (NodeSearchHandler.buildFtsQuery ftsQuery m) ftsQuery
           (NodeSearchHandler.sourceOf options) limit = Returns rows →
  includes (toLowerCase ftsQuery) "http" = true →
  (∀ row, row ∈ rows → node_type (fts_node row) ≠ "nodes-base.httpRequest") →
  NodeSearchHandler.searchNodesFTS ftsQuery limit m options
  = NodeSearchHandler.searchNodesLIKE (NodeSearchHandler.buildFtsQuery ftsQuery m) limit.
Proof.
  intros Hrows Hhttp Hmissing. unfold NodeSearchHandler.searchNodesFTS.
  rewrite Hrows. simpl. rewrite Hhttp.
  rewrite existsb_false; [done|].
  intros [row score] Hin%elem_of_sort. simpl.
  apply bool_decide_eq_false_2, Hmissing.
  apply list_elem_of_fmap in Hin as (row' & [= -> _] & Hin). done.
Qed.
End GuardFacts.

Section GuardExamples.
Import Fixtures.
#[local] Existing Instance sampleDb.
#[local] Existing Instance sampleRuntime.

(** C5 at the failing input.  The index of the sample store finds the
    webhook node only, so the query [http] trips the guard.
    [searchNodes] of [search-handlers.ts] then answers with the substring
    results for [http], the HTTP Request node; the [searchNodes] method of
    [NodeSearchHandler] runs the substring search for the index query
    [http*], finds nothing, and echoes [http*] as the query, although its
    own substring search for [http] finds the HTTP Request node. *)
Theorem NodeSearchHandler_guard_searches_index_query :
  (SearchHandlers.searchNodes "http" 20 None
   = SearchHandlers.searchNodesLIKE "http" 20 None
   ∧ (SearchHandlers.nodeType <$>
        default [] (match SearchHandlers.searchNodes "http" 20 None with
                    | Returns r => Some (SearchHandlers.results r)
                    | Throws _ => None
                    end)) = ["nodes-base.httpRequest"])
  ∧ NodeSearchHandler.searchNodes (Some "http") 20 None
    = Returns {| NodeSearchHandler.query := "http*";
                 NodeSearchHandler.results := [];
                 NodeSearchHandler.totalCount := 0;
                 NodeSearchHandler.mode := None;
                 NodeSearchHandler.fallback := true |}
  ∧ NodeSearchHandler.searchNodes (Some "http") 20 None
    = NodeSearchHandler.searchNodesLIKE "http*" 20
  ∧ (NodeSearchHandler.nodeType <$>
       default [] (match NodeSearchHandler.searchNodesLIKE "http" 20 with
                   | Returns r => Some (NodeSearchHandler.results r)
                   | Throws _ => None
                   end)) = ["nodes-base.httpRequest"].
Proof. repeat split; vm_compute; reflexivity. Qed.
End GuardExamples.

(** ** The index query *)

Section FtsQueryFacts.
Import JS.


Lemma length_pos_nonempty (w : string) : 0 < String.length w ↔ w ≠ "".
Proof. destruct w; simpl; split; (done || lia). Qed.

Lemma filter_split_go (in_sep : bool) (cur s : string) :
  (in_sep = true → cur = "") →
  filter (λ w, 0 < String.length w) (split_go in_sep cur s) = terms_go cur s.
Proof.
  revert in_sep cur. induction s as [|c s IH]; intros in_sep cur Hsep; simpl.
  - rewrite filter_cons, filter_nil. case_bool_decide as Hcur.
    + subst cur. by rewrite decide_False by (simpl; lia).
    + by rewrite decide_True by (by apply length_pos_nonempty).
  - destruct (isWhiteSpace c).
    + destruct in_sep.
      * rewrite (Hsep eq_refl). rewrite bool_decide_eq_true_2 by done.
        by apply IH.
      * rewrite filter_cons, (IH true "") by done. case_bool_decide as Hcur.
        -- subst cur. by rewrite decide_False by (simpl; lia).
        -- by rewrite decide_True by (by apply length_pos_nonempty).
    + by apply IH.
Qed.

(** [split(/\s+/).filter(w => w.length > 0)] yields the terms. *)
Lemma words_terms (s : string) : words s = terms s.
Proof. unfold words, split_ws, terms. by apply filter_split_go. Qed.

Lemma hasWhiteSpace_app (a b : string) :
  hasWhiteSpace (a +:+ b) = hasWhiteSpace a || hasWhiteSpace b.
Proof.
  unfold hasWhiteSpace. induction a as [|c a IH]; simpl; [done|].
  by rewrite IH, orb_assoc.
Qed.

Lemma terms_go_clean (cur s : string) :
  hasWhiteSpace cur = false →
  ∀ w, w ∈ terms_go cur s → w ≠ "" ∧ hasWhiteSpace w = false.
Proof.
  revert cur. induction s as [|c s IH]; intros cur Hcur w; simpl.
  - case_bool_decide; [by intros ?%not_elem_of_nil|].
    by intros ->%list_elem_of_singleton.
  - destruct (isWhiteSpace c) eqn:Hc.
    + case_bool_decide.
      * by apply IH.
      * intros [->|Hw]%elem_of_cons; [done|]. by apply (IH "").
    + apply IH. rewrite hasWhiteSpace_app, Hcur. unfold hasWhiteSpace. simpl.
      by rewrite Hc.
Qed.

(** Every term is non-empty and free of white space. *)
Lemma terms_clean (s w : string) :
  w ∈ terms s → w ≠ "" ∧ hasWhiteSpace w = false.
Proof. by apply terms_go_clean. Qed.

(** C6, as far as the code goes.  In [searchNodesFTS] of
    [search-handlers.ts], a trimmed query that starts and ends with a
    double quote is the index query, verbatim; any other query is split on
    white space into its terms (non-empty, free of white space), which are
    joined with [AND] in AND mode and with [OR] otherwise, no wildcard
    being appended.  In [NodeSearchHandler.searchNodesFTS] every piece of
    the query between runs of white space gets the prefix wildcard [*]
    and the pieces are joined with [AND] or [OR]; quoted queries get no
    treatment of their own there. *)
Theorem index_query_construction (cleanedQuery : string) (m : SearchMode)
    (ftsQuery m' : string) :
  (SearchHandlers.quoted cleanedQuery = true →
     SearchHandlers.buildFtsQuery cleanedQuery m = cleanedQuery)
  ∧ (SearchHandlers.quoted cleanedQuery = false →
       SearchHandlers.buildFtsQuery cleanedQuery m
       = join (if bool_decide (m = AND) then " AND " else " OR ")
              (terms cleanedQuery))
  ∧ (∀ w, w ∈ terms cleanedQuery → w ≠ "" ∧ hasWhiteSpace w = false)
  ∧ NodeSearchHandler.buildFtsQuery ftsQuery m'
    = join (if bool_decide (m' = "AND") then " AND " else " OR ")
           ((λ term, term +:+ "*") <$> split_ws ftsQuery).
Proof.
  split; [|split; [|split]].
  - intros Hq. unfold SearchHandlers.buildFtsQuery. by rewrite Hq.
  - intros Hq. unfold SearchHandlers.buildFtsQuery. rewrite Hq, words_terms.
    by destruct m.
  - intros w. apply terms_clean.
  - unfold NodeSearchHandler.buildFtsQuery, NodeSearchHandler.eqs.
    by case_bool_decide.
Qed.

(** C6 as stated fails in [search-handlers.ts], where no prefix wildcard
    is appended to the terms, and in [NodeSearchHandler], where a quoted
    query is split and given wildcards like any other. *)
Lemma index_query_without_wildcard :
  SearchHandlers.buildFtsQuery "slack api" OR = "slack OR api"
  ∧ SearchHandlers.buildFtsQuery "slack api" AND = "slack AND api"
  ∧ SearchHandlers.buildFtsQuery "slack api" OR ≠ "slack* OR api*"
  ∧ NodeSearchHandler.buildFtsQuery
      (SearchHandlers.DQUOTE +:+ "slack api" +:+ SearchHandlers.DQUOTE) "OR"
    = SearchHandlers.DQUOTE +:+ "slack* OR api" +:+ SearchHandlers.DQUOTE +:+ "*".
Proof. repeat split; done. Qed.
End FtsQueryFacts.

(** ** Relevance scores and the order of the results *)

Section RelevanceFacts.
Import JS JSArray SearchHandlers RelevanceRules.
Context `{rt : Runtime}.














End RelevanceFacts.

Section RelevanceContract.
Import JS JSArray SearchHandlers RelevanceRules.
Context `{rt : Runtime}.

End RelevanceContract.





Section RelevanceExamples.
Import Fixtures MoreFixtures SearchHandlers RelevanceRules.
#[local] Existing Instance sampleRuntime.


End RelevanceExamples.
Import Invariants.

(** ** Counts and limits of a search *)

Section SearchCountFacts.
Import JS JSArray SearchHandlers.
Context `{db : DatabaseAdapter} `{rt : Runtime}.

Lemma mapM_length {A B : Type} (f : A → outcome B) (l : list A) (out : list B) :
  mapM f l = Returns out → length out = length l.
Proof.
  revert out. induction l as [|x l IH]; intros out; simpl.
  - by intros [= <-].
  - destruct (f x) as [y|]; simpl; [|done].
    destruct (mapM f l) as [ys|]; simpl; [|done].
    intros [= <-]. simpl. f_equal. by apply IH.
Qed.

Lemma rankSearchResults_length (nodes : list NodeRow) (q : string) (limit : nat)
    (ranked : list NodeRow) :
  rankSearchResults nodes q limit = Returns ranked →
  length ranked = limit `min` length nodes.
Proof.
  unfold rankSearchResults, slice0.
  destruct (mapM _ nodes) as [scored|] eqn:E; simpl; [|done].
  intros [= <-]. rewrite length_fmap, length_take, sort_length.
  by rewrite (mapM_length _ _ _ E).
Qed.

Lemma addExamplesUntilError_length (rs : list NodeResult) :
  length (addExamplesUntilError rs) = length rs.
Proof.
  induction rs as [|r rs IH]; simpl; [done|].
  destruct (withExamples r); simpl; [by rewrite IH|done].
Qed.

Lemma addExamplesEach_length (rs : list NodeResult) :
  length (addExamplesEach rs) = length rs.
Proof. unfold addExamplesEach. by rewrite length_fmap. Qed.

Lemma likeResult_count (q : string) (options : option SearchOptions)
    (ranked : list NodeRow) :
  totalCount (likeResult q options ranked) = length (results (likeResult q options ranked))
  ∧ totalCount (likeResult q options ranked) = length ranked.
Proof.
  unfold likeResult. simpl. split; [|done].
  destruct (includeExamples options);
    by rewrite ?addExamplesEach_length, length_fmap.
Qed.

Lemma searchNodesLIKE_count (q : string) (limit : nat)
    (options : option SearchOptions) (r : SearchResult) :
  searchNodesLIKE q limit options = Returns r →
  totalCount r = length (results r) ∧ totalCount r ≤ limit.
Proof.
  unfold searchNodesLIKE. destruct (quoted q).
  - destruct (likePhrase _ _ _) as [nodes|]; simpl; [|done].
    destruct (rankSearchResults _ _ _) as [ranked|] eqn:E; simpl; [|done].
    intros [= <-]. destruct (likeResult_count q options ranked) as [Hcount Hlen].
    split; [done|]. rewrite Hlen, (rankSearchResults_length _ _ _ _ E). lia.
  - case_bool_decide.
    + intros [= <-]. simpl. split; [done|lia].
    + destruct (likeWords _ _ _) as [nodes|]; simpl; [|done].
      destruct (rankSearchResults _ _ _) as [ranked|] eqn:E; simpl; [|done].
      intros [= <-]. destruct (likeResult_count q options ranked) as [Hcount Hlen].
      split; [done|]. rewrite Hlen, (rankSearchResults_length _ _ _ _ E). lia.
Qed.

Lemma searchNodesFuzzy_count (q : string) (limit : nat) (r : SearchResult) :
  searchNodesFuzzy q limit = Returns r →
  totalCount r = length (results r) ∧ totalCount r ≤ limit.
Proof.
  unfold searchNodesFuzzy. case_bool_decide.
  - intros [= <-]. simpl. split; [done|lia].
  - destruct selectAllNodes as [pool|]; simpl; [|done].
    intros [= <-]. simpl. rewrite length_fmap. split; [done|].
    apply fuzzyMatches_spec.
Qed.

Lemma ftsAttempt_count (q cleanedQuery : string) (limit : nat) (m : SearchMode)
    (options : option SearchOptions) (r : SearchResult) :
  indexHonoursLimit →
  ftsAttempt q cleanedQuery limit m options = Returns (Some r) →
  totalCount r = length (results r) ∧ totalCount r ≤ limit.
Proof.
  intros Hlimit. unfold ftsAttempt.
  destruct (ftsMatch _ _ _ _) as [nodes|] eqn:Hrows; simpl; [|done].
  destruct (mapM _ nodes) as [scored|] eqn:E; simpl; [|done].
  destruct (_ && _); [done|]. intros [= <-]. simpl.
  rewrite sort_length, (mapM_length _ _ _ E). split.
  - destruct (includeExamples options);
      by rewrite ?addExamplesUntilError_length, length_fmap, sort_length,
                 (mapM_length _ _ _ E).
  - by eapply Hlimit.
Qed.

(** X1.  For every store whose index statement honours its [LIMIT], every
    query, limit and options: when [searchNodes] returns, [totalCount] is
    the number of results in the answer, and that number is at most
    [limit], whichever of the indexed, substring and fuzzy strategies
    produced the answer. *)
Theorem searchNodes_count_within_limit (q : string) (limit : nat)
    (options : option SearchOptions) (r : SearchResult) :
  indexHonoursLimit →
  searchNodes q limit options = Returns r →
  totalCount r = length (results r) ∧ totalCount r ≤ limit.
Proof.
  intros Hlimit. unfold searchNodes. destruct ftsExists.
  - unfold searchNodesFTS. destruct (eqs _ "").
    { intros [= <-]. simpl. split; [done|lia]. }
    case_bool_decide; [apply searchNodesFuzzy_count|].
    destruct (ftsAttempt _ _ _ _ _) as [[result|]|message] eqn:E.
    + intros [= <-]. by eapply ftsAttempt_count.
    + apply searchNodesLIKE_count.
    + destruct (_ || _); [|apply searchNodesLIKE_count].
      destruct (searchNodesLIKE _ limit options) as [likeResult|] eqn:El;
        simpl; [|done].
      intros [= <-]. simpl. by eapply searchNodesLIKE_count.
  - apply searchNodesLIKE_count.
Qed.
End SearchCountFacts.

Lemma tableDb_honours_limit (hasIndex : bool) (nodes : list NodeRow)
    (index : string → outcome (list FtsRow)) :
  @indexHonoursLimit (Fixtures.tableDb hasIndex nodes index).
Proof.
  intros ftsQuery cleanedQuery src limit rows. simpl.
  destruct (index ftsQuery) as [found|]; simpl; [|done].
  intros [= <-]. rewrite length_take. lia.
Qed.

(** The theorem above on the fixtures: the search for [webhook] with a
    limit of 5 returns one result and counts one. *)
Lemma searchNodes_count_within_limit_witness :
  @indexHonoursLimit Fixtures.sampleDb
  ∧ ∃ r, @SearchHandlers.searchNodes Fixtures.sampleDb Fixtures.sampleRuntime
           "webhook" 5 None = Returns r
         ∧ SearchHandlers.totalCount r = 1
         ∧ length (SearchHandlers.results r) = 1.
Proof.
  split; [apply tableDb_honours_limit|].
  eexists. split; [reflexivity|].
  destruct (@searchNodes_count_within_limit Fixtures.sampleDb Fixtures.sampleRuntime
              "webhook" 5 None _ (tableDb_honours_limit _ _ _) eq_refl)
    as [Hcount _].
  split; [reflexivity|]. rewrite <- Hcount. reflexivity.
Defined.

(** ** What the ranking keeps *)

Section RankingFacts.
Import JS JSArray SearchHandlers.
Context `{rt : Runtime}.

Lemma mapM_throws {A B : Type} (f : A → outcome B) (l : list A) (msg : string) :
  mapM f l = Throws msg → ∃ x, x ∈ l ∧ f x = Throws msg.
Proof.
  induction l as [|x l IH]; simpl; [done|].
  destruct (f x) as [y|msg'] eqn:E; simpl.
  - destruct (mapM f l) as [ys|msg'']; simpl; [done|].
    intros [= <-]. destruct IH as (x' & Hx' & Hf); [done|].
    exists x'. split; [by right|done].
  - intros [= <-]. exists x. split; [by left|done].
Qed.

Lemma genericScore_throws (node : NodeRow) (query_lower msg : string) :
  genericScore node query_lower = Throws msg →
  wordBoundaryTest query_lower (display_name node) = Throws msg.
Proof.
  unfold genericScore. destruct (startsWith _ _); [done|].
  destruct (wordBoundaryTest _ _) as [[]|]; simpl; [done| |by intros [= ->]].
  by repeat (match goal with
             | |- context [if ?b then _ else _] => destruct b
             end).
Qed.

Lemma rankScore_throws (node : NodeRow) (query_lower msg : string) :
  rankScore node query_lower = Throws msg →
  wordBoundaryTest query_lower (display_name node) = Throws msg.
Proof.
  unfold rankScore. destruct (rankBaseScore node query_lower) as [score|msg'] eqn:E.
  - simpl. case_bool_decide; [|done].
    by repeat (match goal with
               | |- context [if ?b then _ else _] => destruct b
               end).
  - simpl. intros [= <-]. unfold rankBaseScore in E.
    repeat (match type of E with
            | context [if ?b then _ else _] => destruct b; [done|]
            end).
    by apply genericScore_throws.
Qed.

(** X2.  For every list of candidates, query and limit, [rankSearchResults]
    either returns, and then it returns [min(limit, nodes.length)] of the
    candidates it was given, each at most as often as it occurs among them
    (all of them, in some order, when the limit does not cut the list), or
    it throws the error that building the whole-word pattern from the
    query raised on one of the candidates; nothing else makes it fail. *)
Theorem rankSearchResults_keeps_candidates (nodes : list NodeRow) (q : string)
    (limit : nat) :
  (∃ ranked,
     rankSearchResults nodes q limit = Returns ranked
     ∧ length ranked = limit `min` length nodes
     ∧ ranked ⊆+ nodes
     ∧ (length nodes ≤ limit → ranked ≡ₚ nodes))
  ∨ (∃ node msg,
       node ∈ nodes
       ∧ wordBoundaryTest (toLowerCase q) (display_name node) = Throws msg
       ∧ rankSearchResults nodes q limit = Throws msg).
Proof.
  destruct (rankSearchResults nodes q limit) as [ranked|msg] eqn:E.
  - left. exists ranked. split; [done|].
    split; [by eapply rankSearchResults_length|].
    unfold rankSearchResults, slice0 in E.
    destruct (mapM _ nodes) as [scored|] eqn:Es; simpl in E; [|done].
    injection E as <-.
    pose proof (mapM_scored (λ node, rankScore node (toLowerCase q)) _ _ Es)
      as Hfst.
    split.
    + rewrite <- Hfst. apply fmap_submseteq.
      etrans; [apply submseteq_take|]. by rewrite sort_Permutation.
    + intros Hlen. rewrite take_ge.
      * by rewrite sort_Permutation, Hfst.
      * rewrite sort_length, (mapM_length _ _ _ Es). done.
  - right. unfold rankSearchResults in E.
    destruct (mapM _ nodes) as [scored|msg'] eqn:Es; simpl in E; [done|].
    injection E as ->.
    apply mapM_throws in Es as (node & Hnode & Hthrows).
    exists node, msg. split; [done|]. split; [|done].
    destruct (rankScore node (toLowerCase q)) as [score|msg''] eqn:Er;
      simpl in Hthrows; [done|].
    injection Hthrows as ->. by apply rankScore_throws.
Qed.
End RankingFacts.

(** ** Lower bounds on the fuzzy score *)

Section FuzzyScoreFacts.
Import JS JSArray SearchHandlers EditDistance.

Lemma lev_le_max {A : Type} `{EqDecision A} (s t : list A) :
  lev s t ≤ length s `max` length t.
Proof.
  revert t. induction s as [|a s IHs]; intros t; [simpl; lia|].
  induction t as [|b t IHt]; [rewrite lev_nil_r; lia|].
  rewrite lev_cons. pose proof (IHs t). pose proof (subst_cost_le a b).
  unfold min3. cbn [length]. lia.
Qed.

Lemma length_list_ascii (s : string) :
  length (list_ascii_of_string s) = String.length s.
Proof. induction s as [|c s IH]; simpl; [done|]. by rewrite IH. Qed.

Lemma getEditDistance_le_max (s1 s2 : string) :
  getEditDistance s1 s2 ≤ String.length s1 `max` String.length s2.
Proof.
  unfold getEditDistance. rewrite distance_lev, <- !length_list_ascii.
  apply lev_le_max.
Qed.

(** The loop computing [minWordDistance] ends with the least distance to
    a word, reached by one of the words. *)
Lemma minWordDistance_foldl (q : string) (ws : list string) (best : option nat) :
  ∃ d, foldl (λ best word, minDistance best (getEditDistance q word)) best ws = d
       ∧ (d = best ∨ ∃ w, w ∈ ws ∧ d = Some (getEditDistance q w))
       ∧ (ws ≠ [] → is_Some d).
Proof.
  revert best. induction ws as [|w ws IH]; intros best; simpl.
  - exists best. split; [done|]. split; [by left|done].
  - destruct (IH (minDistance best (getEditDistance q w))) as (d & Hd & Hin & Hsome).
    exists d. split; [done|]. split.
    + destruct Hin as [->|(w' & Hw' & ->)].
      * unfold minDistance. destruct best as [m|].
        -- case_bool_decide; [right; exists w; split; [by left|done]|by left].
        -- right. exists w. split; [by left|done].
      * right. exists w'. split; [by right|done].
    + intros _. destruct ws as [|w' ws].
      * simpl in Hd. subst d. unfold minDistance.
        destruct best; [case_bool_decide|]; eauto.
      * by apply Hsome.
Qed.

Lemma minWordDistance_reached (q : string) (ws : list string) (d : nat) :
  minWordDistance q ws = Some d → ∃ w, w ∈ ws ∧ getEditDistance q w = d.
Proof.
  unfold minWordDistance.
  destruct (minWordDistance_foldl q ws None) as (d' & -> & [->|(w & Hw & ->)] & _);
    [done|].
  intros [= <-]. by exists w.
Qed.

Lemma firstWordAt_bound (q : string) (d : nat) (ws : list string) (len : nat) :
  (∃ w, w ∈ ws ∧ getEditDistance q w = d) →
  d ≤ firstWordAt q d ws len ∧ String.length q ≤ firstWordAt q d ws len.
Proof.
  induction ws as [|w ws IH]; intros (w' & Hw' & Hd); simpl.
  - by apply not_elem_of_nil in Hw'.
  - case_bool_decide as Hw.
    + pose proof (getEditDistance_le_max q w). lia.
    + apply IH. apply elem_of_cons in Hw' as [->|Hw']; [done|]. by exists w'.
Qed.

Lemma similarity_nonneg (d len : nat) :
  d ≤ len → 0 < len → (0 <= 1 - Qnat d / Qnat len)%Q.
Proof.
  intros Hd Hlen.
  assert (0 < Qnat len)%Q as Hpos.
  { unfold Qnat. change 0%Q with (inject_Z 0). rewrite <- Zlt_Qlt. lia. }
  assert (Qnat d / Qnat len <= 1)%Q as Hle.
  { apply Qle_shift_div_r; [done|]. rewrite Qmult_1_l. by apply Qnat_le. }
  lra.
Qed.

Lemma nat_min3_le (a b : nat) (c : option nat) :
  nat_min3 a b c ≤ a ∧ nat_min3 a b c ≤ b ∧ (∀ n, c = Some n → nat_min3 a b c ≤ n).
Proof.
  unfold nat_min3. destruct c as [c|]; repeat split; try lia.
  - intros n [= ->]. lia.
  - done.
Qed.

(** The least distance to a word is at most the distance to each word. *)
Lemma minWordDistance_le (q : string) (ws : list string) (w : string) :
  w ∈ ws → ∃ d, minWordDistance q ws = Some d ∧ d ≤ getEditDistance q w.
Proof.
  unfold minWordDistance.
  assert (∀ ws best m, best = Some m →
    ∃ d, foldl (λ best word, minDistance best (getEditDistance q word)) best ws = Some d
         ∧ d ≤ m) as Hmono.
  { clear. induction ws as [|w ws IH]; intros best m ->; simpl; [by exists m|].
    case_bool_decide as Hlt.
    - destruct (IH _ (getEditDistance q w) eq_refl) as (d & -> & Hd).
      exists d. split; [done|lia].
    - apply (IH _ m eq_refl). }
  revert w. generalize (@None nat) as best.
  induction ws as [|w' ws IH]; intros best w Hw; [by apply not_elem_of_nil in Hw|].
  simpl. apply elem_of_cons in Hw as [->|Hw]; [|by apply IH].
  destruct best as [m|]; simpl.
  - case_bool_decide as Hlt.
    + apply (Hmono ws _ (getEditDistance q w') eq_refl).
    + destruct (Hmono ws _ m eq_refl) as (d & -> & Hd). exists d. split; [done|lia].
  - apply (Hmono ws _ (getEditDistance q w') eq_refl).
Qed.

(** X3.  For every candidate and every query that is not empty, the fuzzy
    score is never negative; it is at least 800 when the lower-cased
    display name or the prefix-stripped node type contains the lower-cased
    query; and it is at least 500 when the lower-cased query is within two
    single-character edits of the lower-cased display name, of one of its
    words, or of the prefix-stripped node type.  Such candidates are
    therefore above the floor of 200 below which [searchNodesFuzzy] drops
    a candidate. *)
Theorem calculateFuzzyScore_lower_bounds (node : NodeRow) (q : string) :
  q ≠ "" →
  let queryLower := toLowerCase q in
  let displayNameLower := toLowerCase (display_name node) in
  let nodeTypeClean := typeWithoutPrefix node in
  (0 <= calculateFuzzyScore node q)%Q
  ∧ (includes displayNameLower queryLower = true
     ∨ includes nodeTypeClean queryLower = true →
     (800 <= calculateFuzzyScore node q)%Q)
  ∧ (getEditDistance queryLower displayNameLower ≤ 2
     ∨ getEditDistance queryLower nodeTypeClean ≤ 2
     ∨ (∃ word, word ∈ split_ws displayNameLower
                ∧ getEditDistance queryLower word ≤ 2) →
     (500 <= calculateFuzzyScore node q)%Q).
Proof.
  intros Hq.
  assert (0 < String.length (toLowerCase q)) as Hlen.
  { rewrite toLowerCase_length. destruct q; [done|simpl; lia]. }
  unfold calculateFuzzyScore. cbv zeta.
  set (ql := toLowerCase q) in *.
  set (name := toLowerCase (display_name node)).
  set (type := typeWithoutPrefix node).
  set (ws := split_ws name).
  set (minWord := minWordDistance ql ws).
  set (best := nat_min3 (getEditDistance ql name) (getEditDistance ql type) minWord).
  set (len := if bool_decide (minWord = Some best) then _ else _).
  assert (best ≤ len ∧ 0 < len) as [Hbest Hpos].
  { subst len. case_bool_decide as Hmw.
    - destruct (firstWordAt_bound ql best ws (String.length ql)) as [Hd Hl];
        [by apply minWordDistance_reached|]. lia.
    - case_bool_decide as Htd.
      + rewrite <- Htd. pose proof (getEditDistance_le_max ql type). lia.
      + assert (best = getEditDistance ql name) as ->.
        { subst best. unfold nat_min3 in *. destruct minWord as [c|].
          - assert (c ≠ (getEditDistance ql name `min` getEditDistance ql type) `min` c)
              by congruence.
            lia.
          - lia. }
        pose proof (getEditDistance_le_max ql name). lia. }
  pose proof (similarity_nonneg best len Hbest Hpos) as Hsim0.
  pose proof (similarity_le_1 best len) as Hsim1.
  pose proof (Qnat_nonneg (2 - best)) as H2.
  pose proof (Qnat_nonneg (3 - best)) as H3.
  assert (getEditDistance ql name ≤ 2 ∨ getEditDistance ql type ≤ 2
          ∨ (∃ word, word ∈ ws ∧ getEditDistance ql word ≤ 2) → best ≤ 2) as Hnear.
  { destruct (nat_min3_le (getEditDistance ql name) (getEditDistance ql type) minWord)
      as (Hn & Ht & Hw).
    fold best in Hn, Ht, Hw.
    intros [Hd|[Hd|(word & Hword & Hd)]]; [lia|lia|].
    destruct (minWordDistance_le ql ws word Hword) as (d & Hmin & Hle).
    specialize (Hw d Hmin). lia. }
  clearbody best len.
  generalize dependent (1 - Qnat best / Qnat len)%Q. intros sim Hsim0 Hsim1.
  generalize dependent (Qnat (2 - best)). intros x2 H2.
  generalize dependent (Qnat (3 - best)). intros x3 H3.
  destruct (eqs name ql || eqs type ql).
  { split; [lra|]. split; intros _; lra. }
  destruct (includes name ql || includes type ql) eqn:Einc.
  { split; [lra|]. split; intros _; lra. }
  apply orb_false_iff in Einc as [Einc1 Einc2].
  split; [|split].
  - repeat (match goal with
            | |- context [if ?b then _ else _] => destruct b
            end); lra.
  - intros [Hinc|Hinc]; congruence.
  - intros Hd%Hnear. rewrite (bool_decide_eq_true_2 (best ≤ 2)) by done.
    destruct (_ || _); lra.
Qed.
End FuzzyScoreFacts.

(** The theorem above on the fixtures: the misspelt [slak] is one edit
    away from [slack]. *)
Lemma calculateFuzzyScore_lower_bounds_witness :
  "slak" ≠ ""
  ∧ (500 <= SearchHandlers.calculateFuzzyScore Fixtures.slackRow "slak")%Q.
Proof.
  split; [done|].
  destruct (calculateFuzzyScore_lower_bounds Fixtures.slackRow "slak") as (_ & _ & Hnear);
    [done|].
  apply Hnear. left. vm_compute. lia.
Defined.

Section FuzzySearchFacts.
Import JS JSArray SearchHandlers.
Context `{db : DatabaseAdapter} `{rt : Runtime}.

Lemma words_nonempty_query (q : string) : words (toLowerCase q) ≠ [] → q ≠ "".
Proof. by intros Hwords ->. Qed.

Lemma elem_of_take_or_full {A : Type} (x : A) (l : list A) (limit : nat) :
  x ∈ l → x ∈ take limit l ∨ length (take limit l) = limit.
Proof.
  intros Hx. destruct (decide (length l ≤ limit)) as [Hle|Hgt].
  - left. by rewrite take_ge.
  - right. rewrite length_take. lia.
Qed.

(** X4.  For every store, query with at least one term, limit and candidate
    of the node table that is a near match of the query, the fuzzy search
    returns, and its answer either contains the candidate or is full:
    only the cut at [limit] can keep a near match out of the results. *)
Theorem searchNodesFuzzy_finds_near_matches (q : string) (limit : nat)
    (pool : list NodeRow) (node : NodeRow) :
  selectAllNodes = Returns pool →
  words (toLowerCase q) ≠ [] →
  node ∈ pool →
  nearMatch q node →
  ∃ r, searchNodesFuzzy q limit = Returns r
       ∧ (plainResult node ∈ results r ∨ totalCount r = limit).
Proof.
  intros Hpool Hwords Hnode Hnear. unfold searchNodesFuzzy.
  rewrite bool_decide_eq_false_2 by (by intros ?%nil_length_inv).
  rewrite Hpool. simpl. eexists. split; [done|]. simpl.
  assert (node ∈ sort (fuzzyOrder q)
            (filter (λ n, Qle_bool FUZZY_FLOOR (calculateFuzzyScore n q) = true) pool))
    as Hkept.
  { rewrite elem_of_sort. apply list_elem_of_filter. split; [|done].
    apply Qle_bool_iff. unfold FUZZY_FLOOR.
    destruct (calculateFuzzyScore_lower_bounds node q) as (_ & Hsub & Hedit);
      [by apply words_nonempty_query|].
    destruct Hnear as [Hn|[Hn|Hn]].
    - assert (800 <= calculateFuzzyScore node q)%Q by (apply Hsub; by left). lra.
    - assert (800 <= calculateFuzzyScore node q)%Q by (apply Hsub; by right). lra.
    - assert (500 <= calculateFuzzyScore node q)%Q by (by apply Hedit). lra. }
  rewrite fuzzyMatches_pipeline.
  destruct (elem_of_take_or_full _ _ limit Hkept) as [Hin|Hfull].
  - left. by apply list_elem_of_fmap_2.
  - by right.
Qed.
End FuzzySearchFacts.

(** The theorem above on the fixtures: the fuzzy search for [slak] finds
    the Slack node. *)
Lemma searchNodesFuzzy_finds_near_matches_witness :
  @selectAllNodes Fixtures.sampleDb = Returns Fixtures.sampleNodes
  ∧ JS.words (JS.toLowerCase "slak") ≠ []
  ∧ Fixtures.slackRow ∈ Fixtures.sampleNodes
  ∧ nearMatch "slak" Fixtures.slackRow
  ∧ ∃ r, @SearchHandlers.searchNodesFuzzy Fixtures.sampleDb Fixtures.sampleRuntime "slak" 10 = Returns r
         ∧ (@SearchHandlers.plainResult Fixtures.sampleRuntime Fixtures.slackRow
              ∈ SearchHandlers.results r
            ∨ SearchHandlers.totalCount r = 10).
Proof.
  assert (JS.words (JS.toLowerCase "slak") ≠ []) as Hwords by done.
  assert (Fixtures.slackRow ∈ Fixtures.sampleNodes) as Hin by (by left).
  assert (nearMatch "slak" Fixtures.slackRow) as Hnear.
  { right. right. left. vm_compute. lia. }
  split; [reflexivity|]. split; [exact Hwords|]. split; [exact Hin|].
  split; [exact Hnear|].
  apply (@searchNodesFuzzy_finds_near_matches Fixtures.sampleDb Fixtures.sampleRuntime
           "slak" 10 Fixtures.sampleNodes Fixtures.slackRow eq_refl Hwords Hin Hnear).
Defined.

(** ** Failures of the indexed strategy *)

Section FallbackFacts.
Import JS JSArray SearchHandlers.
Context `{db : DatabaseAdapter} `{rt : Runtime}.

(** X5.  For every store, query, limit and options asking for a mode other
    than FUZZY: an error thrown by [searchNodes] is the error the substring
    strategy throws on the same normalized query.  A failure inside the
    indexed strategy (of the index statement, of the scoring, of the
    lookup of examples) is caught and answered by the substring strategy;
    it is never what the caller sees. *)
Theorem searchNodes_throws_only_from_substring_search (q : string) (limit : nat)
    (options : option SearchOptions) (message : string) :
  requestedMode options ≠ FUZZY →
  searchNodes q limit options = Throws message →
  searchNodesLIKE (normalizeQuery q) limit options = Throws message.
Proof.
  intros Hmode. unfold searchNodes. fold (requestedMode options).
  destruct ftsExists; [|done].
  unfold searchNodesFTS. destruct (eqs _ ""); [done|].
  rewrite bool_decide_eq_false_2 by done.
  destruct (ftsAttempt _ _ _ _ _) as [[result|]|failure]; [done|done|].
  destruct (_ || _); [|done].
  destruct (searchNodesLIKE _ limit options) as [likeResult|]; simpl; [done|].
  by intros [= <-].
Qed.
End FallbackFacts.

Lemma throws_by_message {A : Type} (x : outcome A) (message : string) :
  match x with
  | Throws m => bool_decide (m = message)
  | Returns _ => false
  end = true →
  x = Throws message.
Proof. destruct x; [done|]. by intros ->%bool_decide_eq_true. Qed.

(** The theorem above on the fixtures, with a regular-expression engine
    that rejects an unterminated group: the query [slack (] makes the
    scoring of the indexed strategy fail, the substring strategy takes
    over and fails on the same pattern. *)
Lemma searchNodes_throws_only_from_substring_search_witness :
  requestedMode None ≠ FUZZY
  ∧ @SearchHandlers.searchNodes Fixtures.sampleDb MoreFixtures.strictRegexRuntime
      "slack (" 5 None
    = Throws "Invalid regular expression: Unterminated group"
  ∧ @SearchHandlers.searchNodesLIKE Fixtures.sampleDb MoreFixtures.strictRegexRuntime
      "slack (" 5 None
    = Throws "Invalid regular expression: Unterminated group".
Proof.
  assert (requestedMode None ≠ FUZZY) as Hmode by done.
  assert (@SearchHandlers.searchNodes Fixtures.sampleDb MoreFixtures.strictRegexRuntime
            "slack (" 5 None
          = Throws "Invalid regular expression: Unterminated group") as Hthrows
    by (apply throws_by_message; vm_compute; reflexivity).
  split; [exact Hmode|]. split; [exact Hthrows|].
  apply (@searchNodes_throws_only_from_substring_search Fixtures.sampleDb
           MoreFixtures.strictRegexRuntime "slack (" 5 None _ Hmode Hthrows).
Defined.

(** ** Examples do not change the answer *)

Section ExamplesFacts.
Import JS JSArray SearchHandlers.
Context `{db : DatabaseAdapter} `{rt : Runtime}.

Lemma withoutExamples_withExamples (r r' : NodeResult) :
  withExamples r = Returns r' → withoutExamples r' = withoutExamples r.
Proof.
  unfold withExamples. destruct (templateExamples _) as [rows|]; simpl; [|done].
  case_bool_decide; [|by intros [= <-]].
  destruct (mapM _ rows) as [exs|]; simpl; [|done]. by intros [= <-].
Qed.

Lemma withoutExamples_each (rs : list NodeResult) :
  withoutExamples <$> addExamplesEach rs = withoutExamples <$> rs.
Proof.
  unfold addExamplesEach. rewrite <- list_fmap_compose.
  apply list_fmap_ext. intros i r _. simpl.
  destruct (withExamples r) as [r'|] eqn:E; [|done].
  by apply withoutExamples_withExamples.
Qed.

Lemma withoutExamples_until_error (rs : list NodeResult) :
  withoutExamples <$> addExamplesUntilError rs = withoutExamples <$> rs.
Proof.
  induction rs as [|r rs IH]; [done|]. cbn [addExamplesUntilError].
  destruct (withExamples r) as [r'|] eqn:E; [|done].
  by rewrite !fmap_cons, IH, (withoutExamples_withExamples _ _ E).
Qed.

Lemma eraseExamples_likeResult (q : string) (b : bool) (options : SearchOptions)
    (ranked : list NodeRow) :
  eraseExamples (likeResult q (Some (setIncludeExamples b options)) ranked)
  = eraseExamples (likeResult q (Some options) ranked).
Proof.
  unfold eraseExamples, likeResult, includeExamples. simpl. f_equal.
  destruct b, (opt_includeExamples options); by rewrite ?withoutExamples_each.
Qed.

Lemma eraseExamples_searchNodesLIKE (q : string) (limit : nat) (b : bool)
    (options : SearchOptions) :
  eraseExamples <$> searchNodesLIKE q limit (Some (setIncludeExamples b options))
  = eraseExamples <$> searchNodesLIKE q limit (Some options).
Proof.
  unfold searchNodesLIKE.
  change (sourceValue (Some (setIncludeExamples b options)))
    with (sourceValue (Some options)).
  destruct (quoted q).
  - destruct (likePhrase _ _ _) as [nodes|]; simpl; [|done].
    destruct (rankSearchResults _ _ _) as [ranked|]; simpl; [|done].
    unfold fmap, outcome_fmap, omap. simpl. f_equal. apply eraseExamples_likeResult.
  - case_bool_decide; [done|].
    destruct (likeWords _ _ _) as [nodes|]; simpl; [|done].
    destruct (rankSearchResults _ _ _) as [ranked|]; simpl; [|done].
    unfold fmap, outcome_fmap, omap. simpl. f_equal. apply eraseExamples_likeResult.
Qed.

Lemma eraseExamples_ftsAttempt (q cleanedQuery : string) (limit : nat) (m : SearchMode)
    (b : bool) (options : SearchOptions) :
  omap (option_map eraseExamples)
       (ftsAttempt q cleanedQuery limit m (Some (setIncludeExamples b options)))
  = omap (option_map eraseExamples) (ftsAttempt q cleanedQuery limit m (Some options)).
Proof.
  unfold ftsAttempt.
  change (sourceValue (Some (setIncludeExamples b options)))
    with (sourceValue (Some options)).
  destruct (ftsMatch _ _ _ _) as [nodes|]; simpl; [|done].
  destruct (mapM _ nodes) as [scored|]; simpl; [|done].
  destruct (_ && _); [done|].
  unfold omap, option_map, eraseExamples, includeExamples.
  simpl. do 3 f_equal.
  destruct b, (opt_includeExamples options); by rewrite ?withoutExamples_until_error.
Qed.

Lemma eraseExamples_setMode (r : SearchResult) (m : SearchMode) :
  eraseExamples (setMode r m) = setMode (eraseExamples r) m.
Proof. done. Qed.

(** X6.  For every store, query, limit and options: asking for examples
    changes nothing but the [examples] member of the results.  With
    [includeExamples] set either way the search returns in the same cases
    and throws the same error in the others, and the two answers agree on
    the query, the mode, the count and, once the examples are taken off,
    on every result and on their order.  In particular a failure while
    examples are looked up or parsed never fails the search. *)
Theorem searchNodes_examples_only_add (q : string) (limit : nat) (b : bool)
    (options : SearchOptions) :
  eraseExamples <$> searchNodes q limit (Some (setIncludeExamples b options))
  = eraseExamples <$> searchNodes q limit (Some options).
Proof.
  unfold searchNodes. simpl.
  destruct ftsExists; [|apply eraseExamples_searchNodesLIKE].
  unfold searchNodesFTS. destruct (eqs _ ""); [done|].
  case_bool_decide; [done|].
  pose proof (eraseExamples_ftsAttempt (normalizeQuery q) (trim (normalizeQuery q))
                limit (default OR (opt_mode options)) b options) as Hfts.
  pose proof (eraseExamples_searchNodesLIKE (normalizeQuery q) limit b options)
    as Hlike.
  destruct (ftsAttempt _ _ _ _ (Some (setIncludeExamples b options)))
    as [[r1|]|e1];
    destruct (ftsAttempt _ _ _ _ (Some options)) as [[r2|]|e2];
    try discriminate Hfts; try done.
  - change (Returns (Some (eraseExamples r1)) = Returns (Some (eraseExamples r2)))
      in Hfts.
    change (Returns (eraseExamples r1) = Returns (eraseExamples r2)).
    congruence.
  - change (Throws e1 = Throws e2 :> outcome (option SearchResult)) in Hfts.
    injection Hfts as <-.
    destruct (_ || _); [|done].
    destruct (searchNodesLIKE _ limit (Some (setIncludeExamples b options)))
      as [l1|m1];
      destruct (searchNodesLIKE _ limit (Some options)) as [l2|m2];
      try discriminate Hlike; [|done].
    change (Returns (eraseExamples l1) = Returns (eraseExamples l2)) in Hlike.
    change (Returns (eraseExamples (setMode l1 (default OR (opt_mode options))))
            = Returns (eraseExamples (setMode l2 (default OR (opt_mode options))))).
    rewrite !eraseExamples_setMode. congruence.
Qed.
End ExamplesFacts.

(** ** The relevance label and the relevance score *)

Section LabelFacts.
Import JS JSArray SearchHandlers.
Context `{rt : Runtime}.

Lemma startsWith_refl (s : string) : startsWith s s = true.
Proof.
  induction s as [|c s IH]; simpl; [done|].
  by rewrite bool_decide_eq_true_2, IH.
Qed.

Lemma startsWith_includes (s p : string) :
  startsWith s p = true → includes s p = true.
Proof. intros Hp. destruct s; simpl in *; by rewrite Hp. Qed.

Lemma includes_refl (s : string) : includes s s = true.
Proof. apply startsWith_includes, startsWith_refl. Qed.

Lemma includes_drop (n : nat) (s p : string) :
  includes (drop n s) p = true → includes s p = true.
Proof.
  revert s. induction n as [|n IH]; intros s; [by destruct s|].
  destruct s as [|c s]; [done|]. cbn [drop]. intros Hp%IH.
  cbn [includes]. rewrite Hp. apply orb_true_r.
Qed.

Lemma includes_stripPrefix (prefix s p : string) :
  includes (stripPrefix prefix s) p = true → includes s p = true.
Proof.
  unfold stripPrefix. destruct (startsWith s prefix); [apply includes_drop|done].
Qed.

Lemma includes_typeWithoutPrefix (node : NodeRow) (p : string) :
  includes (typeWithoutPrefix node) p = true →
  includes (toLowerCase (node_type node)) p = true.
Proof. unfold typeWithoutPrefix. by intros ?%includes_stripPrefix%includes_stripPrefix. Qed.

Lemma genericScore_label (node : NodeRow) (q : string) (score : nat) :
  genericScore node (toLowerCase q) = Returns score →
  (score ∈ substringScores → calculateRelevance node q = "high")
  ∧ (score = 400 → calculateRelevance node q ≠ "low").
Proof.
  unfold genericScore, calculateRelevance, substringScores.
  destruct (startsWith _ _) eqn:Estart.
  { intros [= <-]. rewrite (startsWith_includes _ _ Estart).
    split; [|done]. by destruct (includes (toLowerCase (node_type node)) _). }
  destruct (wordBoundaryTest _ _) as [[]|]; simpl; [| |done].
  { intros [= <-]. split; [|intros; lia].
    rewrite !elem_of_cons, elem_of_nil. intros; exfalso; lia. }
  destruct (includes (toLowerCase (display_name node)) _) eqn:Ename.
  { intros [= <-]. split; [|done].
    by destruct (includes (toLowerCase (node_type node)) _). }
  destruct (includes (typeWithoutPrefix node) _) eqn:Etype.
  { intros [= <-]. rewrite (includes_typeWithoutPrefix _ _ Etype). by split. }
  destruct (descriptionIncludes node _) eqn:Edesc; intros [= <-].
  - split; [|by destruct (includes (toLowerCase (node_type node)) _)].
    rewrite !elem_of_cons, elem_of_nil. intros; exfalso; lia.
  - split; [|intros; lia].
    rewrite !elem_of_cons, elem_of_nil. intros; exfalso; lia.
Qed.

(** X7.  For every candidate and query for which the scorer of the indexed
    strategy returns: a score given for an exact or partial match of the
    display name or the node type (1000, 950, 800, 600 or 500) goes with
    the label [high], and the score 400, given for a match in the
    description, never goes with the label [low].  The two measures of
    relevance attached to a result of the indexed strategy do not
    contradict each other. *)
Theorem relevance_label_agrees_with_score (node : NodeRow) (q : string) (score : nat) :
  calculateRelevanceScore node q = Returns score →
  (score ∈ substringScores → calculateRelevance node q = "high")
  ∧ (score = 400 → calculateRelevance node q ≠ "low").
Proof.
  unfold calculateRelevanceScore, eqs.
  case_bool_decide as Hname.
  { intros [= <-]. split; [|done]. intros _. unfold calculateRelevance.
    rewrite Hname, includes_refl.
    by destruct (includes (toLowerCase (node_type node)) _). }
  case_bool_decide as Htype.
  { intros [= <-]. split; [|done]. intros _. unfold calculateRelevance.
    by rewrite (includes_typeWithoutPrefix node _)
      by (rewrite Htype; apply includes_refl). }
  assert (∀ n : nat, n ∈ [900; 890; 850] →
            (n ∈ substringScores → calculateRelevance node q = "high")
            ∧ (n = 400 → calculateRelevance node q ≠ "low")) as Hpinned.
  { intros n. unfold substringScores. rewrite !elem_of_cons, !elem_of_nil.
    intros Hn. split; intros; exfalso; lia. }
  repeat (match goal with
          | |- (if ?b then _ else _) = _ → _ =>
              destruct b; [intros [= <-]; apply Hpinned;
                           rewrite !elem_of_cons; lia|]
          end).
  apply genericScore_label.
Qed.
End LabelFacts.

(** The theorem above on the fixtures: for the query [Webhook] the
    webhook node scores 1000 and is labelled [high]. *)
Lemma relevance_label_agrees_with_score_witness :
  @SearchHandlers.calculateRelevanceScore Fixtures.sampleRuntime
    Fixtures.webhookRow "Webhook" = Returns 1000
  ∧ SearchHandlers.calculateRelevance Fixtures.webhookRow "Webhook" = "high".
Proof.
  assert (@SearchHandlers.calculateRelevanceScore Fixtures.sampleRuntime
            Fixtures.webhookRow "Webhook" = Returns 1000) as Hscore
    by (vm_compute; reflexivity).
  split; [exact Hscore|].
  destruct (@relevance_label_agrees_with_score Fixtures.sampleRuntime
              Fixtures.webhookRow "Webhook" 1000 Hscore) as [Hhigh _].
  apply Hhigh. by left.
Defined.

(** ** The class [NodeSearchHandler] *)

Section NodeSearchHandlerFacts.
Import JS JSArray.
Context `{db : DatabaseAdapter} `{rt : Runtime} `{repo : NodeRepository} `{sv : Services}.

(** X8.  For every row of the node table and every non-empty query, the
    relevance [NodeSearchHandler] computes is at most 0.3, and it is 0
    exactly when neither the lower-cased node type nor the lower-cased
    description contains the lower-cased query.  The display name of the
    row plays no part in it: the rules on the name read a member the rows
    do not have. *)
Theorem NodeSearchHandler_relevance_leaves_name_out (node : NodeRow) (q : string) :
  q ≠ "" →
  (NodeSearchHandler.calculateRelevance node q <= 3 # 10)%Q
  ∧ ((NodeSearchHandler.calculateRelevance node q == 0)%Q
     ↔ includes (toLowerCase (node_type node)) (toLowerCase q) = false
       ∧ includes (toLowerCase (default "" (description node))) (toLowerCase q) = false).
Proof.
  intros Hq. unfold NodeSearchHandler.calculateRelevance, NodeSearchHandler.eqs.
  rewrite bool_decide_eq_false_2 by done.
  destruct q as [|c q]; [done|]. cbn [toLowerCase startsWith includes].
  rewrite bool_decide_eq_false_2 by done. cbn [orb].
  destruct (includes (toLowerCase (node_type node)) _);
    destruct (includes (toLowerCase (default "" (description node))) _);
    (split; [by vm_compute|]); split; try (by intros [? ?]); try done;
    intros Hzero; by vm_compute in Hzero.
Qed.

(** X9.  For every query, limit and options: when the [searchNodes] method of
    [NodeSearchHandler] throws, either the query is missing or blank and
    the error is [Search query is required], or the error is the one the
    ordered substring statement raised for the cleaned query.  A failure
    of the index statement never reaches the caller. *)
Theorem NodeSearchHandler_searchNodes_errors (q : option string) (limit : nat)
    (options : option NodeSearchHandler.Options) (message : string) :
  NodeSearchHandler.searchNodes q limit options = Throws message →
  (default "" (trim <$> q) = "" ∧ message = "Search query is required")
  ∨ (∃ s, q = Some s ∧ likeOrdered (removeAngles (trim s)) limit = Throws message).
Proof.
  unfold NodeSearchHandler.searchNodes. destruct q as [s|]; [|intros [= <-]; by left].
  unfold NodeSearchHandler.eqs at 1. case_bool_decide as Hblank.
  { intros [= <-]. by left. }
  intros Hthrows. right. exists s. split; [done|].
  unfold try_catch in Hthrows.
  destruct (NodeSearchHandler.searchNodesFTS _ _ _ _); [done|].
  unfold NodeSearchHandler.searchNodesLIKE in Hthrows.
  destruct (likeOrdered _ _); simpl in Hthrows; [done|]. by injection Hthrows as ->.
Qed.
End NodeSearchHandlerFacts.

(** The first theorem above on the fixtures: the query [slack] finds the
    Slack node with the relevance 0.3 of a match in type and
    description, although it is the node's display name. *)
Lemma NodeSearchHandler_relevance_leaves_name_out_witness :
  "slack" ≠ ""
  ∧ (NodeSearchHandler.calculateRelevance Fixtures.slackRow "slack" <= 3 # 10)%Q.
Proof.
  split; [done|].
  apply (NodeSearchHandler_relevance_leaves_name_out Fixtures.slackRow "slack").
  done.
Defined.

(** The second theorem above on the fixtures: the empty query. *)
Lemma NodeSearchHandler_searchNodes_errors_witness :
  @NodeSearchHandler.searchNodes Fixtures.sampleDb Fixtures.sampleRuntime
    (Some "  ") 20 None = Throws "Search query is required"
  ∧ JS.trim "  " = "".
Proof.
  assert (@NodeSearchHandler.searchNodes Fixtures.sampleDb Fixtures.sampleRuntime
            (Some "  ") 20 None = Throws "Search query is required") as Hthrows
    by reflexivity.
  split; [exact Hthrows|].
  destruct (@NodeSearchHandler_searchNodes_errors Fixtures.sampleDb
              Fixtures.sampleRuntime (Some "  ") 20 None _ Hthrows)
    as [[Hblank _]|(s & Hs & Hlike)].
  - exact Hblank.
  - injection Hs as <-. discriminate Hlike.
Defined.

(** ** The tool layer: required parameters and template searches *)

Section ToolParamFacts.
Import ToolExecution ToolRouting.

Lemma checkRequiredParams_find (name : string) (args : gmap string JsValue)
    (required : list string) :
  checkRequiredParams name args required
  = match List.find (λ param, negb (isPresent args param)) required with
    | Some param => Throws (missingParameter param name)
    | None => Returns ()
    end.
Proof.
  induction required as [|param required IH]; [done|].
  cbn [checkRequiredParams List.find].
  assert (negb (hasProperty args param) || nullishAt args param
          = negb (isPresent args param)) as ->.
  { unfold isPresent, hasProperty, nullishAt.
    destruct (args !! param) as [v|].
    - rewrite bool_decide_eq_true_2 by by eexists. by destruct v.
    - rewrite bool_decide_eq_false_2 by by intros [? ?].
      by case_bool_decide. }
  rewrite IH. by destruct (isPresent args param).
Qed.

(** X10.  For every tool name, argument object and list of required parameters,
    when the handler has no parameter callback or its callback accepts the
    arguments: [validateToolParams] returns exactly when every required
    parameter is present, and otherwise throws the error naming the first
    parameter of the list that is not.  A parameter is present when it is
    a key of the arguments with a value other than [undefined] and [null],
    and also when, not being a key, it bears the name of a member every
    object inherits ([constructor], [toString], ...): the [in] operator
    finds such a member and its value is a function or an object. *)
Theorem validateToolParams_reports_first_missing
    (callback : option (string → gmap string JsValue → list string → outcome unit))
    (name : string) (args : gmap string JsValue) (required : list string) :
  (∀ cb, callback = Some cb → cb name args required = Returns ()) →
  validateToolParams callback name args required
  = match List.find (λ param, negb (isPresent args param)) required with
    | Some param => Throws (missingParameter param name)
    | None => Returns ()
    end.
Proof.
  intros Hcb. unfold validateToolParams.
  assert (match callback with
          | Some callback => callback name args required
          | None => Returns ()
          end = Returns ()) as ->.
  { destruct callback as [cb|]; [by apply Hcb|done]. }
  apply checkRequiredParams_find.
Qed.

(** The theorem above at a [get_node] call without its [nodeType]. *)
Lemma validateToolParams_reports_first_missing_witness :
  validateToolParams None "get_node" {[ "mode" := JStr "docs" ]} ["nodeType"]
  = Throws "Missing required parameter 'nodeType' for tool 'get_node'".
Proof.
  rewrite (validateToolParams_reports_first_missing None "get_node"
             {[ "mode" := JStr "docs" ]} ["nodeType"]).
  - reflexivity.
  - intros cb Hcb. discriminate Hcb.
Defined.

(** A required parameter named like an inherited member passes on the
    empty argument object. *)
Example validateToolParams_inherited_name :
  validateToolParams None "x" ∅ ["constructor"; "toString"] = Returns ()
  ∧ validateToolParams None "x" ∅ ["constructor"; "nodeType"]
    = Throws "Missing required parameter 'nodeType' for tool 'x'".
Proof. split; vm_compute; reflexivity. Qed.
End ToolParamFacts.

Section TemplateSearchFacts.
Import ToolRouting.
Context `{cv : Conversions}.

Lemma clamp_between (x : Q) :
  (1 <= Qmin (Qmax x 1) 100)%Q ∧ (Qmin (Qmax x 1) 100 <= 100)%Q.
Proof.
  split; [|apply Q.le_min_r].
  apply Q.min_glb; [apply Q.le_max_r|lra].
Qed.

Lemma searchLimit_between (n : JsNumber) :
  between 1 100 (mathMin (mathMax (numberOr n (Finite 20)) (Finite 1)) (Finite 100)).
Proof.
  destruct n as [| | |q]; cbn [numberOr].
  - apply clamp_between.
  - cbn. lra.
  - cbn. split; [apply Q.min_glb; lra|apply Q.le_min_r].
  - destruct (Qeq_bool q 0); apply clamp_between.
Qed.

Lemma searchOffset_nonNegative (n : JsNumber) :
  nonNegative (mathMax (numberOr n (Finite 0)) (Finite 0)).
Proof.
  destruct n as [| | |q]; cbn [numberOr].
  - apply Q.le_max_r.
  - done.
  - cbn. lra.
  - destruct (Qeq_bool q 0); apply Q.le_max_r.
Qed.

(** X11.  For every argument object of a [search_templates] call, whatever the
    [limit] and [offset] arguments are (missing, not numbers, negative,
    fractional, huge): when [executeTool] calls a template handler, the
    limit it passes is a finite number between 1 and 100 and the offset it
    passes is not negative and not [NaN]. *)
Theorem search_templates_clamps_limit_and_offset (args : gmap string JsValue)
    (call : TemplateCall) :
  executeSearchTemplates args = Returns call →
  between 1 100 (callLimit call) ∧ nonNegative (callOffset call).
Proof.
  unfold executeSearchTemplates.
  pose proof (searchLimit_between (toNumber (arg args "limit"))) as Hlimit.
  pose proof (searchOffset_nonNegative (toNumber (arg args "offset"))) as Hoffset.
  repeat (match goal with
          | |- context [if ?b then _ else _] => destruct b
          | |- context [match arg args "nodeTypes" with _ => _ end] =>
              destruct (arg args "nodeTypes") as [| | | | |[|? ?]|]
          end); try done; by intros [= <-].
Qed.
End TemplateSearchFacts.

(** The theorem above at a keyword search asking for 500 templates from
    offset -3: the handler is called with a limit of 100 and an offset of
    0. *)
Lemma search_templates_clamps_limit_and_offset_witness :
  @ToolRouting.executeSearchTemplates ToolRouting.noParsing
    {[ "query" := JStr "slack"; "limit" := JNum 500; "offset" := JNum (-3) ]}
  = Returns (ToolRouting.CallSearchTemplates (JStr "slack")
               (ToolRouting.Finite (Qmin (Qmax 500 1) 100))
               (ToolRouting.Finite (Qmax (-3) 0)) JUndefined)
  ∧ ToolRouting.between 1 100 (ToolRouting.Finite (Qmin (Qmax 500 1) 100)).
Proof.
  assert (@ToolRouting.executeSearchTemplates ToolRouting.noParsing
            {[ "query" := JStr "slack"; "limit" := JNum 500; "offset" := JNum (-3) ]}
          = Returns (ToolRouting.CallSearchTemplates (JStr "slack")
                       (ToolRouting.Finite (Qmin (Qmax 500 1) 100))
                       (ToolRouting.Finite (Qmax (-3) 0)) JUndefined)) as Hcall
    by reflexivity.
  split; [exact Hcall|].
  apply (@search_templates_clamps_limit_and_offset ToolRouting.noParsing _ _ Hcall).
Defined.

(** ** The errors of [getNode] *)

Section NodeRoutingFacts.
Context `{repo : NodeRepository} `{sv : Services} `{rt : Runtime}.

Lemma handleInfoMode_throws (nodeType detail : string)
    (includeTypeInfo includeExamples : option bool) (message : string) :
  detail ∈ NodeRouting.validDetailLevels →
  NodeRouting.handleInfoMode nodeType detail includeTypeInfo includeExamples
  = Throws message
  ↔ detail = "minimal" ∧ NodeRouting.unknownNode nodeType
    ∧ message = NodeHandlers.notFound nodeType.
Proof.
  unfold NodeRouting.validDetailLevels, NodeRouting.handleInfoMode,
    NodeRouting.unknownNode, NodeRouting.eqs.
  rewrite !elem_of_cons, elem_of_nil.
  intros [->|[->|[->|[]]]]; simpl.
  - destruct (getNode nodeType) as [node|] eqn:E.
    + split; [done|]. by intros (_ & [? _] & _).
    + destruct (NodeHandlers.firstFound _) as [node|] eqn:Ealt.
      * split; [done|]. intros (_ & [_ Hall] & _).
        apply (proj2 (firstFound_None _)) in Hall. congruence.
      * pose proof (proj1 (firstFound_None _) Ealt) as Hall. split.
        -- by intros [= <-].
        -- by intros (_ & _ & ->).
  - split; [done|]. by intros [? _].
  - split; [done|]. by intros [? _].
Qed.

Lemma handleVersionMode_throws (nodeType mode : string)
    (fromVersion toVersion : option string) (message : string) :
  mode ∈ NodeRouting.validModes → mode ≠ "info" →
  NodeRouting.handleVersionMode nodeType mode fromVersion toVersion = Throws message
  ↔ ((mode = "compare" ∨ mode = "breaking")
     ∧ NodeRouting.falsy fromVersion = true
     ∧ message = NodeRouting.fromVersionRequired mode nodeType)
    ∨ (mode = "migrations"
       ∧ (NodeRouting.falsy fromVersion = true ∨ NodeRouting.falsy toVersion = true)
       ∧ message = NodeRouting.bothVersionsRequired nodeType).
Proof.
  unfold NodeRouting.validModes, NodeRouting.handleVersionMode, NodeRouting.eqs.
  rewrite !elem_of_cons, elem_of_nil.
  intros [->|[->|[->|[->|[->|[]]]]]] Hinfo; [done|..]; simpl.
  - split; [done|]. intros [([|] & _)|(? & _)]; done.
  - destruct (NodeRouting.falsy fromVersion); split.
    + intros [= <-]. left. by split; [left|].
    + intros [(_ & _ & ->)|(? & _)]; done.
    + done.
    + intros [(_ & ? & _)|(? & _)]; done.
  - destruct (NodeRouting.falsy fromVersion); split.
    + intros [= <-]. left. by split; [right|].
    + intros [(_ & _ & ->)|(? & _)]; done.
    + done.
    + intros [(_ & ? & _)|(? & _)]; done.
  - destruct (NodeRouting.falsy fromVersion), (NodeRouting.falsy toVersion);
      simpl; split;
      try (intros [= <-]; right; split; [done|]; split; [auto|done]);
      try done;
      intros [([|] & _)|(_ & Hfalsy & Hmsg)]; try done;
      try (by rewrite Hmsg); destruct Hfalsy; done.
Qed.

(** X12.  For every call of [getNode], the errors it throws before handing
    over to the handlers of the detail levels [standard] and [full] and of
    the version modes are exactly these: the detail level is not one of
    [minimal], [standard], [full]; else the mode is not one of [info],
    [versions], [compare], [breaking], [migrations]; else the mode is
    [compare] or [breaking] and [fromVersion] is missing or empty; else the
    mode is [migrations] and one of the two versions is missing or empty;
    else the call is for [minimal] information and the repository knows
    neither the normalized identifier nor any of its alternatives.  Each
    error carries its own message; the messages [Unknown detail level] and
    [Unknown mode] of the two inner handlers are never thrown.  The
    detail level is checked in the version modes too, which do not use
    it, and the [minimal] lookup does not try the identifier as the caller
    wrote it. *)
Theorem getNode_error_cases (nodeType detail mode : string)
    (includeTypeInfo includeExamples : option bool)
    (fromVersion toVersion : option string) (message : string) :
  let normalizedType := normalizeToFullForm nodeType in
  NodeRouting.getNode nodeType detail mode includeTypeInfo includeExamples
                      fromVersion toVersion = Throws message
  ↔ ((detail ∉ NodeRouting.validDetailLevels)
     ∧ message = NodeRouting.invalidDetail detail)
    ∨ (detail ∈ NodeRouting.validDetailLevels
       ∧ (((mode ∉ NodeRouting.validModes)
           ∧ message = NodeRouting.invalidMode mode)
          ∨ ((mode = "compare" ∨ mode = "breaking")
             ∧ NodeRouting.falsy fromVersion = true
             ∧ message = NodeRouting.fromVersionRequired mode normalizedType)
          ∨ (mode = "migrations"
             ∧ (NodeRouting.falsy fromVersion = true
                ∨ NodeRouting.falsy toVersion = true)
             ∧ message = NodeRouting.bothVersionsRequired normalizedType)
          ∨ (mode = "info" ∧ detail = "minimal"
             ∧ NodeRouting.unknownNode normalizedType
             ∧ message = NodeHandlers.notFound normalizedType))).
Proof.
  intros normalizedType. unfold NodeRouting.getNode. fold normalizedType.
  case_bool_decide as Hdetail; simpl.
  2:{ split; [intros [= <-]; by left|].
      intros [[_ ->]|[? _]]; done. }
  case_bool_decide as Hmode; simpl.
  2:{ split; [intros [= <-]; right; split; [done|]; by left|].
      intros [[? _]|(_ & [[_ ->]|[(Hm & _)|[(Hm & _)|(Hm & _)]]])]; try done;
        exfalso; apply Hmode; unfold NodeRouting.validModes;
        rewrite !elem_of_cons; intuition (subst; auto 10). }
  unfold NodeRouting.eqs at 1. case_bool_decide as Hinfo; simpl.
  - subst mode. rewrite handleInfoMode_throws by done. split.
    + intros (-> & Hunknown & ->). right. split; [done|]. by do 3 right.
    + intros [[? _]|(_ & [[? _]|[([|] & _)|[(? & _)|(_ & -> & Hunknown & ->)]]])];
        done.
  - rewrite handleVersionMode_throws by done. split.
    + intros [Hc|Hm]; right; (split; [done|]); [right; by left|right; right; by left].
    + intros [[? _]|(_ & [[? _]|[Hc|[Hm|(? & _)]]])]; try done; [by left|by right].
Qed.
End NodeRoutingFacts.

(** ** The workflow handlers *)

Section WorkflowFacts.
Import JS.
Context `{sv : Services}.

Lemma whenNonEmpty_Some {A : Type} (l l' : list A) :
  WorkflowChecks.whenNonEmpty l = Some l' → l' = l ∧ l ≠ [].
Proof. destruct l; [done|]. by intros [= <-]. Qed.

Lemma whenNonEmpty_None {A : Type} (l : list A) :
  WorkflowChecks.whenNonEmpty l = None ↔ l = [].
Proof. by destruct l. Qed.

Lemma fmap_nil_iff {A B : Type} (f : A → B) (l : list A) : f <$> l = [] ↔ l = [].
Proof. by destruct l. Qed.

Lemma filter_bool_nil_iff {A : Type} (p : A → bool) (l : list A) :
  filter (λ x, p x = true) l = [] ↔ ∀ x, x ∈ l → p x = false.
Proof.
  induction l as [|x l IH]; [split; [intros _ x Hx; by apply not_elem_of_nil in Hx|done]|].
  rewrite filter_cons. destruct (decide (p x = true)) as [Hp|Hp].
  - split; [done|]. intros Hall. specialize (Hall x (list_elem_of_here _ _)).
    congruence.
  - rewrite IH. split.
    + intros Hall y [->|Hy]%elem_of_cons; [by destruct (p x)|by apply Hall].
    + intros Hall y Hy. apply Hall. by right.
Qed.

(** X13.  For every workflow: [validateWorkflowConnections] lists an error only
    in an answer that says [valid: false]; its list of errors, when there
    is one, is not empty and every message in it mentions [connection],
    [cycle] or [orphaned]; and when the workflow validator returns a
    result, the list is missing exactly when none of the validator's
    errors mentions one of these words, whether the answer says
    [valid: true] or not, while [valid] is true exactly when the validator
    found no error of any kind. *)
Theorem validateWorkflowConnections_reports (workflow : JsValue) :
  let r := WorkflowChecks.validateWorkflowConnections workflow in
  (∀ listed, WorkflowChecks.errors r = Some listed →
     WorkflowChecks.valid r = false
     ∧ listed ≠ []
     ∧ ∀ e, e ∈ listed →
            includes (WorkflowChecks.bi_message e) "connection" = true
            ∨ includes (WorkflowChecks.bi_message e) "cycle" = true
            ∨ includes (WorkflowChecks.bi_message e) "orphaned" = true)
  ∧ (∀ result,
       validateWorkflowService workflow WorkflowChecks.connectionsOnly = Returns result →
       (WorkflowChecks.valid r = true ↔ w_errors result = [])
       ∧ (WorkflowChecks.errors r = None
          ↔ ∀ e, e ∈ w_errors result → WorkflowChecks.connectionError e = false)).
Proof.
  intros r. subst r. unfold WorkflowChecks.validateWorkflowConnections. split.
  - intros listed.
    destruct (validateWorkflowService _ _) as [result|message]; simpl; [|done].
    intros [-> Hne]%whenNonEmpty_Some. split; [|split; [done|]].
    + apply bool_decide_eq_false_2. intros Hlen%nil_length_inv.
      rewrite Hlen in Hne. done.
    + intros e (issue & -> & Hissue)%list_elem_of_fmap.
      apply list_elem_of_filter in Hissue as [Hmentions _].
      unfold WorkflowChecks.connectionError in Hmentions. simpl.
      apply orb_true_iff in Hmentions as [[?|?]%orb_true_iff|?]; auto.
  - intros result ->. simpl. split.
    + rewrite bool_decide_eq_true. split; [apply nil_length_inv|by intros ->].
    + rewrite whenNonEmpty_None, fmap_nil_iff. apply filter_bool_nil_iff.
Qed.

(** X14.  For every workflow: [validateWorkflowExpressions] gives its tips on
    expressions exactly when its answer lists an error or a warning; what
    it lists mentions [Expression], [$] or [{{]; and it lists an error only
    in an answer that says [valid: false]. *)
Theorem validateWorkflowExpressions_reports (workflow : JsValue) :
  let r := WorkflowChecks.validateWorkflowExpressions workflow in
  (is_Some (WorkflowChecks.tips r)
   ↔ is_Some (WorkflowChecks.errors r) ∨ is_Some (WorkflowChecks.warnings r))
  ∧ (∀ listed, WorkflowChecks.errors r = Some listed ∨ WorkflowChecks.warnings r = Some listed →
       ∀ e, e ∈ listed →
            includes (WorkflowChecks.bi_message e) "Expression" = true
            ∨ includes (WorkflowChecks.bi_message e) "$" = true
            ∨ includes (WorkflowChecks.bi_message e) "{{" = true)
  ∧ (is_Some (WorkflowChecks.errors r) → WorkflowChecks.valid r = false).
Proof.
  intros r. subst r. unfold WorkflowChecks.validateWorkflowExpressions.
  destruct (validateWorkflowService _ _) as [result|message]; simpl.
  2:{ split; [|split].
      - split; [by intros [? ?]|by intros [[? ?]|[? ?]]].
      - by intros listed [?|?].
      - by intros [? ?]. }
  set (es := filter (λ e, WorkflowChecks.expressionIssue e = true) (w_errors result)).
  set (ws := filter (λ w, WorkflowChecks.expressionIssue w = true) (w_warnings result)).
  assert (∀ (l : list WorkflowIssue), is_Some (WorkflowChecks.whenNonEmpty
            (WorkflowChecks.briefIssue <$> l)) ↔ 0 < length l) as Hsome.
  { intros [|x l]; simpl; split; try lia; try (by intros [? ?]); eauto. }
  split; [|split].
  - rewrite !Hsome.
    case_bool_decide as Hes; simpl; [split; [by left|by eauto]|].
    case_bool_decide as Hws; simpl; [split; [by right|by eauto]|].
    split; [by intros [? ?]|intros [?|?]; done].
  - assert (∀ (l : list WorkflowIssue) e,
              e ∈ WorkflowChecks.briefIssue
                    <$> filter (λ e, WorkflowChecks.expressionIssue e = true) l →
              includes (WorkflowChecks.bi_message e) "Expression" = true
              ∨ includes (WorkflowChecks.bi_message e) "$" = true
              ∨ includes (WorkflowChecks.bi_message e) "{{" = true) as Hmentions.
    { intros l e (issue & -> & Hissue)%list_elem_of_fmap.
      apply list_elem_of_filter in Hissue as [Hm _].
      unfold WorkflowChecks.expressionIssue in Hm. simpl.
      apply orb_true_iff in Hm as [[?|?]%orb_true_iff|?]; auto. }
    intros listed [[-> _]%whenNonEmpty_Some|[-> _]%whenNonEmpty_Some];
      apply Hmentions.
  - intros Hes%Hsome. apply bool_decide_eq_false_2. intros Hlen%nil_length_inv.
    subst es. rewrite Hlen in Hes. simpl in Hes. lia.
Qed.

Lemma validateWorkflow_shape_error (workflow options : JsValue) :
  WorkflowChecks.wellShaped workflow = false →
  ∃ message details,
    WorkflowHandlers.validateWorkflow workflow options
    = WorkflowHandlers.shapeError message details.
Proof.
  unfold WorkflowHandlers.validateWorkflow, WorkflowChecks.wellShaped.
  intros Hshape.
  destruct (negb (truthy workflow) || negb (typeofObject workflow)) eqn:E1; [by eauto|].
  destruct (negb (truthy (member workflow "nodes")) || _) eqn:E2; [by eauto|].
  destruct (negb (truthy (member workflow "connections")) || _) eqn:E3; [by eauto|].
  exfalso.
  destruct workflow as [| |b|q|s|items|members]; try done;
    try (by rewrite orb_true_r in E1).
  unfold member in E2, E3.
  destruct (members !! "nodes") as [[]|]; try done;
    try (by rewrite orb_true_r in E2).
  destruct (members !! "connections") as [[]|]; try done;
    try (by rewrite orb_true_r in E3).
Qed.

Lemma validateWorkflow_validated (workflow options : JsValue) :
  WorkflowChecks.wellShaped workflow = true →
  WorkflowHandlers.validateWorkflow workflow options
  = match validateWorkflowService workflow options with
    | Returns result =>
        {| WorkflowHandlers.valid := w_valid result;
           WorkflowHandlers.summary :=
             Some {| WorkflowHandlers.rs_statistics := Some (w_statistics result);
                     WorkflowHandlers.rs_errorCount := Some (length (w_errors result));
                     WorkflowHandlers.rs_warningCount :=
                       Some (length (w_warnings result)) |};
           WorkflowHandlers.errors := Some (WorkflowHandlers.issueOf <$> w_errors result);
           WorkflowHandlers.warnings :=
             Some (WorkflowHandlers.issueOf <$> w_warnings result);
           WorkflowHandlers.suggestions :=
             if bool_decide (0 < length (w_suggestions result))
             then Some (w_suggestions result) else None;
           WorkflowHandlers.error := None; WorkflowHandlers.tip := None |}
    | Throws message =>
        {| WorkflowHandlers.valid := false;
           WorkflowHandlers.error := Some message;
           WorkflowHandlers.tip :=
             Some "Ensure the workflow JSON includes nodes array and connections object";
           WorkflowHandlers.errors := None; WorkflowHandlers.warnings := None;
           WorkflowHandlers.suggestions := None;
           WorkflowHandlers.summary := None |}
    end.
Proof.
  unfold WorkflowHandlers.validateWorkflow, WorkflowChecks.wellShaped.
  destruct workflow as [| | | | | |members]; try done.
  unfold member.
  destruct (members !! "nodes") as [[]|]; try done.
  destruct (members !! "connections") as [[]|]; done.
Qed.

(** X15.  For every workflow and options: when the workflow is not an object
    with a [nodes] array and a [connections] object, [validateWorkflow]
    answers by itself, whatever the workflow validator would do: the answer
    says [valid: false], lists exactly one error, attached to [workflow],
    and counts one error.  Otherwise the answer is made from what the
    validator does: its verdict and its findings when it returns, its
    message under [error], without any list of errors, when it throws.  An
    array passes for the [connections] object, and an empty [nodes] array
    is accepted. *)
Theorem validateWorkflow_checks_shape_first (workflow options : JsValue) :
  let r := WorkflowHandlers.validateWorkflow workflow options in
  (WorkflowChecks.wellShaped workflow = false →
     WorkflowHandlers.valid r = false
     ∧ (∃ issue, WorkflowHandlers.errors r = Some [issue]
                 ∧ WorkflowHandlers.ri_node issue = "workflow")
     ∧ (WorkflowHandlers.summary r ≫= WorkflowHandlers.rs_errorCount) = Some 1
     ∧ WorkflowHandlers.error r = None)
  ∧ (WorkflowChecks.wellShaped workflow = true →
     (∀ result, validateWorkflowService workflow options = Returns result →
        WorkflowHandlers.valid r = w_valid result
        ∧ WorkflowHandlers.errors r = Some (WorkflowHandlers.issueOf <$> w_errors result)
        ∧ WorkflowHandlers.error r = None)
     ∧ (∀ message, validateWorkflowService workflow options = Throws message →
          WorkflowHandlers.valid r = false
          ∧ WorkflowHandlers.errors r = None
          ∧ WorkflowHandlers.error r = Some message)).
Proof.
  intros r. subst r. split.
  - intros Hshape.
    destruct (validateWorkflow_shape_error workflow options Hshape)
      as (message & details & ->).
    simpl. repeat split. by eexists.
  - intros Hshape. rewrite (validateWorkflow_validated workflow options Hshape).
    split; [intros result ->|intros message ->]; by repeat split.
Qed.
End WorkflowFacts.

(** ** The statement of [listNodes] *)

Section ListNodesFacts.
Import JS JSText UtilityHandlers.
Context `{runner : StatementRunner}.

Lemma listNodesStatement_text :
  ∃ text : list bool → string,
    ∀ filters, (listNodesStatement filters).1 = text (clauses filters).
Proof.
  exists (λ cs,
    match cs with
    | [package; category; developmentStyle; isAITool; limit] =>
        "SELECT * FROM nodes WHERE 1=1"
        +:+ (if package : bool then " AND package_name IN (?,?,?)" else "")
        +:+ (if category : bool then " AND category = ?" else "")
        +:+ (if developmentStyle : bool then " AND development_style = ?" else "")
        +:+ (if isAITool : bool then " AND is_ai_tool = ?" else "")
        +:+ " ORDER BY display_name"
        +:+ (if limit : bool then " LIMIT ?" else "")
    | _ => ""
    end).
  intros filters. unfold listNodesStatement, clauses, filter_.
  destruct (truthy (default JUndefined (filters !! "package")));
    destruct (truthy (default JUndefined (filters !! "category")));
    destruct (truthy (default JUndefined (filters !! "developmentStyle")));
    destruct (default JUndefined (filters !! "isAITool"));
    destruct (truthy (default JUndefined (filters !! "limit")));
    reflexivity.
Qed.

(** X16.  For every filter object: the statement [listNodes] prepares has as
    many [?] placeholders as the parameter list it binds has entries, and
    the text of the statement depends only on which filters are switched
    on, never on their values: no filter value is written into the
    statement text. *)
Theorem listNodes_binds_every_placeholder (filters filters' : gmap string JsValue) :
  countChar "?" (listNodesStatement filters).1 = length (listNodesStatement filters).2
  ∧ (clauses filters = clauses filters' →
     (listNodesStatement filters).1 = (listNodesStatement filters').1).
Proof.
  split.
  - unfold listNodesStatement, clauses, filter_.
    destruct (truthy (default JUndefined (filters !! "package")));
      destruct (truthy (default JUndefined (filters !! "category")));
      destruct (truthy (default JUndefined (filters !! "developmentStyle")));
      destruct (default JUndefined (filters !! "isAITool"));
      destruct (truthy (default JUndefined (filters !! "limit")));
      reflexivity.
  - intros Hclauses. destruct listNodesStatement_text as [text Htext].
    by rewrite !Htext, Hclauses.
Qed.
End ListNodesFacts.

(** ** The set of disabled tools *)

Section TrimFacts.
Import JS JSText.

Lemma trimStart_first (s : string) :
  match trimStart s with
  | String c _ => isWhiteSpace c = false
  | EmptyString => True
  end.
Proof.
  induction s as [|c s IH]; simpl; [done|].
  destruct (isWhiteSpace c) eqn:E; [done|]. simpl. done.
Qed.

Lemma trimStart_fixed (s : string) :
  match s with
  | String c _ => isWhiteSpace c = false
  | EmptyString => True
  end → trimStart s = s.
Proof. destruct s as [|c s]; simpl; [done|]. by intros ->. Qed.

Lemma trimEnd_first (s : string) :
  match s with
  | String c _ => isWhiteSpace c = false
  | EmptyString => True
  end →
  match trimEnd s with
  | String c _ => isWhiteSpace c = false
  | EmptyString => True
  end.
Proof.
  destruct s as [|c s]; simpl; [done|]. intros Hc.
  destruct (trimEnd s); [by rewrite Hc|done].
Qed.

Lemma trimEnd_cons (c : ascii) (s : string) :
  trimEnd (String c s)
  = match trimEnd s with
    | EmptyString => if isWhiteSpace c then EmptyString else String c EmptyString
    | t => String c t
    end.
Proof. reflexivity. Qed.

Lemma trimEnd_idemp (s : string) : trimEnd (trimEnd s) = trimEnd s.
Proof.
  induction s as [|c s IH]; [done|]. rewrite trimEnd_cons.
  destruct (trimEnd s) as [|d t] eqn:E.
  - destruct (isWhiteSpace c) eqn:Ec; [done|]. simpl. by rewrite Ec.
  - by rewrite trimEnd_cons, IH.
Qed.

Lemma trim_idemp (s : string) : trim (trim s) = trim s.
Proof.
  unfold trim.
  rewrite (trimStart_fixed (trimEnd (trimStart s)))
    by apply trimEnd_first, trimStart_first.
  apply trimEnd_idemp.
Qed.
End TrimFacts.

Section DisabledToolsFacts.
Import JS JSText ServerSetup.

Lemma size_list_to_set_le (l : list string) :
  size (list_to_set l : gset string) ≤ length l.
Proof.
  induction l as [|x l IH]; [done|].
  cbn [list_to_set foldr length]. rewrite size_union_alt, size_singleton.
  pose proof (subseteq_size (list_to_set l ∖ {[x]}) (list_to_set l : gset string)
                ltac:(intros y [Hy _]%elem_of_difference; exact Hy)).
  lia.
Qed.

(** X17.  For every value of [DISABLED_TOOLS] and every state of the cache:
    [getDisabledTools] leaves the cache holding the set it returns, so
    that every later call returns that same set whatever the environment
    has become; and a set computed from the environment has at most 200
    members, none of them empty and none with white space at either
    end. *)
Theorem getDisabledTools_bounded_and_cached (env env' : option string)
    (cache : option (gset string)) :
  let '(tools, cache') := getDisabledTools env cache in
  cache' = Some tools
  ∧ getDisabledTools env' cache' = (tools, cache')
  ∧ (cache = None →
     size tools ≤ 200 ∧ ∀ tool, tool ∈ tools → tool ≠ "" ∧ trimmed tool).
Proof.
  unfold getDisabledTools. destruct cache as [cached|]; [done|].
  case_bool_decide as Hempty.
  { split; [done|]. split; [done|]. intros _. rewrite size_empty.
    split; [lia|]. intros tool Htool. by apply not_elem_of_empty in Htool. }
  set (text := if bool_decide (MAX_ENV_LENGTH < _) then _ else _).
  set (tools := filter (λ t, t ≠ "") (trim <$> splitOn "," text)).
  split; [done|]. split; [done|]. intros _. split.
  - etrans; [apply size_list_to_set_le|].
    case_bool_decide; [rewrite length_take|]; lia.
  - intros tool Htool%elem_of_list_to_set.
    assert (tool ∈ tools) as Hin.
    { case_bool_decide; [|done]. apply elem_of_take in Htool as (i & Hi & _).
      by eapply list_elem_of_lookup_2. }
    apply list_elem_of_filter in Hin as [Hne (piece & -> & _)%list_elem_of_fmap].
    split; [done|]. apply trim_idemp.
Qed.
End DisabledToolsFacts.

(** ** The edit distance as a metric *)

Section MetricFacts.
Import EditDistance.
Context {A : Type} `{EqDecision A}.

Lemma edits_trans (n m : nat) (s u t : list A) :
  edits n s u → edits m u t → edits (n + m) s t.
Proof.
  induction 1 as [s|n s v u Hed _ IH]; intros Hut; [done|].
  simpl. eapply edits_step; [done|by apply IH].
Qed.

Lemma edit1_length (s u : list A) :
  edit1 s u → length s ≤ S (length u) ∧ length u ≤ S (length s).
Proof.
  intros [l r a|l r a|l r a b Hab]; rewrite !length_app; simpl; lia.
Qed.

Lemma edits_length (n : nat) (s t : list A) :
  edits n s t → length s ≤ n + length t ∧ length t ≤ n + length s.
Proof.
  induction 1 as [s|n s u t Hed _ IH]; [lia|].
  apply edit1_length in Hed. lia.
Qed.

Lemma lev_triangle (s u t : list A) : lev s t ≤ lev s u + lev u t.
Proof. apply edits_lev. eapply edits_trans; apply lev_edits. Qed.

Lemma lev_length_gap (s t : list A) :
  length s ≤ lev s t + length t ∧ length t ≤ lev s t + length s.
Proof. apply edits_length, lev_edits. Qed.
End MetricFacts.

(** X18.  For all strings [s1], [s2] and [s3]: [getEditDistance] satisfies the
    triangle inequality, the distance between two strings is at least the
    difference of their lengths, and it is at most the length of the
    longer one. *)
Theorem getEditDistance_triangle_and_bounds (s1 s2 s3 : string) :
  EditDistance.getEditDistance s1 s3
  ≤ EditDistance.getEditDistance s1 s2 + EditDistance.getEditDistance s2 s3
  ∧ String.length s1 - String.length s2 ≤ EditDistance.getEditDistance s1 s2
  ∧ String.length s2 - String.length s1 ≤ EditDistance.getEditDistance s1 s2
  ∧ EditDistance.getEditDistance s1 s2 ≤ String.length s1 `max` String.length s2.
Proof.
  split; [|split; [|split]].
  - unfold EditDistance.getEditDistance. rewrite !distance_lev. apply lev_triangle.
  - unfold EditDistance.getEditDistance. rewrite distance_lev, <- !length_list_ascii.
    pose proof (lev_length_gap (list_ascii_of_string s1) (list_ascii_of_string s2)).
    lia.
  - unfold EditDistance.getEditDistance. rewrite distance_lev, <- !length_list_ascii.
    pose proof (lev_length_gap (list_ascii_of_string s1) (list_ascii_of_string s2)).
    lia.
  - apply getEditDistance_le_max.
Qed.

(** ** The outputs in the node information *)

Section NodeInfoFacts.
Import JS NodeHandlers.
Context `{repo : NodeRepository} `{sv : Services} `{rt : Runtime}.

Lemma or_else_nonempty (a b : string) : b ≠ "" → or_else a b ≠ "".
Proof. by destruct a. Qed.

Lemma getOutputDescriptions_nonempty (nodeType outputName : string) (index : nat) :
  od_description (getOutputDescriptions nodeType outputName index) ≠ ""
  ∧ connectionGuidance (getOutputDescriptions nodeType outputName index) ≠ "".
Proof.
  unfold getOutputDescriptions.
  repeat (match goal with
          | |- context [if ?b then _ else _] => destruct b
          end); simpl; split; try done; by apply or_else_nonempty.
Qed.

Lemma described_outputs (type : string) (names : list string) :
  let outs :=
    imap (λ index name,
            let d := getOutputDescriptions type name index in
            {| out_index := index; out_name := name;
               out_description := od_description d;
               out_connectionGuidance := connectionGuidance d |}) names in
  length outs = length names
  ∧ ∀ i name, names !! i = Some name →
      ∃ out, outs !! i = Some out
             ∧ out_index out = i ∧ out_name out = name
             ∧ out_description out ≠ ""
             ∧ out_connectionGuidance out ≠ "".
Proof.
  intros outs. subst outs. split; [by rewrite length_imap|].
  intros i name Hname. rewrite list_lookup_imap, Hname.
  eexists. split; [reflexivity|].
  cbn [out_index out_name out_description out_connectionGuidance].
  split; [done|]. split; [done|].
  apply getOutputDescriptions_nonempty.
Qed.

(** X19.  For every node type for which [getNodeInfo] returns: the answer has
    no [outputs] member when the node has no output names, and otherwise
    one entry per output name, in the same order, each carrying its
    position as [index], its name, a description and a connection guidance
    that are not empty. *)
Theorem getNodeInfo_describes_every_output (nodeType : string) (info : NodeInfo) :
  getNodeInfo nodeType = Returns info →
  match n_outputNames (info_node info) with
  | None | Some [] => outputs info = None
  | Some names =>
      ∃ outs, outputs info = Some outs
              ∧ length outs = length names
              ∧ ∀ i name, names !! i = Some name →
                  ∃ out, outs !! i = Some out
                         ∧ out_index out = i ∧ out_name out = name
                         ∧ out_description out ≠ ""
                         ∧ out_connectionGuidance out ≠ ""
  end.
Proof.
  unfold getNodeInfo. destruct (lookup nodeType) as [node|]; [|done].
  change (Returns ?x = Returns info → ?P) with (Returns x = Returns info → P).
  intros [= <-]. cbn [outputs info_node].
  destruct (n_outputNames node) as [[|name names]|]; [done| |done].
  eexists. split; [reflexivity|].
  apply (described_outputs (n_nodeType node) (name :: names)).
Qed.
End NodeInfoFacts.

(** The theorem above on a repository that knows the If node. *)
Lemma getNodeInfo_describes_every_output_witness :
  ∃ info outs,
    @NodeHandlers.getNodeInfo MoreFixtures.branchingRepository Fixtures.sampleRuntime
      "nodes-base.if" = Returns info
    ∧ NodeHandlers.outputs info = Some outs
    ∧ length outs = 2.
Proof.
  assert (∃ info, @NodeHandlers.getNodeInfo MoreFixtures.branchingRepository
            Fixtures.sampleRuntime "nodes-base.if" = Returns info
          ∧ n_outputNames (NodeHandlers.info_node info) = Some ["true"; "false"])
    as (info & Hinfo & Hnames) by (eexists; split; reflexivity).
  pose proof (@getNodeInfo_describes_every_output MoreFixtures.branchingRepository
                Fixtures.sampleRuntime "nodes-base.if" info Hinfo) as Houts.
  rewrite Hnames in Houts. destruct Houts as (outs & Houts & Hlen & _).
  exists info, outs. split; [exact Hinfo|]. split; [exact Houts|exact Hlen].
Defined.

(** ** The statements of the schema *)

Section SchemaFacts.
Import JS JSText ServerSetup.

Lemma parseLine_trimmed (st : ParserState) (line : string) :
  Forall trimmed (statements st) → Forall trimmed (statements (parseLine st line)).
Proof.
  intros Hst. unfold parseLine. destruct (skipped line); [done|].
  repeat (match goal with
          | |- context [if ?b then _ else _] => destruct b
          end); simpl; try done;
    apply Forall_app; (split; [done|]); repeat constructor; apply trim_idemp.
Qed.

Lemma foldl_parseLine_trimmed (lines : list string) (st : ParserState) :
  Forall trimmed (statements st) →
  Forall trimmed (statements (foldl parseLine st lines)).
Proof.
  revert st. induction lines as [|line lines IH]; intros st Hst; [done|].
  simpl. by apply IH, parseLine_trimmed.
Qed.

Lemma foldl_parseLine_skips (lines : list string) (st : ParserState) :
  foldl parseLine st (filter (λ line, skipped line = false) lines)
  = foldl parseLine st lines.
Proof.
  revert st. induction lines as [|line lines IH]; intros st; [done|].
  rewrite filter_cons. destruct (decide (skipped line = false)) as [Hkept|Hskip].
  - simpl. apply IH.
  - simpl. rewrite IH. f_equal. unfold parseLine.
    by destruct (skipped line).
Qed.

(** X20.  For every text of a schema: no statement [parseSQLStatements] returns
    is empty, and none starts or ends with white space; and for every list
    of lines, the comment lines (those that start with [--] once trimmed)
    and the blank lines can be taken out without changing the statements
    the loop produces. *)
Theorem parseSQLStatements_clean (sql : string) (lines : list string) :
  (∀ statement, statement ∈ parseSQLStatements sql →
                statement ≠ "" ∧ trimmed statement)
  ∧ parseLines (filter (λ line, skipped line = false) lines) = parseLines lines.
Proof.
  split.
  - intros statement. unfold parseSQLStatements, parseLines.
    set (st := foldl parseLine _ _).
    assert (Forall trimmed (statements st)) as Hst
      by (by apply foldl_parseLine_trimmed).
    intros [Hlen Hin]%list_elem_of_filter. split.
    + intros ->. simpl in Hlen. lia.
    + case_bool_decide.
      * by eapply Forall_forall in Hst.
      * apply elem_of_app in Hin as [Hin|Hin%list_elem_of_singleton].
        -- by eapply Forall_forall in Hst.
        -- subst statement. apply trim_idemp.
  - unfold parseLines. by rewrite foldl_parseLine_skips.
Qed.
End SchemaFacts.

(** ** Counts in the answers *)

Section CountFacts.
Import JS JSArray.
Context `{db : DatabaseAdapter} `{rt : Runtime} `{repo : NodeRepository} `{sv : Services}.

Lemma NodeSearchHandler_searchNodesLIKE_answer (q : string) (limit : nat)
    (r : NodeSearchHandler.SearchResult) :
  NodeSearchHandler.searchNodesLIKE q limit = Returns r →
  NodeSearchHandler.fallback r = true
  ∧ NodeSearchHandler.totalCount r = length (NodeSearchHandler.results r)
  ∧ ∃ rows, likeOrdered (removeAngles (trim q)) limit = Returns rows
            ∧ NodeSearchHandler.totalCount r = length rows.
Proof.
  unfold NodeSearchHandler.searchNodesLIKE.
  destruct (likeOrdered _ _) as [rows|]; simpl; [|done].
  intros [= <-]. simpl. rewrite !length_fmap, sort_length, length_fmap.
  split; [done|]. split; [done|]. by exists rows.
Qed.

(** X21.  For every query, limit and options for which the [searchNodes] method
    of [NodeSearchHandler] returns: [totalCount] is the number of results
    in the answer and the number of rows the statement behind the answer
    returned; an answer flagged [fallback: true] comes from the ordered
    substring statement, and an answer not so flagged comes from the index
    statement, run on the index expression built from the cleaned query,
    and contains the HTTP Request node whenever that query mentions
    [http]. *)
Theorem NodeSearchHandler_counts_and_fallback (q : string) (limit : nat)
    (options : option NodeSearchHandler.Options) (r : NodeSearchHandler.SearchResult) :
  NodeSearchHandler.searchNodes (Some q) limit options = Returns r →
  NodeSearchHandler.totalCount r = length (NodeSearchHandler.results r)
  ∧ (NodeSearchHandler.fallback r = true →
     ∃ pattern rows, likeOrdered pattern limit = Returns rows
                     ∧ NodeSearchHandler.totalCount r = length rows)
  ∧ (NodeSearchHandler.fallback r = false →
     let cleanedQuery := removeAngles (trim q) in
     let m := or_else (default "" (options ≫= NodeSearchHandler.o_mode)) "OR" in
     ∃ rows,
       ftsMatch (NodeSearchHandler.buildFtsQuery cleanedQuery m) cleanedQuery
                (NodeSearchHandler.sourceOf options) limit = Returns rows
       ∧ NodeSearchHandler.totalCount r = length rows
       ∧ (includes (toLowerCase cleanedQuery) "http" = true →
          ∃ row, row ∈ rows ∧ node_type (fts_node row) = "nodes-base.httpRequest")).
Proof.
  unfold NodeSearchHandler.searchNodes.
  unfold NodeSearchHandler.eqs at 1. case_bool_decide; [done|].
  unfold try_catch.
  destruct (NodeSearchHandler.searchNodesFTS _ _ _ _) as [answer|] eqn:Efts.
  2:{ intros (Hflag & Hcount & rows & Hrows & Hlen)%NodeSearchHandler_searchNodesLIKE_answer.
      split; [done|]. split; [by eauto|]. by rewrite Hflag. }
  intros [= ->]. unfold NodeSearchHandler.searchNodesFTS in Efts.
  destruct (ftsMatch _ _ _ _) as [rows|] eqn:Erows; simpl in Efts; [|done].
  destruct (_ && _) eqn:Eguard.
  { apply NodeSearchHandler_searchNodesLIKE_answer
      in Efts as (Hflag & Hcount & found & Hfound & Hlen).
    split; [done|]. split; [by eauto|]. by rewrite Hflag. }
  injection Efts as <-. simpl.
  rewrite !length_fmap, sort_length, length_fmap.
  split; [done|]. split; [done|]. intros _. exists rows.
  split; [done|]. split; [done|]. intros Hhttp. rewrite Hhttp in Eguard.
  simpl in Eguard. apply negb_false_iff, existsb_exists in Eguard as (p & Hp & Htype).
  apply list_elem_of_In, elem_of_sort, list_elem_of_fmap in Hp as (row & -> & Hrow).
  exists row. split; [done|]. simpl in Htype. unfold NodeSearchHandler.eqs in Htype.
  by apply bool_decide_eq_true in Htype.
Qed.

(** X22.  For every workflow and options: in the answer of [validateWorkflow]
    the error count of the summary is the number of errors listed and the
    warning count is the number of warnings listed, whenever the answer
    has the count and the list; the one answer without a list of errors is
    the answer to an exception of the validator, which has no summary
    either. *)
Theorem validateWorkflow_counts_match (workflow options : JsValue) :
  let r := WorkflowHandlers.validateWorkflow workflow options in
  match WorkflowHandlers.errors r,
        WorkflowHandlers.summary r ≫= WorkflowHandlers.rs_errorCount with
  | Some listed, Some count => count = length listed
  | None, None => is_Some (WorkflowHandlers.error r)
  | _, _ => False
  end
  ∧ match WorkflowHandlers.warnings r,
          WorkflowHandlers.summary r ≫= WorkflowHandlers.rs_warningCount with
    | Some listed, Some count => count = length listed
    | None, None => True
    | _, _ => False
    end.
Proof.
  intros r. subst r.
  destruct (WorkflowChecks.wellShaped workflow) eqn:Hshape.
  - rewrite (validateWorkflow_validated workflow options Hshape).
    destruct (validateWorkflowService workflow options); simpl;
      rewrite ?length_fmap; by eauto.
  - destruct (validateWorkflow_shape_error workflow options Hshape)
      as (message & details & ->).
    simpl. by split.
Qed.
End CountFacts.

(** The first theorem above on the fixtures: the search for [webhook]
    is answered by the index with one row. *)
Lemma NodeSearchHandler_counts_and_fallback_witness :
  ∃ r, @NodeSearchHandler.searchNodes Fixtures.sampleDb Fixtures.sampleRuntime
         (Some "webhook") 20 None = Returns r
       ∧ NodeSearchHandler.fallback r = false
       ∧ NodeSearchHandler.totalCount r = 1
       ∧ length (NodeSearchHandler.results r) = 1.
Proof.
  eexists. split; [reflexivity|]. split; [reflexivity|].
  destruct (@NodeSearchHandler_counts_and_fallback Fixtures.sampleDb
              Fixtures.sampleRuntime "webhook" 20 None _ eq_refl) as (Hcount & _).
  split; [reflexivity|]. rewrite <- Hcount. reflexivity.
Defined.

(** ** The letter case of the query *)

Section QueryCaseFacts.
Import JS JSArray SearchHandlers.
Context `{rt : Runtime}.

Lemma rankScore_lower (node : NodeRow) (q : string) :
  rankScore node (toLowerCase (toLowerCase q)) = rankScore node (toLowerCase q).
Proof. by rewrite toLowerCase_idemp. Qed.

(** X23.  For every row, list of rows, query and limit: the relevance label, the
    relevance score of the indexed strategy, the fuzzy score and the
    ranking of the substring strategy are the same for a query and for its
    lower-cased form.  The letter case of the query never changes a score
    or the order of the results. *)
Theorem scores_ignore_query_case (node : NodeRow) (nodes : list NodeRow)
    (q : string) (limit : nat) :
  calculateRelevance node (toLowerCase q) = calculateRelevance node q
  ∧ calculateRelevanceScore node (toLowerCase q) = calculateRelevanceScore node q
  ∧ calculateFuzzyScore node (toLowerCase q) = calculateFuzzyScore node q
  ∧ rankSearchResults nodes (toLowerCase q) limit = rankSearchResults nodes q limit
  ∧ fuzzyMatches nodes (toLowerCase q) limit = fuzzyMatches nodes q limit.
Proof.
  assert (∀ n, calculateFuzzyScore n (toLowerCase q) = calculateFuzzyScore n q)
    as Hfuzzy.
  { intros n. unfold calculateFuzzyScore. by rewrite toLowerCase_idemp. }
  split; [|split; [|split; [|split]]].
  - unfold calculateRelevance. by rewrite toLowerCase_idemp.
  - unfold calculateRelevanceScore. by rewrite toLowerCase_idemp.
  - apply Hfuzzy.
  - unfold rankSearchResults. by rewrite toLowerCase_idemp.
  - unfold fuzzyMatches. f_equal. f_equal. f_equal. f_equal.
    apply list_fmap_ext. intros i n _. by rewrite Hfuzzy.
Qed.
End QueryCaseFacts.
